(** * Marinus: mirroring the primary MongoDB into the remote one

    A shallow embedding of [python3_cron_scripts/send_remote_server.py] and of
    [python3_cron_scripts/libs3/RemoteMongoConnector.py], and the properties of
    the mirroring subsystem proved over it.

    The Python code is effectful: it talks to two document stores, sleeps,
    prints and may leave through [exit] or an uncaught exception.  It is
    embedded in a state-and-exception monad [M] over a [world] holding both
    stores, the schedule of failures the stores will produce, the readable
    configuration files and the chronological trace of observable events. *)

From Stdlib Require Import ZArith Lia Ascii String.
From stdpp Require Import base gmap list strings.
From Equations Require Import Equations.

Open Scope string_scope.
Open Scope list_scope.

(** ** Python values, documents, queries *)

Inductive value :=
  | VStr (s : string)
  | VInt (n : Z)
  | VBool (b : bool).

#[global] Instance value_eq_dec : EqDecision value.
Proof. solve_decision. Defined.

(** A document is a Python dict from field names to values.  A query such as
    [{}] or [{'zone': zone}] is a dict as well: it selects the documents that
    carry every listed field with the listed value. *)
Abbreviation document := (gmap string value).
Abbreviation query := (gmap string value).

(** The only projections of the scripts are exclusions such as [{"_id": 0}]:
    a projection is the list of the excluded field names. *)
Definition projection := list string.

Definition no_id : projection := ["_id"].

Definition project (p : option projection) (d : document) : document :=
  match p with
  | Some fields => foldr delete d fields
  | None => d
  end.

Definition cursor := list document.

(** What a collection answers to each operation of its handle. *)
Definition coll_find (q : query) (p : option projection)
    (docs : list document) : cursor :=
  project p <$> filter (λ d, q ⊆ d) docs.

Definition coll_find_one (q : query) (p : option projection)
    (docs : list document) : option document :=
  head (coll_find q p docs).

Definition coll_distinct (field : string) (q : option query)
    (docs : list document) : list value :=
  remove_dups (omap (λ d : document, d !! field)
                 (filter (λ d, default ∅ q ⊆ d) docs)).

Definition coll_remove (q : query) (docs : list document) : list document :=
  filter (λ d, ¬ q ⊆ d) docs.

Definition coll_insert (d : document) (docs : list document) : list document :=
  docs ++ [d].

(** ** Stores, handles, events *)

Inductive side := Primary | Remote.

#[global] Instance side_eq_dec : EqDecision side.
Proof. solve_decision. Defined.

(** [client[name]]: a database of one of the two servers. *)
Record database := Database { db_side : side; db_name : string }.

(** [database.name]: a collection handle. *)
Record collection := Collection { c_db : database; c_name : string }.

#[global] Instance database_eq_dec : EqDecision database.
Proof. solve_decision. Defined.

#[global] Instance collection_eq_dec : EqDecision collection.
Proof. solve_decision. Defined.

Inductive op :=
  | OpFind (q : query) (p : option projection)
  | OpFindOne (q : query) (p : option projection)
  | OpDistinct (field : string) (q : option query)
  | OpRemove (q : query)
  | OpInsert (d : document).

#[global] Instance op_eq_dec : EqDecision op.
Proof. solve_decision. Defined.

Inductive event :=
  | EvStore (c : collection) (o : op)      (* one attempt of a store operation *)
  | EvSleep (seconds : Z)                  (* time.sleep *)
  | EvPrint (msg : string)                 (* print *)
  | EvLog (msg : string)                   (* logger.info *)
  | EvMongoClient (uri : string) (ca_certs : option string)
  | EvJob (what : string).                 (* JobsManager records *)

#[global] Instance event_eq_dec : EqDecision event.
Proof. solve_decision. Defined.

(** ** Exceptions and outcomes *)

Inductive exn :=
  | AutoReconnect                  (* pymongo.errors.AutoReconnect *)
  | OperationFailure (msg : string) (* any other store error *)
  | KeyError (key : string)
  | ValueError (msg : string).

#[global] Instance exn_eq_dec : EqDecision exn.
Proof. solve_decision. Defined.

Inductive outcome (A : Type) :=
  | Ok (a : A)
  | Raise (e : exn)        (* an exception nobody caught so far *)
  | Exit (code : Z).       (* exit(code) *)
Arguments Ok {A} a.
Arguments Raise {A} e.
Arguments Exit {A} code.

(** ** The configuration file, as configparser sees it *)

(** A parsed file: sections, each a dict of raw option values.  A raw value
    is [inl s] when it reads as the string [s], and [inr msg] when looking it
    up makes configparser raise one of its own errors. *)
Abbreviation config := (gmap string (gmap string (string + string))).

Inductive config_error :=
  | NoSectionError (section : string)
  | NoOptionError (key : string)
  | OtherConfigError (msg : string)   (* any other configparser.Error *)
  | NotABoolean (raw : string).       (* ValueError, not a configparser.Error *)

(** ** The world *)

Abbreviation db := (gmap string (list document)).

Record world := World {
  primary : db;                          (* the primary store, by collection *)
  remote : db;                           (* the remote store, by collection *)
  primary_faults : list (option exn);    (* what its next operations will do *)
  remote_faults : list (option exn);
  config_files : gmap string config;     (* the files configparser can read *)
  now : string;                          (* str(datetime.now()) *)
  trace : list event                     (* what happened so far, oldest first *)
}.

Definition store (s : side) (w : world) : db :=
  match s with Primary => primary w | Remote => remote w end.

Definition faults (s : side) (w : world) : list (option exn) :=
  match s with Primary => primary_faults w | Remote => remote_faults w end.

Definition docs_of (c : collection) (w : world) : list document :=
  default [] (store (db_side (c_db c)) w !! c_name c).

Definition set_docs (c : collection) (docs : list document) (w : world) : world :=
  match db_side (c_db c) with
  | Primary =>
      World (<[c_name c := docs]> (primary w)) (remote w) (primary_faults w)
        (remote_faults w) (config_files w) (now w) (trace w)
  | Remote =>
      World (primary w) (<[c_name c := docs]> (remote w)) (primary_faults w)
        (remote_faults w) (config_files w) (now w) (trace w)
  end.

Definition set_faults (s : side) (fs : list (option exn)) (w : world) : world :=
  match s with
  | Primary =>
      World (primary w) (remote w) fs (remote_faults w) (config_files w)
        (now w) (trace w)
  | Remote =>
      World (primary w) (remote w) (primary_faults w) fs (config_files w)
        (now w) (trace w)
  end.

Definition record (e : event) (w : world) : world :=
  World (primary w) (remote w) (primary_faults w) (remote_faults w)
    (config_files w) (now w) (trace w ++ [e]).

(** ** The monad of the scripts *)

Definition M (A : Type) : Type := world → outcome A * world.

Definition ret {A} (a : A) : M A := λ w, (Ok a, w).

Definition bind {A B} (k : A → M B) (m : M A) : M B :=
  λ w, match m w with
       | (Ok a, w') => k a w'
       | (Raise e, w') => (Raise e, w')
       | (Exit code, w') => (Exit code, w')
       end.

(** [x ← m; k] and [m;; k] are stdpp's notations for [bind]. *)
#[global] Instance M_ret : MRet M := @ret.
#[global] Instance M_bind : MBind M := @bind.

Definition raise {A} (e : exn) : M A := λ w, (Raise e, w).
Definition exit {A} (code : Z) : M A := λ w, (Exit code, w).
Definition gets {A} (f : world → A) : M A := λ w, (Ok (f w), w).
Definition modify (f : world → world) : M unit := λ w, (Ok tt, f w).
Definition emit (e : event) : M unit := modify (record e).
Definition print (msg : string) : M unit := emit (EvPrint msg).

(** Modelled from the spec: libs3/LoggingUtil.py is not among the sources; a
    line given to the logger it creates is recorded as it is. *)
Definition logger_info (msg : string) : M unit := emit (EvLog msg).

(** [for x in xs: body x] *)
Fixpoint for_each {A} (xs : list A) (body : A → M unit) : M unit :=
  match xs with
  | [] => ret tt
  | x :: rest => body x;; for_each rest body
  end.

(** ** Operations of a collection handle

    Every call of a store operation is one attempt: it is recorded in the
    trace and takes the next entry of the schedule of its server.  [Some e]
    makes the attempt raise [e] and leaves the store as it was; [None], or an
    exhausted schedule, lets it go through.  A cursor is modelled by the list
    of the documents it yields, read when [find] is called; the size of its
    batches changes nothing to that list.  (The driver sends the query of a
    cursor when the cursor is first iterated: the attempt of a [find] stands
    for that first iteration, which in the steps of the script comes right
    after the call, or after the [remove] that empties the destination.) *)

Definition attempt (c : collection) (o : op) : M unit :=
  λ w, let w1 := record (EvStore c o) w in
       let s := db_side (c_db c) in
       match faults s w1 with
       | Some e :: rest => (Raise e, set_faults s rest w1)
       | None :: rest => (Ok tt, set_faults s rest w1)
       | [] => (Ok tt, w1)
       end.

Definition find (c : collection) (q : query) (p : option projection) : M cursor :=
  attempt c (OpFind q p);; gets (λ w, coll_find q p (docs_of c w)).

Definition find_one (c : collection) (q : query) (p : option projection)
    : M (option document) :=
  attempt c (OpFindOne q p);; gets (λ w, coll_find_one q p (docs_of c w)).

Definition distinct (c : collection) (field : string) (q : option query)
    : M (list value) :=
  attempt c (OpDistinct field q);;
  gets (λ w, coll_distinct field q (docs_of c w)).

Definition remove (c : collection) (q : query) : M unit :=
  attempt c (OpRemove q);;
  modify (λ w, set_docs c (coll_remove q (docs_of c w)) w).

Definition insert (c : collection) (d : document) : M unit :=
  attempt c (OpInsert d);;
  modify (λ w, set_docs c (coll_insert d (docs_of c w)) w).

(** [cursor.count()] and [cursor.batch_size(n)] on a cursor already obtained. *)
Definition count (cur : cursor) : Z := Z.of_nat (length cur).
Definition batch_size (n : Z) (cur : cursor) : cursor := cur.

(** [d[key]] *)
Definition getitem (d : document) (key : string) : M value :=
  match d !! key with
  | Some v => ret v
  | None => raise (KeyError key)
  end.

(** ** configparser

    A raw option value either reads as a plain string or makes the parser
    raise one of its own errors when it is looked up (a bad interpolation,
    for instance). *)

Definition read_raw (raw : string + string) : config_error + string :=
  match raw with
  | inl s => inr s
  | inr msg => inl (OtherConfigError msg)
  end.

(** [config.get(section, key)] *)
Definition config_get (cfg : config)
    (section key : string) : config_error + string :=
  match cfg !! section with
  | None => inl (NoSectionError section)
  | Some options =>
      match options !! key with
      | None => inl (NoOptionError key)
      | Some raw => read_raw raw
      end
  end.

Definition lower_ascii (a : ascii) : ascii :=
  let n := nat_of_ascii a in
  if (65 <=? n)%nat && (n <=? 90)%nat then ascii_of_nat (n + 32) else a.

Fixpoint lower (s : string) : string :=
  match s with
  | EmptyString => EmptyString
  | String a rest => String (lower_ascii a) (lower rest)
  end.

(** [config.getboolean(section, key)] *)
Definition config_getboolean (cfg : config)
    (section key : string) : config_error + bool :=
  match config_get cfg section key with
  | inl err => inl err
  | inr s =>
      let l := lower s in
      if bool_decide (l ∈ ["1"; "yes"; "true"; "on"]) then inr true
      else if bool_decide (l ∈ ["0"; "no"; "false"; "off"]) then inr false
      else inl (NotABoolean s)
  end.

(** [config.read(filename)]: the parser filled from the file, and the list of
    the files it could read.  A file that is there holds a configuration the
    parser accepts; a file on which [config.read] itself raises is not
    modelled. *)
Definition config_read (filename : string)
    : M (config * list string) :=
  gets (λ w, match config_files w !! filename with
             | Some cfg => (cfg, [filename])
             | None => (∅, [])
             end).

(** The string held by a Python [str]. *)
Definition str_of (v : value) : string :=
  match v with VStr s => s | _ => "" end.

(** [s[1:]] *)
Definition from_1 (s : string) : string :=
  match s with
  | EmptyString => EmptyString
  | String _ rest => rest
  end.

(** ** A connector object: the fields of a constructed instance *)

Record connector := Connector {
  mongo_config_file : string;
  m_connection : database;
  debug : bool
}.

(** The loop shared, word for word, by the four [perform_*] methods:
<<
    success = False
    num_tries = 0
    while not success:
        try:
            result = BODY
            success = True
        except AutoReconnect:
            if num_tries < 5:
                print("Warning: ..."); time.sleep(5); num_tries = num_tries + 1
            else:
                print("ERROR: ..."); exit(1)
    return result
>>
    [success] becomes true exactly when [BODY] returns, which ends the loop
    with [result]; an exception other than AutoReconnect leaves the method.
    The loop ends because [5 - num_tries] decreases at every new turn. *)
Equations? while_not_success {R} (body : M R) (num_tries : Z) (w : world)
    : outcome R * world by wf (Z.to_nat (5 - num_tries)) lt :=
while_not_success body num_tries w with body w := {
  | (Raise AutoReconnect, w1) with Z_lt_dec num_tries 5 := {
      | left _ =>
          while_not_success body (num_tries + 1)
            (record (EvSleep 5)
               (record (EvPrint "Warning: Failed to connect to the database. Retrying.") w1))
      | right _ =>
          (Exit 1,
           record (EvPrint "ERROR: Exceeded the max number of connection attempts to MongoDB!") w1) };
  | (r, w1) => (r, w1) }.
Proof. lia. Qed.

Module RemoteMongoConnector.

Definition default_config_file : string := "connector.config".

(** [_get_config_setting(config, section, key, type='str')] *)
Definition _get_config_setting (cfg : config)
    (section key : string) (type : string) : M value :=
  let failed : M value :=
    if bool_decide (type = "boolean") then mret (VInt 0) else mret (VStr "") in
  match (if bool_decide (type = "boolean")
         then sum_map id VBool (config_getboolean cfg section key)
         else sum_map id VStr (config_get cfg section key)) with
  | inr result => mret result
  | inl (NoSectionError _) =>
      print ("Warning: " +:+ section +:+ " does not exist in config file");;
      failed
  | inl (NoOptionError _) =>
      print ("Warning: " +:+ key +:+ " does not exist in the config file");;
      failed
  | inl (OtherConfigError msg) =>
      print "Warning: Unexpected error with config file";;
      print msg;;
      failed
  | inl (NotABoolean raw) => raise (ValueError ("Not a boolean: " +:+ raw))
  end.

(** The string handed to MongoClient by [_init_mongo_connection]. *)
Definition connection_string (protocol endpoint path username password : value)
    : string :=
  if bool_decide (username ≠ VStr "") && bool_decide (password ≠ VStr "")
  then str_of protocol +:+ str_of username +:+ ":" +:+ str_of password +:+ "@"
       +:+ str_of endpoint +:+ str_of path
  else str_of protocol +:+ str_of endpoint +:+ str_of path.

(** [_init_mongo_connection(self, config)]; the result is the value given
    to [self.m_connection].  The call of MongoClient is recorded with the
    arguments it is given; that the driver may refuse them (an empty host, a
    certificate file that is not there) is not modelled. *)
Definition _init_mongo_connection (cfg : config)
    : M database :=
  protocol ← _get_config_setting cfg "RemoteMongoDB" "mongo.protocol" "str";
  endpoint ← _get_config_setting cfg "RemoteMongoDB" "mongo.host" "str";
  path ← _get_config_setting cfg "RemoteMongoDB" "mongo.path" "str";
  username ← _get_config_setting cfg "RemoteMongoDB" "mongo.username" "str";
  password ← _get_config_setting cfg "RemoteMongoDB" "mongo.password" "str";
  cacert ← _get_config_setting cfg "RemoteMongoDB" "mongo.ca_cert" "str";
  let uri := connection_string protocol endpoint path username password in
  (if bool_decide (cacert ≠ VStr "")
   then emit (EvMongoClient uri (Some (str_of cacert)))
   else emit (EvMongoClient uri None));;
  mret (Database Remote (from_1 (str_of path))).

(** [__init__(self, config_file="", debug=False)] *)
Definition __init__ (config_file : string) (debug : bool) : M connector :=
  let mongo_config_file :=
    if bool_decide (config_file ≠ "") then config_file else default_config_file in
  '(cfg, list) ← config_read mongo_config_file;
  if bool_decide (length list = 0%nat)
  then print "Error: Could not find the config file";; exit 0
  else
    conn ← _init_mongo_connection cfg;
    mret (Connector mongo_config_file conn debug).

(** [perform_find(self, collection, query, filter=None)] *)
Definition perform_find (self : connector) (collection : collection)
    (query : query) (filter : option projection) : M cursor :=
  while_not_success
    (match filter with
     | Some f => find collection query (Some f)
     | None => find collection query None
     end) 0.

(** [perform_find_one(self, collection, query, filter=None)] *)
Definition perform_find_one (self : connector) (collection : collection)
    (query : query) (filter : option projection) : M (option document) :=
  while_not_success
    (match filter with
     | Some f => find_one collection query (Some f)
     | None => find_one collection query None
     end) 0.

(** [perform_count(self, collection, query)] *)
Definition perform_count (self : connector) (collection : collection)
    (query : query) : M Z :=
  while_not_success (cur ← find collection query None; mret (count cur)) 0.

(** [perform_distinct(self, collection, field, query=None)] *)
Definition perform_distinct (self : connector) (collection : collection)
    (field : string) (query : option query) : M (list value) :=
  while_not_success
    (match query with
     | Some q => distinct collection field (Some q)
     | None => distinct collection field None
     end) 0.

Definition get_zone_connection (self : connector) : collection :=
  Collection (m_connection self) "zones".
Definition get_ipzone_connection (self : connector) : collection :=
  Collection (m_connection self) "ip_zones".
Definition get_ipv6_zone_connection (self : connector) : collection :=
  Collection (m_connection self) "ipv6_zones".
Definition get_config_connection (self : connector) : collection :=
  Collection (m_connection self) "config".
Definition get_aws_ips_connection (self : connector) : collection :=
  Collection (m_connection self) "aws_ips".
Definition get_azure_ips_connection (self : connector) : collection :=
  Collection (m_connection self) "azure_ips".
Definition get_gcp_ips_connection (self : connector) : collection :=
  Collection (m_connection self) "gcp_ips".
Definition get_akamai_ips_connection (self : connector) : collection :=
  Collection (m_connection self) "akamai_ips".
Definition get_all_dns_connection (self : connector) : collection :=
  Collection (m_connection self) "all_dns".

End RemoteMongoConnector.

Module MongoConnector.

(** Modelled from the spec: libs3/MongoConnector.py, the accessor of the
    primary store, is not among the sources.  The spec (4.2) makes it the
    second instance of the Store Accessor: an independent connection that
    exposes the same named collection handles and holds no logic beyond
    the mapping from names to handles. *)
Definition __init__ : M connector :=
  mret (Connector "connector.config" (Database Primary "") false).

(** Modelled from the spec: the handle of the primary collection [zones]. *)
Definition get_zone_connection (self : connector) : collection :=
  Collection (m_connection self) "zones".

(** Modelled from the spec: the handle of the primary collection [ip_zones]. *)
Definition get_ipzone_connection (self : connector) : collection :=
  Collection (m_connection self) "ip_zones".

(** Modelled from the spec: the handle of the primary collection [ipv6_zones]. *)
Definition get_ipv6_zone_connection (self : connector) : collection :=
  Collection (m_connection self) "ipv6_zones".

(** Modelled from the spec: the handle of the primary collection [config]. *)
Definition get_config_connection (self : connector) : collection :=
  Collection (m_connection self) "config".

(** Modelled from the spec: the handle of the primary collection [aws_ips]. *)
Definition get_aws_ips_connection (self : connector) : collection :=
  Collection (m_connection self) "aws_ips".

(** Modelled from the spec: the handle of the primary collection [azure_ips]. *)
Definition get_azure_ips_connection (self : connector) : collection :=
  Collection (m_connection self) "azure_ips".

(** Modelled from the spec: the handle of the primary collection [gcp_ips]. *)
Definition get_gcp_ips_connection (self : connector) : collection :=
  Collection (m_connection self) "gcp_ips".

(** Modelled from the spec: the handle of the primary collection [akamai_ips]. *)
Definition get_akamai_ips_connection (self : connector) : collection :=
  Collection (m_connection self) "akamai_ips".

(** Modelled from the spec: the handle of the primary collection [all_dns]. *)
Definition get_all_dns_connection (self : connector) : collection :=
  Collection (m_connection self) "all_dns".

End MongoConnector.

Module JobsManager.

(** Modelled from the spec: libs3/JobsManager.py is not among the sources.
    The spec makes it the external Job Lifecycle Reporter, which records
    the start and the completion of a run and nothing else. *)
Definition record_job_start (job_name : string) : M unit :=
  emit (EvJob (job_name +:+ ": start")).

(** Modelled from the spec: the record of the completion of the run. *)
Definition record_job_complete (job_name : string) : M unit :=
  emit (EvJob (job_name +:+ ": complete")).

End JobsManager.

(** ** send_remote_server.py *)

(** [for x in xs: acc = body x acc], for the loops that grow a list. *)
Fixpoint for_acc {A S} (xs : list A) (acc : S) (body : A → S → M S) : M S :=
  match xs with
  | [] => mret acc
  | x :: rest => acc' ← body x acc; for_acc rest acc' body
  end.

(** [update_zones(logger, mongo_connector, rm_connector, update_zone_list)] *)
Definition update_zones (mongo_connector rm_connector : connector)
    (update_zone_list : bool) : M (list value) :=
  logger_info "Starting Zones..";;
  let zones_collection := MongoConnector.get_zone_connection mongo_connector in
  let remote_zones_collection :=
    RemoteMongoConnector.get_zone_connection rm_connector in
  zones ← find zones_collection ∅ (Some no_id);
  let zone_list : list value := [] in
  if update_zone_list then
    remove remote_zones_collection ∅;;
    for_acc zones zone_list (λ zone zone_list,
      insert remote_zones_collection zone;;
      z ← getitem zone "zone";
      mret (zone_list ++ [z]))
  else
    for_acc zones zone_list (λ zone zone_list,
      z ← getitem zone "zone";
      mret (zone_list ++ [z])).

(** [update_ip_zones(logger, mongo_connector, rm_connector)] *)
Definition update_ip_zones (mongo_connector rm_connector : connector) : M unit :=
  logger_info "Starting IPZones..";;
  let ipzones_collection := MongoConnector.get_ipzone_connection mongo_connector in
  let remote_ipzones_collection :=
    RemoteMongoConnector.get_ipzone_connection rm_connector in
  ipzones ← find ipzones_collection ∅ (Some no_id);
  remove remote_ipzones_collection ∅;;
  for_each ipzones (λ zone, insert remote_ipzones_collection zone);;
  let ipv6_zones_collection :=
    MongoConnector.get_ipv6_zone_connection mongo_connector in
  let remote_ipv6_zones_collection :=
    RemoteMongoConnector.get_ipv6_zone_connection rm_connector in
  ipv6_zones ← find ipv6_zones_collection ∅ (Some no_id);
  remove remote_ipv6_zones_collection ∅;;
  for_each ipv6_zones (λ zone, insert remote_ipv6_zones_collection zone).

(** [update_config(logger, mongo_connector, rm_connector)] *)
Definition update_config (mongo_connector rm_connector : connector) : M unit :=
  logger_info "Starting Config..";;
  let config_collection := MongoConnector.get_config_connection mongo_connector in
  let remote_config_collection :=
    RemoteMongoConnector.get_config_connection rm_connector in
  configs ← find config_collection ∅ (Some no_id);
  remove remote_config_collection ∅;;
  for_each configs (λ config, insert remote_config_collection config).

(** [update_aws_cidrs(logger, mongo_connector, rm_connector)] *)
Definition update_aws_cidrs (mongo_connector rm_connector : connector) : M unit :=
  logger_info "Starting AWS CIDRs..";;
  let aws_ips_collection := MongoConnector.get_aws_ips_connection mongo_connector in
  let remote_aws_ips_collection :=
    RemoteMongoConnector.get_aws_ips_connection rm_connector in
  aws_ips ← find aws_ips_collection ∅ (Some no_id);
  remove remote_aws_ips_collection ∅;;
  for_each aws_ips (λ ip_addr, insert remote_aws_ips_collection ip_addr).

(** [update_azure_cidrs(logger, mongo_connector, rm_connector)] *)
Definition update_azure_cidrs (mongo_connector rm_connector : connector) : M unit :=
  logger_info "Starting Azure IPs..";;
  let azure_ips_collection :=
    MongoConnector.get_azure_ips_connection mongo_connector in
  let remote_azure_ips_collection :=
    RemoteMongoConnector.get_azure_ips_connection rm_connector in
  azure_ips ← find azure_ips_collection ∅ (Some no_id);
  remove remote_azure_ips_collection ∅;;
  for_each azure_ips (λ ip_addr, insert remote_azure_ips_collection ip_addr).

(** [update_akamai_cidrs(logger, mongo_connector, rm_connector)] *)
Definition update_akamai_cidrs (mongo_connector rm_connector : connector) : M unit :=
  logger_info "Starting Akamai IPs..";;
  let akamai_ips_collection :=
    MongoConnector.get_akamai_ips_connection mongo_connector in
  let remote_akamai_ips_collection :=
    RemoteMongoConnector.get_akamai_ips_connection rm_connector in
  akamai_ips ← find akamai_ips_collection ∅ (Some no_id);
  remove remote_akamai_ips_collection ∅;;
  for_each akamai_ips (λ ip_addr, insert remote_akamai_ips_collection ip_addr).

(** [update_gcp_cidrs(logger, mongo_connector, rm_connector)] *)
Definition update_gcp_cidrs (mongo_connector rm_connector : connector) : M unit :=
  logger_info "Starting GCP IPs..";;
  let gcp_ips_collection := MongoConnector.get_gcp_ips_connection mongo_connector in
  let remote_gcp_ips_collection :=
    RemoteMongoConnector.get_gcp_ips_connection rm_connector in
  gcp_ips ← find gcp_ips_collection ∅ (Some no_id);
  remove remote_gcp_ips_collection ∅;;
  for_each gcp_ips (λ ip_addr, insert remote_gcp_ips_collection ip_addr).

(** [update_all_dns(logger, mongo_connector, rm_connector, zone_list)] *)
Definition update_all_dns (mongo_connector rm_connector : connector)
    (zone_list : list value) : M unit :=
  logger_info "Starting All DNS..";;
  let all_dns_collection := MongoConnector.get_all_dns_connection mongo_connector in
  let remote_all_dns_collection :=
    RemoteMongoConnector.get_all_dns_connection rm_connector in
  for_each zone_list (λ zone,
    all_dns ← (cur ← find all_dns_collection {["zone" := zone]} (Some no_id);
               mret (batch_size 50 cur));
    remove remote_all_dns_collection {["zone" := zone]};;
    for_each all_dns (λ ip_addr, insert remote_all_dns_collection ip_addr)).

(** The namespace argparse builds from the five store_true flags of [main]. *)
Record args := Args {
  send_zones : bool;
  send_ip_zones : bool;
  send_third_party_zones : bool;
  send_config : bool;
  send_dns_records : bool
}.

Definition set_flag (flag : string) (a : args) : option args :=
  if bool_decide (flag = "--send_zones")
  then Some (Args true (send_ip_zones a) (send_third_party_zones a)
               (send_config a) (send_dns_records a))
  else if bool_decide (flag = "--send_ip_zones")
  then Some (Args (send_zones a) true (send_third_party_zones a)
               (send_config a) (send_dns_records a))
  else if bool_decide (flag = "--send_third_party_zones")
  then Some (Args (send_zones a) (send_ip_zones a) true
               (send_config a) (send_dns_records a))
  else if bool_decide (flag = "--send_config")
  then Some (Args (send_zones a) (send_ip_zones a) (send_third_party_zones a)
               true (send_dns_records a))
  else if bool_decide (flag = "--send_dns_records")
  then Some (Args (send_zones a) (send_ip_zones a) (send_third_party_zones a)
               (send_config a) true)
  else None.

(** The flags argparse reads off [sys.argv[1:]], if it accepts them: every
    word has to be one of the declared flags, written in full.  (argparse
    also takes an unambiguous prefix of a flag, and [-h], which prints the
    help and leaves with status 0; neither is modelled.) *)
Definition parse_flags (argv : list string) : option args :=
  foldl (λ acc flag, acc ≫= set_flag flag)
    (Some (Args false false false false false)) (tail argv).

(** [parser.parse_args()]: on a command line it does not accept, argparse
    leaves with status 2. *)
Definition parse_args (argv : list string) : M args :=
  match parse_flags argv with
  | Some a => mret a
  | None => exit 2
  end.

(** [main()], on the command line [argv] (= [sys.argv]). *)
Definition main (argv : list string) : M unit :=
  now_ ← gets now;
  print ("Starting: " +:+ now_);;
  logger_info "Starting...";;
  args ← parse_args argv;
  let send_all := bool_decide (length argv = 1%nat) in
  mongo_connector ← MongoConnector.__init__;
  remote_mongo_connector ← RemoteMongoConnector.__init__ "" false;
  JobsManager.record_job_start "send_remote_server";;
  zone_list ← (if send_all || send_zones args
               then update_zones mongo_connector remote_mongo_connector true
               else update_zones mongo_connector remote_mongo_connector false);
  (if send_all || send_ip_zones args
   then update_ip_zones mongo_connector remote_mongo_connector
   else mret tt);;
  (if send_all || send_third_party_zones args
   then update_aws_cidrs mongo_connector remote_mongo_connector;;
        update_azure_cidrs mongo_connector remote_mongo_connector;;
        update_akamai_cidrs mongo_connector remote_mongo_connector;;
        update_gcp_cidrs mongo_connector remote_mongo_connector
   else mret tt);;
  (if send_all || send_config args
   then update_config mongo_connector remote_mongo_connector
   else mret tt);;
  (if send_all || send_dns_records args
   then update_all_dns mongo_connector remote_mongo_connector zone_list
   else mret tt);;
  JobsManager.record_job_complete "send_remote_server";;
  now_ ← gets now;
  print ("Complete: " +:+ now_);;
  logger_info "Complete.".

(** ** Observing a run *)

(** The events a run added to the trace. *)
Definition new_events (w w' : world) : list event :=
  drop (length (trace w)) (trace w').

Definition is_attempt (e : event) : bool :=
  match e with EvStore _ _ => true | _ => false end.

Definition is_sleep (e : event) : bool :=
  match e with EvSleep _ => true | _ => false end.

Definition attempts (evs : list event) : nat := length (filter is_attempt evs).
Definition sleeps (evs : list event) : nat := length (filter is_sleep evs).

(** The collection an event operates on, if it is a store attempt. *)
Definition target (e : event) : option (side * string) :=
  match e with
  | EvStore c _ => Some (db_side (c_db c), c_name c)
  | _ => None
  end.

(** ** The four read operations of the executor, seen as one

    A request names one of the four [perform_*] methods with its arguments;
    an answer wraps what the method returned. *)

Inductive request :=
  | ReqFind (q : query) (filter : option projection)
  | ReqFindOne (q : query) (filter : option projection)
  | ReqCount (q : query)
  | ReqDistinct (field : string) (q : option query).

Inductive answer :=
  | AnsCursor (cur : cursor)
  | AnsDocument (d : option document)
  | AnsCount (n : Z)
  | AnsValues (vs : list value).

Definition perform (self : connector) (c : collection) (req : request) : M answer :=
  match req with
  | ReqFind q filter =>
      r ← RemoteMongoConnector.perform_find self c q filter; mret (AnsCursor r)
  | ReqFindOne q filter =>
      r ← RemoteMongoConnector.perform_find_one self c q filter;
      mret (AnsDocument r)
  | ReqCount q =>
      r ← RemoteMongoConnector.perform_count self c q; mret (AnsCount r)
  | ReqDistinct field q =>
      r ← RemoteMongoConnector.perform_distinct self c field q;
      mret (AnsValues r)
  end.

(** The store operation a request attempts, and the answer the collection
    gives to it when the attempt goes through. *)
Definition op_of (req : request) : op :=
  match req with
  | ReqFind q filter => OpFind q filter
  | ReqFindOne q filter => OpFindOne q filter
  | ReqCount q => OpFind q None
  | ReqDistinct field q => OpDistinct field q
  end.

Definition answer_of (req : request) (docs : list document) : answer :=
  match req with
  | ReqFind q filter => AnsCursor (coll_find q filter docs)
  | ReqFindOne q filter => AnsDocument (coll_find_one q filter docs)
  | ReqCount q => AnsCount (count (coll_find q None docs))
  | ReqDistinct field q => AnsValues (coll_distinct field q docs)
  end.

Definition warning : event :=
  EvPrint "Warning: Failed to connect to the database. Retrying.".

Definition giving_up : event :=
  EvPrint "ERROR: Exceeded the max number of connection attempts to MongoDB!".

(** What one failed attempt followed by a retry leaves in the trace. *)
Definition failed_try (c : collection) (o : op) : list event :=
  [EvStore c o; warning; EvSleep 5].

(** The world after [k] attempts of [o] on [c] that were all retried. *)
Fixpoint after_failures (c : collection) (o : op) (k : nat) (w : world) : world :=
  match k with
  | O => w
  | S k' =>
      after_failures c o k'
        (record (EvSleep 5)
           (record warning
              (set_faults (db_side (c_db c))
                 (tail (faults (db_side (c_db c)) w))
                 (record (EvStore c o) w))))
  end.

(** ** Parts of the script, named

    [update_all_dns] is its log line followed by one [mirror_zone] per zone
    name, and [main] is its set-up followed by [mirror]; both facts hold by
    computation. *)

(** The body of the loop of [update_all_dns]: the sub-step of one zone. *)
Definition mirror_zone (mongo_connector rm_connector : connector) (zone : value)
    : M unit :=
  let all_dns_collection := MongoConnector.get_all_dns_connection mongo_connector in
  let remote_all_dns_collection :=
    RemoteMongoConnector.get_all_dns_connection rm_connector in
  all_dns ← (cur ← find all_dns_collection {["zone" := zone]} (Some no_id);
             mret (batch_size 50 cur));
  remove remote_all_dns_collection {["zone" := zone]};;
  for_each all_dns (λ ip_addr, insert remote_all_dns_collection ip_addr).

(** What [update_zones] does with the documents it has read. *)
Definition zones_loop (mongo_connector rm_connector : connector)
    (update_zone_list : bool) (zones : cursor) : M (list value) :=
  let remote_zones_collection :=
    RemoteMongoConnector.get_zone_connection rm_connector in
  let zone_list : list value := [] in
  if update_zone_list then
    remove remote_zones_collection ∅;;
    for_acc zones zone_list (λ zone zone_list,
      insert remote_zones_collection zone;;
      z ← getitem zone "zone";
      mret (zone_list ++ [z]))
  else
    for_acc zones zone_list (λ zone zone_list,
      z ← getitem zone "zone";
      mret (zone_list ++ [z])).

(** The steps of [main] that follow [update_zones], to the end of the run. *)
Definition after_zones (send_all : bool) (args : args)
    (mongo_connector remote_mongo_connector : connector)
    (zone_list : list value) : M unit :=
  (if send_all || send_ip_zones args
   then update_ip_zones mongo_connector remote_mongo_connector
   else mret tt);;
  (if send_all || send_third_party_zones args
   then update_aws_cidrs mongo_connector remote_mongo_connector;;
        update_azure_cidrs mongo_connector remote_mongo_connector;;
        update_akamai_cidrs mongo_connector remote_mongo_connector;;
        update_gcp_cidrs mongo_connector remote_mongo_connector
   else mret tt);;
  (if send_all || send_config args
   then update_config mongo_connector remote_mongo_connector
   else mret tt);;
  (if send_all || send_dns_records args
   then update_all_dns mongo_connector remote_mongo_connector zone_list
   else mret tt);;
  JobsManager.record_job_complete "send_remote_server";;
  now_ ← gets now;
  print ("Complete: " +:+ now_);;
  logger_info "Complete.".

(** The steps of [main], from the first one to the end of the run. *)
Definition mirror (send_all : bool) (args : args)
    (mongo_connector remote_mongo_connector : connector) : M unit :=
  zone_list ← (if send_all || send_zones args
               then update_zones mongo_connector remote_mongo_connector true
               else update_zones mongo_connector remote_mongo_connector false);
  after_zones send_all args mongo_connector remote_mongo_connector zone_list.

(** What comes before the steps in [main]. *)
Definition set_up (argv : list string) : M (args * connector * connector) :=
  now_ ← gets now;
  print ("Starting: " +:+ now_);;
  logger_info "Starting...";;
  args ← parse_args argv;
  mongo_connector ← MongoConnector.__init__;
  remote_mongo_connector ← RemoteMongoConnector.__init__ "" false;
  JobsManager.record_job_start "send_remote_server";;
  mret (args, mongo_connector, remote_mongo_connector).

(** The collections replaced as a whole, each with the step that does it. *)
Inductive replaced :=
  | IpZones | Ipv6Zones | ConfigEntries
  | AwsIps | AzureIps | AkamaiIps | GcpIps.

Definition step_of (r : replaced) : connector → connector → M unit :=
  match r with
  | IpZones | Ipv6Zones => update_ip_zones
  | ConfigEntries => update_config
  | AwsIps => update_aws_cidrs
  | AzureIps => update_azure_cidrs
  | AkamaiIps => update_akamai_cidrs
  | GcpIps => update_gcp_cidrs
  end.

Definition name_of (r : replaced) : string :=
  match r with
  | IpZones => "ip_zones"
  | Ipv6Zones => "ipv6_zones"
  | ConfigEntries => "config"
  | AwsIps => "aws_ips"
  | AzureIps => "azure_ips"
  | AkamaiIps => "akamai_ips"
  | GcpIps => "gcp_ips"
  end.

(** How a run ended, whatever it returned. *)
Inductive ending := Normal | Raised (e : exn) | Exited (code : Z).

Definition ending_of {A} (r : outcome A) : ending :=
  match r with
  | Ok _ => Normal
  | Raise e => Raised e
  | Exit code => Exited code
  end.

(** A property of runs relates the world before, the ending and the world
    after; a program obeys it when all its runs have it. *)
Definition obeys (T : world → ending → world → Prop) {A} (m : M A) : Prop :=
  ∀ w, T w (ending_of (fst (m w))) (snd (m w)).

(** The properties that compose along [;;]. *)
Class Sequential (T : world → ending → world → Prop) : Prop := {
  seq_skip : ∀ w, T w Normal w;
  seq_then : ∀ w w1 w' k, T w Normal w1 → T w1 k w' → T w k w'
}.

(** The run added events that all satisfy [P], and nothing else is said. *)
Definition grows (P : event → Prop) (w : world) (k : ending) (w' : world) : Prop :=
  ∃ evs, trace w' = trace w ++ evs ∧ Forall P evs.

(** The run left the observation [f] of the world as it was. *)
Definition keeps {X} (f : world → X) (w : world) (k : ending) (w' : world) : Prop :=
  f w' = f w.

(** Nothing is retried: on each server, the entries of the schedule the run
    took let every attempt through, unless the last of them made an attempt
    raise, and then the run ended with that very exception. *)
Definition fails_fast (w : world) (k : ending) (w' : world) : Prop :=
  ∀ s, ∃ used, faults s w = used ++ faults s w'
    ∧ (Forall (λ x, x = None) used
       ∨ ∃ e used0, used = used0 ++ [Some e] ∧ Forall (λ x, x = None) used0
                    ∧ k = Raised e).

(** The zone names read off the documents of the Zone collection. *)
Definition zone_names (docs : list document) : list value :=
  omap (λ d : document, d !! "zone") docs.

(** The queries of the deletions among some events. *)
Definition removals (evs : list event) : list query :=
  omap (λ e, match e with EvStore _ (OpRemove q) => Some q | _ => None end) evs.

(** The events on the collection [name] of server [s]. *)
Definition events_on (s : side) (name : string) (evs : list event) : list event :=
  filter (λ e, target e = Some (s, name)) evs.

(** Where the documents of a handle live: the server and the collection name. *)
Definition place (c : collection) : side * string := (db_side (c_db c), c_name c).

(** The run touched the documents of no collection but [c]. *)
Definition frame (c : collection) (w w' : world) : Prop :=
  ∀ s name, (s, name) ≠ place c → store s w' !! name = store s w !! name.

(** The insertions of [docs] into [c], as events. *)
Definition insertions (c : collection) (docs : list document) : list event :=
  (λ d, EvStore c (OpInsert d)) <$> docs.

(** The documents of the zone [z]: those whose field [zone] is [z]. *)
Definition in_zone (z : value) (d : document) : Prop := d !! "zone" = Some z.

#[global] Instance in_zone_dec z d : Decision (in_zone z d).
Proof. unfold in_zone. apply _. Defined.

(** The sub-steps a run of the loop of [update_all_dns] completes from the
    world [w], in their order: the zone, the world before, the world after. *)
Fixpoint sub_steps (mongo_connector rm_connector : connector)
    (zone_list : list value) (w : world) : list (value * world * world) :=
  match zone_list with
  | [] => []
  | z :: rest =>
      match mirror_zone mongo_connector rm_connector z w with
      | (Ok _, w1) => (z, w, w1) :: sub_steps mongo_connector rm_connector rest w1
      | _ => []
      end
  end.

(** The full-replace steps of [main], as selected. *)
Definition replace_steps (send_all : bool) (args : args)
    (mongo_connector remote_mongo_connector : connector) : M unit :=
  (if send_all || send_ip_zones args
   then update_ip_zones mongo_connector remote_mongo_connector
   else mret tt);;
  (if send_all || send_third_party_zones args
   then update_aws_cidrs mongo_connector remote_mongo_connector;;
        update_azure_cidrs mongo_connector remote_mongo_connector;;
        update_akamai_cidrs mongo_connector remote_mongo_connector;;
        update_gcp_cidrs mongo_connector remote_mongo_connector
   else mret tt);;
  (if send_all || send_config args
   then update_config mongo_connector remote_mongo_connector
   else mret tt).

(** The end of [main], after its last step. *)
Definition wrap_up : M unit :=
  JobsManager.record_job_complete "send_remote_server";;
  now_ ← gets now;
  print ("Complete: " +:+ now_);;
  logger_info "Complete.".

(** The zone deletions on the destination DNS collection so far. *)
Definition dns_removals (w : world) : list query :=
  removals (events_on Remote "all_dns" (trace w)).

(** The collections a property [P] of events lets the steps read through
    the connector [mc], respectively write through the connector [rc]. *)
Definition lets_read (P : event → Prop) (mc : connector) (name : string) : Prop :=
  ∀ q p, P (EvStore (Collection (m_connection mc) name) (OpFind q p)).

Definition lets_write (P : event → Prop) (rc : connector) (name : string) : Prop :=
  ∀ o, P (EvStore (Collection (m_connection rc) name) o).

(** ** Sample data *)

Definition example_com : document :=
  {[ "_id" := VInt 1; "zone" := VStr "example.com" ]}.

Definition example_org : document :=
  {[ "_id" := VInt 2; "zone" := VStr "example.org" ]}.

Definition stale_com : document := {[ "zone" := VStr "stale.com" ]}.

Definition a_record (id : Z) (zone ip : string) : document :=
  {[ "_id" := VInt id; "zone" := VStr zone; "ip" := VStr ip ]}.

Definition sample_config : config :=
  {[ "RemoteMongoDB" :=
       {[ "mongo.protocol" := inl "mongodb://";
          "mongo.host" := inl "remote.example";
          "mongo.path" := inl "/marinus" ]} ]}.

Definition sample_primary : db :=
  {[ "zones" := [example_com; example_org];
     "ip_zones" := [ {[ "_id" := VInt 3; "zone" := VStr "10.0.0.0/8" ]} ];
     "config" := [ {[ "_id" := VInt 4; "key" := VStr "value" ]} ];
     "aws_ips" := [ {[ "_id" := VInt 5; "ip_prefix" := VStr "3.0.0.0/15" ]} ];
     "all_dns" := [ a_record 6 "example.com" "192.0.2.1";
                    a_record 7 "example.org" "192.0.2.2";
                    a_record 8 "example.com" "192.0.2.3" ] ]}.

Definition sample_remote : db :=
  {[ "zones" := [stale_com];
     "config" := [ {[ "key" := VStr "old" ]} ];
     "all_dns" := [ {[ "zone" := VStr "example.com"; "ip" := VStr "198.51.100.1" ]};
                    {[ "zone" := VStr "stale.com"; "ip" := VStr "198.51.100.2" ]} ] ]}.

(** A world whose primary server fails as [pf] says and whose remote server
    never fails. *)
Definition sample_world (pf : list (option exn)) : world :=
  World sample_primary sample_remote pf []
    {[ "connector.config" := sample_config ]} "2018-06-01 00:00:00" [].

Definition primary_connector : connector :=
  Connector "connector.config" (Database Primary "") false.

Definition remote_connector : connector :=
  Connector "connector.config" (Database Remote "marinus") false.

Definition primary_zones : collection :=
  MongoConnector.get_zone_connection primary_connector.

(** The same world with no readable configuration file. *)
Definition without_config (w : world) : world :=
  World (primary w) (remote w) (primary_faults w) (remote_faults w) ∅
    (now w) (trace w).

(** A configuration file that has no section for the remote store. *)
Definition other_sections : config :=
  {[ "MongoDB" := {[ "mongo.host" := inl "primary.example" ]} ]}.

(** A configuration file whose section of the remote store holds a boolean
    setting that does not read as a boolean. *)
Definition malformed_boolean : config :=
  {[ "RemoteMongoDB" := {[ "mongo.host" := inl "remote.example";
                           "mongo.ssl" := inl "maybe" ]} ]}.

(** The boolean a text reads as for [config.getboolean], if any: the table
    BOOLEAN_STATES of configparser, looked up without regard to case. *)
Definition as_boolean (s : string) : option bool :=
  if bool_decide (lower s ∈ ["1"; "yes"; "true"; "on"]) then Some true
  else if bool_decide (lower s ∈ ["0"; "no"; "false"; "off"]) then Some false
  else None.

Definition is_connection (e : event) : bool :=
  match e with EvMongoClient _ _ => true | _ => false end.

(** ** Further observations *)

(** The text the constructor of the remote connector ends up with for a
    setting of its section: the value in the file, or the empty string when
    the lookup fails. *)
Definition setting (cfg : config) (key : string) : string :=
  match config_get cfg "RemoteMongoDB" key with
  | inr s => s
  | inl _ => ""
  end.

(** The world after the lines [msgs] have been printed. *)
Definition prints (msgs : list string) (w : world) : world :=
  foldl (λ w msg, record (EvPrint msg) w) w msgs.

(** What the collection [name] of the server [s] holds. *)
Definition held (s : side) (name : string) (w : world) : list document :=
  default [] (store s w !! name).

(** A zone document that carries the name of its zone. *)
Definition named (d : document) : Prop := is_Some (d !! "zone").

(** Neither server has a failure in store. *)
Definition quiet (w : world) : Prop :=
  ∀ s, Forall (λ x, x = None) (faults s w).

(** From a world where no server fails, the run ends normally and leaves
    such a world. *)
Definition completes (w : world) (k : ending) (w' : world) : Prop :=
  quiet w → k = Normal ∧ quiet w'.

(** The collections a full-replace step writes. *)
Definition written (r : replaced) : list string :=
  match r with
  | IpZones | Ipv6Zones => ["ip_zones"; "ipv6_zones"]
  | _ => [name_of r]
  end.

(** Whether [main] runs the step of the collection [r]. *)
Definition selects (send_all : bool) (a : args) (r : replaced) : bool :=
  send_all || match r with
              | IpZones | Ipv6Zones => send_ip_zones a
              | ConfigEntries => send_config a
              | AwsIps | AzureIps | AkamaiIps | GcpIps =>
                  send_third_party_zones a
              end.

(** What a part of a run did to the collection [name] of the remote store:
    it made it the copy of the primary one, or it left it as it was; the
    primary store is as it was in both cases. *)
Definition effect (mirrored : bool) (name : string) (w w' : world) : Prop :=
  primary w' = primary w
  ∧ if mirrored
    then held Remote name w' = delete "_id" <$> held Primary name w
    else remote w' !! name = remote w !! name.

(** A zone document that lacks the name of its zone, and a primary store
    that holds it between two well-formed ones. *)
Definition unnamed_zone : document :=
  {[ "_id" := VInt 9; "status" := VStr "unconfirmed" ]}.

Definition world_with_unnamed_zone : world :=
  World {[ "zones" := [example_com; unnamed_zone; example_org] ]} sample_remote
    [] [] {[ "connector.config" := sample_config ]} "2018-06-01 00:00:00" [].

(** The mirror is one way: it asks the primary store for documents, with
    [find], and it changes the remote store, with [remove] and [insert]. *)
Definition one_way (e : event) : Prop :=
  match e with
  | EvStore c (OpFind _ _) => db_side (c_db c) = Primary
  | EvStore c (OpRemove _) | EvStore c (OpInsert _) => db_side (c_db c) = Remote
  | EvStore _ _ => False
  | EvSleep _ => False
  | _ => True
  end.

(** The collections the script names. *)
Definition mirrored_collections : list string :=
  ["zones"; "ip_zones"; "ipv6_zones"; "aws_ips"; "azure_ips"; "akamai_ips";
   "gcp_ips"; "config"; "all_dns"].

Definition is_job (e : event) : bool :=
  match e with EvJob _ => true | _ => false end.

(** The steps of [main], from the first one to the last one. *)
Definition steps (send_all : bool) (args : args)
    (mongo_connector remote_mongo_connector : connector) : M unit :=
  zone_list ← update_zones mongo_connector remote_mongo_connector
                 (send_all || send_zones args);
  replace_steps send_all args mongo_connector remote_mongo_connector;;
  (if send_all || send_dns_records args
   then update_all_dns mongo_connector remote_mongo_connector zone_list
   else mret tt).

(** * Properties *)

(** ** The world after the elementary steps *)

Lemma trace_record e w : trace (record e w) = trace w ++ [e].
Proof. reflexivity. Qed.

Lemma trace_set_faults s fs w : trace (set_faults s fs w) = trace w.
Proof. by destruct s. Qed.

Lemma trace_set_docs c docs w : trace (set_docs c docs w) = trace w.
Proof. unfold set_docs. by destruct (db_side (c_db c)). Qed.

Lemma store_record s e w : store s (record e w) = store s w.
Proof. by destruct s. Qed.

Lemma store_set_faults s s' fs w : store s (set_faults s' fs w) = store s w.
Proof. by destruct s, s'. Qed.

Lemma faults_record s e w : faults s (record e w) = faults s w.
Proof. by destruct s. Qed.

Lemma faults_set_faults s s' fs w :
  faults s (set_faults s' fs w) = if decide (s = s') then fs else faults s w.
Proof. by destruct s, s'. Qed.

Lemma faults_set_docs s c docs w : faults s (set_docs c docs w) = faults s w.
Proof. unfold set_docs. by destruct s, (db_side (c_db c)). Qed.

Lemma store_set_docs s c docs w :
  store s (set_docs c docs w) =
  if decide (s = db_side (c_db c)) then <[c_name c := docs]> (store s w)
  else store s w.
Proof. unfold set_docs. by destruct s, (db_side (c_db c)). Qed.

Lemma docs_of_record c e w : docs_of c (record e w) = docs_of c w.
Proof. unfold docs_of. by rewrite store_record. Qed.

Lemma docs_of_set_faults c s fs w : docs_of c (set_faults s fs w) = docs_of c w.
Proof. unfold docs_of. by rewrite store_set_faults. Qed.

Lemma new_events_app w w' evs : trace w' = trace w ++ evs → new_events w w' = evs.
Proof. unfold new_events. intros ->. by rewrite drop_app_length. Qed.

(** ** One attempt *)

Lemma attempt_fails c o w e rest :
  faults (db_side (c_db c)) w = Some e :: rest →
  attempt c o w =
  (Raise e, set_faults (db_side (c_db c)) rest (record (EvStore c o) w)).
Proof. intros H. unfold attempt. by rewrite faults_record, H. Qed.

Lemma attempt_passes c o w :
  (∀ e, head (faults (db_side (c_db c)) w) ≠ Some (Some e)) →
  attempt c o w =
  (Ok tt, set_faults (db_side (c_db c)) (tail (faults (db_side (c_db c)) w))
            (record (EvStore c o) w)).
Proof.
  intros H. unfold attempt. rewrite faults_record.
  destruct (faults (db_side (c_db c)) w) as [|[e|] rest] eqn:E; simpl.
  - f_equal. destruct w, (db_side (c_db c)); simpl in *; by subst.
  - by destruct (H e).
  - done.
Qed.

(** ** The retry loop *)

Section retry_loop.
Context {R : Type} (body : M R) (c : collection) (o : op) (val : world → R).

Let s := db_side (c_db c).

(** The body of each of the four loops is one attempt of a store operation
    followed by reading off the answer. *)
Hypothesis body_attempt : ∀ w, body w = (attempt c o;; gets val) w.

Hypothesis val_docs : ∀ w w',
  primary w' = primary w → remote w' = remote w → val w' = val w.

Lemma loop_retry n w rest :
  faults s w = Some AutoReconnect :: rest → (n < 5)%Z →
  while_not_success body n w =
  while_not_success body (n + 1) (after_failures c o 1 w).
Proof.
  intros Hf Hn. rewrite while_not_success_equation_1, body_attempt.
  unfold mbind, M_bind, bind. rewrite (attempt_fails _ _ _ _ _ Hf). simpl.
  destruct (Z_lt_dec n 5); [|lia]. simpl. fold s. by rewrite Hf.
Qed.

Lemma loop_give_up n w rest :
  faults s w = Some AutoReconnect :: rest → ¬ (n < 5)%Z →
  while_not_success body n w =
  (Exit 1, record giving_up (set_faults s rest (record (EvStore c o) w))).
Proof.
  intros Hf Hn. rewrite while_not_success_equation_1, body_attempt.
  unfold mbind, M_bind, bind. rewrite (attempt_fails _ _ _ _ _ Hf). simpl.
  by destruct (Z_lt_dec n 5).
Qed.

Lemma loop_raise n w e rest :
  faults s w = Some e :: rest → e ≠ AutoReconnect →
  while_not_success body n w =
  (Raise e, set_faults s rest (record (EvStore c o) w)).
Proof.
  intros Hf He. rewrite while_not_success_equation_1, body_attempt.
  unfold mbind, M_bind, bind. rewrite (attempt_fails _ _ _ _ _ Hf). simpl.
  by destruct e.
Qed.

Lemma loop_return n w :
  (∀ e, head (faults s w) ≠ Some (Some e)) →
  while_not_success body n w =
  (Ok (val w), set_faults s (tail (faults s w)) (record (EvStore c o) w)).
Proof.
  intros Hf. rewrite while_not_success_equation_1, body_attempt.
  unfold mbind, M_bind, bind. rewrite attempt_passes by apply Hf.
  simpl. do 2 f_equal. apply val_docs.
  - pose proof (store_set_faults Primary s) as H. simpl in H. rewrite H.
    apply (store_record Primary).
  - pose proof (store_set_faults Remote s) as H. simpl in H. rewrite H.
    apply (store_record Remote).
Qed.

Lemma faults_after_failures k w :
  faults s (after_failures c o k w) = drop k (faults s w).
Proof.
  revert w. induction k as [|k IH]; intros w; simpl; [done|].
  rewrite IH, !faults_record, faults_set_faults, decide_True by done.
  unfold s. destruct (faults _ w); simpl; [by rewrite drop_nil|done].
Qed.

Lemma trace_after_failures k w :
  trace (after_failures c o k w) =
  trace w ++ mjoin (replicate k (failed_try c o)).
Proof.
  revert w. induction k as [|k IH]; intros w; simpl.
  - by rewrite app_nil_r.
  - rewrite IH, !trace_record, trace_set_faults, trace_record.
    by rewrite <- !app_assoc.
Qed.

Lemma store_after_failures s' k w :
  store s' (after_failures c o k w) = store s' w.
Proof.
  revert w. induction k as [|k IH]; intros w; simpl; [done|].
  by rewrite IH, !store_record, store_set_faults, store_record.
Qed.

Lemma val_after_failures k w : val (after_failures c o k w) = val w.
Proof.
  apply val_docs.
  - apply (store_after_failures Primary).
  - apply (store_after_failures Remote).
Qed.

(** [k] transient failures in a row are all retried as long as the counter
    stays within its bound. *)
Lemma loop_retries k : ∀ n w rest,
  faults s w = replicate k (Some AutoReconnect) ++ rest →
  (n + Z.of_nat k <= 5)%Z →
  while_not_success body n w =
  while_not_success body (n + Z.of_nat k) (after_failures c o k w).
Proof.
  induction k as [|k IH]; intros n w rest Hf Hn.
  - simpl. by rewrite Z.add_0_r.
  - simpl in Hf. rewrite (loop_retry n w _ Hf) by lia.
    rewrite (IH (n + 1)%Z _ rest).
    + f_equal. lia.
    + pose proof (faults_after_failures 1 w) as H. fold s in H.
      rewrite H, Hf. done.
    + lia.
Qed.

(** The loop as a whole, by the number [k] of transient failures that open
    the schedule of the server. *)
Lemma loop_succeeds k w rest :
  faults s w = replicate k (Some AutoReconnect) ++ rest →
  (k <= 5)%nat → (∀ e, head rest ≠ Some (Some e)) →
  while_not_success body 0 w =
  (Ok (val w),
   set_faults s (tail rest) (record (EvStore c o) (after_failures c o k w))).
Proof.
  intros Hf Hk Hrest. rewrite (loop_retries k 0 w rest Hf) by lia.
  rewrite loop_return; rewrite faults_after_failures, Hf, drop_app_length';
    try done; try by rewrite length_replicate.
  by rewrite val_after_failures.
Qed.

Lemma loop_propagates k w e rest :
  faults s w = replicate k (Some AutoReconnect) ++ Some e :: rest →
  (k <= 5)%nat → e ≠ AutoReconnect →
  while_not_success body 0 w =
  (Raise e,
   set_faults s rest (record (EvStore c o) (after_failures c o k w))).
Proof.
  intros Hf Hk He. rewrite (loop_retries k 0 w _ Hf) by lia.
  apply loop_raise; [|done].
  rewrite faults_after_failures, Hf, drop_app_length'; [done|].
  by rewrite length_replicate.
Qed.

Lemma loop_exhausted w rest :
  faults s w = replicate 6 (Some AutoReconnect) ++ rest →
  while_not_success body 0 w =
  (Exit 1,
   record giving_up
     (set_faults s rest (record (EvStore c o) (after_failures c o 5 w)))).
Proof.
  intros Hf. rewrite (loop_retries 5 0 w (Some AutoReconnect :: rest)) by done.
  apply loop_give_up; [|lia]. by rewrite faults_after_failures, Hf.
Qed.

End retry_loop.

(** ** The four read operations of the executor *)

Lemma docs_of_stores c w w' :
  primary w' = primary w → remote w' = remote w → docs_of c w' = docs_of c w.
Proof. unfold docs_of, store. intros -> ->. done. Qed.

(** Renaming the result of the body renames the result of the loop. *)
Lemma while_not_success_map {R R'} (f : R → R') (body : M R) (body' : M R') :
  (∀ w, body' w = (x ← body; mret (f x)) w) →
  ∀ n w, while_not_success body' n w =
         (x ← (while_not_success body n : M R); (mret (f x) : M R')) w.
Proof.
  intros Hbody n. remember (Z.to_nat (5 - n)) as m eqn:Hm. revert n Hm.
  induction m as [m IH] using lt_wf_ind. intros n Hm w.
  unfold mbind, M_bind, bind in *.
  rewrite (while_not_success_equation_1 _ body'), Hbody.
  rewrite (while_not_success_equation_1 _ body).
  destruct (body w) as [[a|e|code] w1]; simpl; try done.
  destruct e; simpl; try done.
  destruct (Z_lt_dec n 5); simpl; [|done].
  apply (IH (Z.to_nat (5 - (n + 1)))); lia.
Qed.

(** Every [perform_*] method is the loop around one attempt of its store
    operation. *)
Lemma perform_loop self c req w :
  perform self c req w =
  while_not_success
    (attempt c (op_of req);; gets (λ w, answer_of req (docs_of c w))) 0 w.
Proof.
  symmetry.
  destruct req as [q [f|]|q [f|]|q|field [q|]]; simpl;
    apply while_not_success_map; intros w0;
    unfold find, find_one, distinct, gets, mbind, M_bind, bind, mret, M_ret, ret;
    by destruct (attempt c _ w0) as [[[]| |] ?].
Qed.

Section perform.
Context (self : connector) (c : collection) (req : request).

Let s := db_side (c_db c).
Let o := op_of req.

Lemma answer_of_stores w w' :
  primary w' = primary w → remote w' = remote w →
  answer_of req (docs_of c w') = answer_of req (docs_of c w).
Proof. intros Hp Hr. by rewrite (docs_of_stores c w w'). Qed.

Lemma perform_succeeds k w rest :
  faults s w = replicate k (Some AutoReconnect) ++ rest →
  (k <= 5)%nat → (∀ e, head rest ≠ Some (Some e)) →
  perform self c req w =
  (Ok (answer_of req (docs_of c w)),
   set_faults s (tail rest) (record (EvStore c o) (after_failures c o k w))).
Proof.
  intros Hf Hk Hrest. rewrite perform_loop.
  by apply (loop_succeeds _ c o (λ w, answer_of req (docs_of c w))
              (λ _, eq_refl) answer_of_stores k w rest).
Qed.

Lemma perform_propagates k w e rest :
  faults s w = replicate k (Some AutoReconnect) ++ Some e :: rest →
  (k <= 5)%nat → e ≠ AutoReconnect →
  perform self c req w =
  (Raise e,
   set_faults s rest (record (EvStore c o) (after_failures c o k w))).
Proof.
  intros Hf Hk He. rewrite perform_loop.
  by apply (loop_propagates _ c o (λ w, answer_of req (docs_of c w))
              (λ _, eq_refl) k w e rest).
Qed.

Lemma perform_exhausted w rest :
  faults s w = replicate 6 (Some AutoReconnect) ++ rest →
  perform self c req w =
  (Exit 1,
   record giving_up
     (set_faults s rest (record (EvStore c o) (after_failures c o 5 w)))).
Proof.
  intros Hf. rewrite perform_loop.
  by apply (loop_exhausted _ c o (λ w, answer_of req (docs_of c w))
              (λ _, eq_refl) w rest).
Qed.

End perform.

(** ** Counting attempts and delays *)

Lemma attempts_app evs1 evs2 : attempts (evs1 ++ evs2) = (attempts evs1 + attempts evs2)%nat.
Proof. unfold attempts. by rewrite filter_app, length_app. Qed.

Lemma sleeps_app evs1 evs2 : sleeps (evs1 ++ evs2) = (sleeps evs1 + sleeps evs2)%nat.
Proof. unfold sleeps. by rewrite filter_app, length_app. Qed.

Lemma attempts_failed_tries c o k :
  attempts (mjoin (replicate k (failed_try c o))) = k.
Proof.
  induction k as [|k IH]; [done|].
  change (attempts (failed_try c o ++ mjoin (replicate k (failed_try c o))) = S k).
  by rewrite attempts_app, IH.
Qed.

Lemma sleeps_failed_tries c o k :
  sleeps (mjoin (replicate k (failed_try c o))) = k.
Proof.
  induction k as [|k IH]; [done|].
  change (sleeps (failed_try c o ++ mjoin (replicate k (failed_try c o))) = S k).
  by rewrite sleeps_app, IH.
Qed.

Lemma leading_failures (l : list (option exn)) :
  ∃ k rest, l = replicate k (Some AutoReconnect) ++ rest
            ∧ head rest ≠ Some (Some AutoReconnect).
Proof.
  induction l as [|x l (k & rest & -> & Hrest)].
  - by exists 0%nat, [].
  - destruct (decide (x = Some AutoReconnect)) as [->|Hx].
    + by exists (S k), rest.
    + exists 0%nat, (x :: replicate k (Some AutoReconnect) ++ rest).
      split; [done|]. simpl. congruence.
Qed.

Section perform_events.
Context (self : connector) (c : collection) (req : request).

Let s := db_side (c_db c).
Let o := op_of req.

Lemma events_finished k w fs :
  new_events w (set_faults s fs (record (EvStore c o) (after_failures c o k w))) =
  mjoin (replicate k (failed_try c o)) ++ [EvStore c o].
Proof.
  apply new_events_app.
  by rewrite trace_set_faults, trace_record, trace_after_failures, <- app_assoc.
Qed.

Lemma events_exhausted w fs :
  new_events w
    (record giving_up
       (set_faults s fs (record (EvStore c o) (after_failures c o 5 w)))) =
  mjoin (replicate 5 (failed_try c o)) ++ [EvStore c o; giving_up].
Proof.
  apply new_events_app.
  rewrite trace_record, trace_set_faults, trace_record, trace_after_failures.
  by rewrite <- !app_assoc.
Qed.

(** Whatever the schedule of the server, one call makes at most six
    attempts and sleeps at most five times. *)
Lemma perform_bounded w :
  (attempts (new_events w (snd (perform self c req w))) <= 6)%nat
  ∧ (sleeps (new_events w (snd (perform self c req w))) <= 5)%nat.
Proof.
  destruct (leading_failures (faults s w)) as (k & rest & Hf & Hrest).
  destruct (decide (k <= 5)%nat) as [Hk|Hk].
  - destruct rest as [|[e|] rest'].
    + rewrite (perform_succeeds self c req k w [] Hf Hk) by done. simpl.
      rewrite events_finished.
      rewrite attempts_app, sleeps_app, attempts_failed_tries, sleeps_failed_tries.
      simpl. unfold attempts, sleeps. simpl. lia.
    + rewrite (perform_propagates self c req k w e rest' Hf Hk)
        by (simpl in Hrest; congruence).
      simpl. rewrite events_finished.
      rewrite attempts_app, sleeps_app, attempts_failed_tries, sleeps_failed_tries.
      simpl. unfold attempts, sleeps. simpl. lia.
    + rewrite (perform_succeeds self c req k w (None :: rest') Hf Hk) by done.
      simpl. rewrite events_finished.
      rewrite attempts_app, sleeps_app, attempts_failed_tries, sleeps_failed_tries.
      simpl. unfold attempts, sleeps. simpl. lia.
  - assert (faults s w = replicate 6 (Some AutoReconnect)
                         ++ (replicate (k - 6) (Some AutoReconnect) ++ rest)) as Hf6.
    { rewrite Hf, app_assoc, <- replicate_add. do 2 f_equal. lia. }
    rewrite (perform_exhausted self c req w _ Hf6). simpl.
    rewrite events_exhausted.
    rewrite !attempts_app, !sleeps_app, attempts_failed_tries, sleeps_failed_tries.
    unfold attempts, sleeps. simpl. lia.
Qed.

End perform_events.

(** ** The retry policy of the executor *)

(** C4.  A read whose attempts 1 to 4 fail with a transient disconnect and
    whose attempt 5 goes through returns what the collection answers to that
    attempt, after exactly five attempts and four delays of 5 seconds each;
    no error reaches the caller, the stores are as they were, and the answer
    is the one the caller gets when the first attempt goes through. *)
Theorem retry_success self c req w rest :
  faults (db_side (c_db c)) w = replicate 4 (Some AutoReconnect) ++ rest →
  (∀ e, head rest ≠ Some (Some e)) →
  ∃ w', perform self c req w = (Ok (answer_of req (docs_of c w)), w')
    ∧ new_events w w' =
        mjoin (replicate 4 (failed_try c (op_of req))) ++ [EvStore c (op_of req)]
    ∧ attempts (new_events w w') = 5%nat
    ∧ filter is_sleep (new_events w w') = replicate 4 (EvSleep 5)
    ∧ primary w' = primary w ∧ remote w' = remote w
    ∧ fst (perform self c req (set_faults (db_side (c_db c)) rest w)) =
      Ok (answer_of req (docs_of c w)).
Proof.
  intros Hf Hrest. eexists. split; [apply (perform_succeeds self c req 4 w rest Hf); [lia|done]|].
  rewrite events_finished. repeat split.
  - etrans; [apply (store_set_faults Primary)|].
    etrans; [apply (store_record Primary)|].
    apply (store_after_failures c _ Primary).
  - etrans; [apply (store_set_faults Remote)|].
    etrans; [apply (store_record Remote)|].
    apply (store_after_failures c _ Remote).
  - rewrite (perform_succeeds self c req 0 _ rest); try done; try lia.
    + simpl. by rewrite docs_of_set_faults.
    + by rewrite faults_set_faults, decide_True.
Qed.

Lemma retry_success_witness :
  faults Primary (sample_world (replicate 4 (Some AutoReconnect)))
  = replicate 4 (Some AutoReconnect) ++ []
  ∧ (∀ e, head ([] : list (option exn)) ≠ Some (Some e))
  ∧ fst (perform remote_connector primary_zones (ReqCount ∅)
           (sample_world (replicate 4 (Some AutoReconnect)))) = Ok (AnsCount 2).
Proof.
  split; [reflexivity|]. split; [intros e; discriminate|].
  destruct (retry_success remote_connector primary_zones (ReqCount ∅)
              (sample_world (replicate 4 (Some AutoReconnect))) [])
    as (w' & Hrun & _).
  - reflexivity.
  - intros e; discriminate.
  - rewrite Hrun. reflexivity.
Defined.

(** Five transient failures in a row do not exhaust the retries: the sixth
    attempt is made, and its answer is returned when it goes through. *)
Lemma five_failures_are_retried :
  faults Primary (sample_world (replicate 5 (Some AutoReconnect)))
  = replicate 5 (Some AutoReconnect)
  ∧ fst (RemoteMongoConnector.perform_find remote_connector primary_zones ∅ None
           (sample_world (replicate 5 (Some AutoReconnect))))
    = Ok [example_com; example_org]
  ∧ attempts (new_events (sample_world (replicate 5 (Some AutoReconnect)))
                (snd (RemoteMongoConnector.perform_find remote_connector
                        primary_zones ∅ None
                        (sample_world (replicate 5 (Some AutoReconnect))))))
    = 6%nat
  ∧ fst (perform remote_connector primary_zones (ReqCount ∅)
           (sample_world (replicate 5 (Some AutoReconnect))))
    = Ok (AnsCount 2).
Proof. by vm_compute. Qed.

(** C1, amended.  The retries are exhausted by the sixth transient failure in
    a row, not by the fifth: the call then leaves through [exit(1)] without a
    result, after exactly six attempts and five delays, the stores being as
    they were.  Whatever the server does, no call makes a seventh attempt. *)
Theorem retry_exhaustion self c req w rest :
  faults (db_side (c_db c)) w = replicate 6 (Some AutoReconnect) ++ rest →
  (∀ w0, (attempts (new_events w0 (snd (perform self c req w0))) <= 6)%nat)
  ∧ ∃ w', perform self c req w = (Exit 1, w')
    ∧ new_events w w' =
        mjoin (replicate 5 (failed_try c (op_of req)))
        ++ [EvStore c (op_of req); giving_up]
    ∧ attempts (new_events w w') = 6%nat
    ∧ filter is_sleep (new_events w w') = replicate 5 (EvSleep 5)
    ∧ faults (db_side (c_db c)) w' = rest
    ∧ primary w' = primary w ∧ remote w' = remote w.
Proof.
  intros Hf. split; [intros w0; apply perform_bounded|].
  eexists. split; [by apply (perform_exhausted self c req w rest)|].
  rewrite events_exhausted. repeat split.
  - by rewrite faults_record, faults_set_faults, decide_True.
  - etrans; [apply (store_record Primary)|].
    etrans; [apply (store_set_faults Primary)|].
    etrans; [apply (store_record Primary)|].
    apply (store_after_failures c _ Primary).
  - etrans; [apply (store_record Remote)|].
    etrans; [apply (store_set_faults Remote)|].
    etrans; [apply (store_record Remote)|].
    apply (store_after_failures c _ Remote).
Qed.

Lemma retry_exhaustion_witness :
  faults Primary (sample_world (replicate 6 (Some AutoReconnect)))
  = replicate 6 (Some AutoReconnect) ++ []
  ∧ fst (perform remote_connector primary_zones (ReqFind ∅ None)
           (sample_world (replicate 6 (Some AutoReconnect)))) = Exit 1.
Proof.
  split; [reflexivity|].
  destruct (retry_exhaustion remote_connector primary_zones (ReqFind ∅ None)
              (sample_world (replicate 6 (Some AutoReconnect))) [])
    as (_ & w' & Hrun & _).
  - reflexivity.
  - rewrite Hrun. reflexivity.
Defined.

(** ** Reasoning along the structure of a program *)

Lemma bind_run {A B} (m : M A) (k : A → M B) w :
  (m ≫= k) w =
  match m w with
  | (Ok a, w1) => k a w1
  | (Raise e, w1) => (Raise e, w1)
  | (Exit code, w1) => (Exit code, w1)
  end.
Proof. reflexivity. Qed.

Lemma bind_ok {A B} (m : M A) (k : A → M B) w b w' :
  (m ≫= k) w = (Ok b, w') →
  ∃ a w1, m w = (Ok a, w1) ∧ k a w1 = (Ok b, w').
Proof.
  rewrite bind_run. destruct (m w) as [[a|e|code] w1]; intros H; try done.
  by exists a, w1.
Qed.

Section sequential.
Context (T : world → ending → world → Prop) `{!Sequential T}.

Lemma obeys_ret {A} (a : A) : obeys T (mret a : M A).
Proof. intros w. apply seq_skip. Qed.

Lemma obeys_gets {A} (f : world → A) : obeys T (gets f).
Proof. intros w. apply seq_skip. Qed.

Lemma obeys_bind {A B} (m : M A) (k : A → M B) :
  obeys T m → (∀ a, obeys T (k a)) → obeys T (m ≫= k).
Proof.
  intros Hm Hk w. specialize (Hm w). rewrite bind_run.
  destruct (m w) as [[a|e|code] w1]; simpl in *; try done.
  eapply seq_then; [exact Hm|]. apply Hk.
Qed.

Lemma obeys_for_each {A} (xs : list A) (body : A → M unit) :
  (∀ x, obeys T (body x)) → obeys T (for_each xs body).
Proof.
  intros Hbody. induction xs as [|x xs IH]; simpl.
  - apply obeys_ret.
  - apply obeys_bind; [apply Hbody|]. by intros _.
Qed.

Lemma obeys_for_acc {A S} (xs : list A) (acc : S) (body : A → S → M S) :
  (∀ x acc, obeys T (body x acc)) → obeys T (for_acc xs acc body).
Proof.
  intros Hbody. revert acc. induction xs as [|x xs IH]; intros acc; simpl.
  - apply obeys_ret.
  - apply obeys_bind; [apply Hbody|]. intros acc'. apply IH.
Qed.

(** What remains to be checked of [T] is its elementary steps. *)
Context (T_emit : ∀ e, is_attempt e = false → is_sleep e = false →
                       obeys T (emit e)).
Context (T_raise : ∀ A (e : exn), match e with KeyError _ | ValueError _ => True | _ => False end →
                                  obeys T (raise e : M A)).
Context (T_exit : ∀ A code, obeys T (exit code : M A)).

Lemma obeys_getitem d key : obeys T (getitem d key).
Proof.
  unfold getitem. destruct (d !! key); [apply obeys_ret|by apply T_raise].
Qed.

Lemma obeys_get_config_setting cfg section key type :
  obeys T (RemoteMongoConnector._get_config_setting cfg section key type).
Proof.
  unfold RemoteMongoConnector._get_config_setting.
  assert (obeys T (if bool_decide (type = "boolean")
                   then mret (VInt 0) else mret (VStr "") : M value)) as Hfailed.
  { case_bool_decide; apply obeys_ret. }
  destruct (if bool_decide (type = "boolean") then _ else _) as [[]|result];
    repeat first [ apply obeys_ret | exact Hfailed
                 | apply obeys_bind; [|intros ?]
                 | by apply T_emit | by apply T_raise ].
Qed.

Lemma obeys_init_mongo_connection cfg :
  obeys T (RemoteMongoConnector._init_mongo_connection cfg).
Proof.
  unfold RemoteMongoConnector._init_mongo_connection.
  repeat first [ apply obeys_ret | apply obeys_get_config_setting
               | apply obeys_bind; [|intros ?] ].
  case_bool_decide; by apply T_emit.
Qed.

Lemma obeys_init config_file debug :
  obeys T (RemoteMongoConnector.__init__ config_file debug).
Proof.
  unfold RemoteMongoConnector.__init__, config_read.
  apply obeys_bind; [apply obeys_gets|]. intros [cfg list].
  case_bool_decide.
  - apply obeys_bind; [by apply T_emit|]. intros _. apply T_exit.
  - apply obeys_bind; [apply obeys_init_mongo_connection|]. intros ?.
    apply obeys_ret.
Qed.

Lemma obeys_parse_args argv : obeys T (parse_args argv).
Proof.
  unfold parse_args. destruct (parse_flags argv); [apply obeys_ret|apply T_exit].
Qed.

Lemma obeys_set_up argv : obeys T (set_up argv).
Proof.
  unfold set_up, MongoConnector.__init__, JobsManager.record_job_start.
  repeat first [ apply obeys_ret | apply obeys_gets | apply obeys_parse_args
               | apply obeys_init | by apply T_emit
               | apply obeys_bind; [|intros ?] ].
Qed.

(** The steps of the script, from their store operations.  [readable] and
    [writable] are the collection names on which [T] puts up with a read,
    respectively with a write. *)
Context (mc rc : connector) (readable writable : string → Prop).
Context (T_find : ∀ name q p, readable name →
  obeys T (find (Collection (m_connection mc) name) q p)).
Context (T_remove : ∀ name q, writable name →
  obeys T (remove (Collection (m_connection rc) name) q)).
Context (T_insert : ∀ name d, writable name →
  obeys T (insert (Collection (m_connection rc) name) d)).

Ltac along :=
  repeat first
    [ apply obeys_ret | apply obeys_gets | apply obeys_getitem
    | apply T_find; assumption
    | apply T_remove; assumption
    | apply T_insert; assumption
    | by apply T_emit
    | apply obeys_for_each; intros ?
    | apply obeys_for_acc; intros ? ?
    | apply obeys_bind; [|intros ?] ].

Lemma obeys_update_zones b :
  readable "zones" → (b = true → writable "zones") →
  obeys T (update_zones mc rc b).
Proof.
  intros Hr Hw. unfold update_zones. destruct b; [specialize (Hw eq_refl)|]; along.
Qed.

Lemma obeys_update_ip_zones :
  readable "ip_zones" → writable "ip_zones" →
  readable "ipv6_zones" → writable "ipv6_zones" →
  obeys T (update_ip_zones mc rc).
Proof. intros ? ? ? ?. unfold update_ip_zones. along. Qed.

Lemma obeys_update_config :
  readable "config" → writable "config" → obeys T (update_config mc rc).
Proof. intros ? ?. unfold update_config. along. Qed.

Lemma obeys_update_aws_cidrs :
  readable "aws_ips" → writable "aws_ips" → obeys T (update_aws_cidrs mc rc).
Proof. intros ? ?. unfold update_aws_cidrs. along. Qed.

Lemma obeys_update_azure_cidrs :
  readable "azure_ips" → writable "azure_ips" → obeys T (update_azure_cidrs mc rc).
Proof. intros ? ?. unfold update_azure_cidrs. along. Qed.

Lemma obeys_update_akamai_cidrs :
  readable "akamai_ips" → writable "akamai_ips" → obeys T (update_akamai_cidrs mc rc).
Proof. intros ? ?. unfold update_akamai_cidrs. along. Qed.

Lemma obeys_update_gcp_cidrs :
  readable "gcp_ips" → writable "gcp_ips" → obeys T (update_gcp_cidrs mc rc).
Proof. intros ? ?. unfold update_gcp_cidrs. along. Qed.

Lemma obeys_update_all_dns zone_list :
  readable "all_dns" → writable "all_dns" →
  obeys T (update_all_dns mc rc zone_list).
Proof. intros ? ?. unfold update_all_dns. along. Qed.

Lemma obeys_wrap_up : obeys T wrap_up.
Proof. unfold wrap_up, JobsManager.record_job_complete. along. Qed.

Lemma obeys_replace_steps send_all args :
  (∀ name, name ≠ "zones" → name ≠ "all_dns" → readable name) →
  (∀ name, name ≠ "zones" → name ≠ "all_dns" → writable name) →
  obeys T (replace_steps send_all args mc rc).
Proof.
  intros Hr Hw. unfold replace_steps.
  repeat first
    [ apply obeys_ret
    | apply obeys_update_ip_zones; (apply Hr || apply Hw); done
    | apply obeys_update_config; (apply Hr || apply Hw); done
    | apply obeys_update_aws_cidrs; (apply Hr || apply Hw); done
    | apply obeys_update_azure_cidrs; (apply Hr || apply Hw); done
    | apply obeys_update_akamai_cidrs; (apply Hr || apply Hw); done
    | apply obeys_update_gcp_cidrs; (apply Hr || apply Hw); done
    | match goal with |- obeys _ (if ?b then _ else _) => destruct b end
    | apply obeys_bind; [|intros ?] ].
Qed.

Lemma obeys_after_zones send_all args zone_list :
  (∀ name, name ≠ "zones" → readable name) →
  (∀ name, name ≠ "zones" → writable name) →
  obeys T (after_zones send_all args mc rc zone_list).
Proof.
  intros Hr Hw. unfold after_zones. fold wrap_up.
  repeat first
    [ apply obeys_wrap_up
    | apply obeys_ret
    | apply obeys_update_ip_zones; (apply Hr || apply Hw); done
    | apply obeys_update_config; (apply Hr || apply Hw); done
    | apply obeys_update_aws_cidrs; (apply Hr || apply Hw); done
    | apply obeys_update_azure_cidrs; (apply Hr || apply Hw); done
    | apply obeys_update_akamai_cidrs; (apply Hr || apply Hw); done
    | apply obeys_update_gcp_cidrs; (apply Hr || apply Hw); done
    | apply obeys_update_all_dns; (apply Hr || apply Hw); done
    | match goal with |- obeys _ (if ?b then _ else _) => destruct b end
    | apply obeys_bind; [|intros ?] ].
Qed.

Lemma obeys_mirror send_all args :
  (∀ name, readable name) →
  (∀ name, name ≠ "zones" → writable name) →
  (send_all || send_zones args = true → writable "zones") →
  obeys T (mirror send_all args mc rc).
Proof.
  intros Hr Hw Hz. unfold mirror.
  apply obeys_bind; [|intros ?; apply obeys_after_zones; auto].
  destruct (send_all || send_zones args); apply obeys_update_zones; auto; done.
Qed.

End sequential.

(** ** The script, by parts *)

Lemma update_all_dns_zones mc rc zone_list :
  update_all_dns mc rc zone_list =
  (logger_info "Starting All DNS..";; for_each zone_list (mirror_zone mc rc)).
Proof. reflexivity. Qed.

Lemma main_parts argv w :
  main argv w =
  ('(args, mc, rc) ← set_up argv;
   mirror (bool_decide (length argv = 1%nat)) args mc rc) w.
Proof.
  unfold main, set_up, mbind, M_bind, bind. simpl.
  destruct (parse_args argv _) as [[a| |] w1]; try done.
  by destruct (RemoteMongoConnector.__init__ "" false w1) as [[rc| |] w2].
Qed.

(** ** Runs that end well, operation by operation *)

Lemma attempt_world c o w :
  (∀ s, store s (snd (attempt c o w)) = store s w)
  ∧ trace (snd (attempt c o w)) = trace w ++ [EvStore c o].
Proof.
  unfold attempt. rewrite faults_record.
  destruct (faults (db_side (c_db c)) w) as [|[e|] rest]; simpl; split;
    intros; rewrite ?store_set_faults, ?trace_set_faults; by destruct s || done.
Qed.

Lemma docs_of_store c w w' :
  (∀ s, store s w' = store s w) → docs_of c w' = docs_of c w.
Proof. intros H. unfold docs_of. by rewrite H. Qed.

Lemma docs_of_set_docs c docs w : docs_of c (set_docs c docs w) = docs.
Proof.
  unfold docs_of. rewrite store_set_docs, decide_True by done.
  by rewrite lookup_insert_eq.
Qed.

Lemma frame_set_docs c docs w : frame c w (set_docs c docs w).
Proof.
  intros s name Hne. rewrite store_set_docs. case_decide; [|done].
  rewrite lookup_insert_ne; [done|]. unfold place in Hne. congruence.
Qed.

Lemma frame_stores c w w' : (∀ s, store s w' = store s w) → frame c w w'.
Proof. intros H s name _. by rewrite H. Qed.

Lemma frame_trans c w1 w2 w3 : frame c w1 w2 → frame c w2 w3 → frame c w1 w3.
Proof. intros H12 H23 s name Hne. by rewrite H23, H12. Qed.

Lemma frame_docs_of c c' w w' :
  frame c w w' → place c' ≠ place c → docs_of c' w' = docs_of c' w.
Proof. intros H Hne. unfold docs_of. by rewrite (H _ _ Hne). Qed.

(** A run on a remote handle leaves the whole primary store as it was. *)
Lemma frame_primary c w w' :
  db_side (c_db c) = Remote → frame c w w' → primary w' = primary w.
Proof.
  intros Hside H. apply map_eq. intros name. apply (H Primary name).
  unfold place. rewrite Hside. congruence.
Qed.

Lemma find_ok c q p w r w' :
  find c q p w = (Ok r, w') →
  r = coll_find q p (docs_of c w)
  ∧ (∀ s, store s w' = store s w)
  ∧ trace w' = trace w ++ [EvStore c (OpFind q p)].
Proof.
  unfold find. intros H. apply bind_ok in H as ([] & w1 & Hatt & H).
  destruct (attempt_world c (OpFind q p) w) as [Hst Htr].
  rewrite Hatt in Hst, Htr. simpl in *. unfold gets in H.
  injection H as <- <-. by rewrite (docs_of_store c w w1).
Qed.

Lemma remove_ok c q w w' :
  remove c q w = (Ok tt, w') →
  docs_of c w' = coll_remove q (docs_of c w)
  ∧ frame c w w'
  ∧ trace w' = trace w ++ [EvStore c (OpRemove q)].
Proof.
  unfold remove. intros H. apply bind_ok in H as ([] & w1 & Hatt & H).
  destruct (attempt_world c (OpRemove q) w) as [Hst Htr].
  rewrite Hatt in Hst, Htr. simpl in *. unfold modify in H.
  injection H as <-. rewrite docs_of_set_docs, trace_set_docs.
  rewrite (docs_of_store c w w1) by done. repeat split; [|done].
  eapply frame_trans; [by apply frame_stores|apply frame_set_docs].
Qed.

Lemma insert_ok c d w w' :
  insert c d w = (Ok tt, w') →
  docs_of c w' = docs_of c w ++ [d]
  ∧ frame c w w'
  ∧ trace w' = trace w ++ [EvStore c (OpInsert d)].
Proof.
  unfold insert. intros H. apply bind_ok in H as ([] & w1 & Hatt & H).
  destruct (attempt_world c (OpInsert d) w) as [Hst Htr].
  rewrite Hatt in Hst, Htr. simpl in *. unfold modify in H.
  injection H as <-. rewrite docs_of_set_docs, trace_set_docs.
  rewrite (docs_of_store c w w1) by done. repeat split; [|done].
  eapply frame_trans; [by apply frame_stores|apply frame_set_docs].
Qed.

(** [for d in docs: c.insert(d)] appends [docs] to [c], in their order. *)
Lemma insert_all_ok c docs : ∀ w w',
  for_each docs (λ d, insert c d) w = (Ok tt, w') →
  docs_of c w' = docs_of c w ++ docs
  ∧ frame c w w'
  ∧ trace w' = trace w ++ insertions c docs.
Proof.
  induction docs as [|d docs IH]; intros w w' H; simpl in H.
  - injection H as <-. rewrite !app_nil_r. by repeat split.
  - apply bind_ok in H as ([] & w1 & Hins & H).
    apply insert_ok in Hins as (Hd1 & Hf1 & Ht1).
    apply IH in H as (Hd & Hf & Ht).
    rewrite Hd, Hd1, Ht, Ht1, <- !app_assoc. repeat split.
    by eapply frame_trans.
Qed.

(** ** Queries *)

Lemma find_everything p (docs : list document) :
  coll_find ∅ p docs = project p <$> docs.
Proof.
  unfold coll_find. f_equal. induction docs as [|d docs IH]; [done|].
  rewrite filter_cons_True by apply map_empty_subseteq. by rewrite IH.
Qed.

Lemma remove_everything (docs : list document) : coll_remove ∅ docs = [].
Proof.
  unfold coll_remove. induction docs as [|d docs IH]; [done|].
  rewrite filter_cons_False; [done|]. intros H. apply H, map_empty_subseteq.
Qed.

(** ** Events on one collection *)

Lemma events_on_app s name evs1 evs2 :
  events_on s name (evs1 ++ evs2) = events_on s name evs1 ++ events_on s name evs2.
Proof. apply filter_app. Qed.

Lemma events_on_cons s name e evs :
  events_on s name (e :: evs) =
  (if decide (target e = Some (s, name)) then [e] else []) ++ events_on s name evs.
Proof. unfold events_on. rewrite filter_cons. by case_decide. Qed.

Lemma events_on_store s name c o :
  events_on s name [EvStore c o] =
  if decide (place c = (s, name)) then [EvStore c o] else [].
Proof.
  unfold events_on, place. rewrite filter_cons. simpl.
  repeat case_decide; try done; congruence.
Qed.

Lemma events_on_insertions s name c docs :
  events_on s name (insertions c docs) =
  if decide (place c = (s, name)) then insertions c docs else [].
Proof.
  induction docs as [|d docs IH]; simpl; [by case_decide|].
  pose proof (events_on_app s name [EvStore c (OpInsert d)] (insertions c docs)) as H.
  simpl in H. rewrite H, events_on_store, IH. by case_decide.
Qed.

(** ** Replacing a collection as a whole *)

(** The code every full-replace step is made of: read the source without
    the identifiers, empty the destination, insert what was read. *)
Lemma replace_ok src dst w w' :
  (docs ← find src ∅ (Some no_id);
   remove dst ∅;;
   for_each docs (λ d, insert dst d)) w = (Ok tt, w') →
  docs_of dst w' = delete "_id" <$> docs_of src w
  ∧ frame dst w w'
  ∧ trace w' = trace w ++ EvStore src (OpFind ∅ (Some no_id))
                 :: EvStore dst (OpRemove ∅)
                 :: insertions dst (delete "_id" <$> docs_of src w).
Proof.
  intros H. apply bind_ok in H as (docs & w1 & Hfind & H).
  apply bind_ok in H as ([] & w2 & Hrem & H).
  apply find_ok in Hfind as (-> & Hs1 & Ht1).
  apply remove_ok in Hrem as (Hd2 & Hf2 & Ht2).
  apply insert_all_ok in H as (Hd & Hf & Ht).
  rewrite find_everything in *. rewrite remove_everything in Hd2.
  rewrite Hd, Hd2, Ht, Ht2, Ht1, <- !app_assoc. repeat split.
  eapply frame_trans; [|exact Hf].
  eapply frame_trans; [by apply frame_stores|exact Hf2].
Qed.

Lemma logged_ok {A} msg (k : M A) w a w' :
  (logger_info msg;; k) w = (Ok a, w') → k (record (EvLog msg) w) = (Ok a, w').
Proof. intros H. by apply bind_ok in H as ([] & w1 & [= <-] & H). Qed.

Section full_replace.
Context (mc rc : connector).
Hypothesis mc_primary : db_side (m_connection mc) = Primary.
Hypothesis rc_remote : db_side (m_connection rc) = Remote.

Let src (r : replaced) := Collection (m_connection mc) (name_of r).
Let dst (r : replaced) := Collection (m_connection rc) (name_of r).

Lemma place_dst r : place (dst r) = (Remote, name_of r).
Proof. unfold place. simpl. by rewrite rc_remote. Qed.

(** A step made of one replacement. *)
Lemma single_step_ok r msg w w' :
  (logger_info msg;;
   docs ← find (src r) ∅ (Some no_id);
   remove (dst r) ∅;;
   for_each docs (λ d, insert (dst r) d)) w = (Ok tt, w') →
  docs_of (dst r) w' = delete "_id" <$> docs_of (src r) w
  ∧ primary w' = primary w
  ∧ events_on Remote (name_of r) (new_events w w') =
      EvStore (dst r) (OpRemove ∅)
      :: insertions (dst r) (delete "_id" <$> docs_of (src r) w).
Proof.
  intros H. apply logged_ok, replace_ok in H as (Hd & Hf & Ht).
  rewrite docs_of_record in Hd, Ht. rewrite trace_record, <- app_assoc in Ht.
  split; [done|]. split.
  - etrans; [exact (frame_primary (dst r) _ _ rc_remote Hf)|]. apply (store_record Primary).
  - rewrite (new_events_app _ _ _ Ht). simpl app.
    rewrite !events_on_cons, events_on_insertions, place_dst.
    unfold src, dst. simpl target. rewrite mc_primary, rc_remote.
    repeat case_decide; try done; congruence.
Qed.

Ltac normal_handles :=
  unfold src, dst, MongoConnector.get_ipzone_connection,
    RemoteMongoConnector.get_ipzone_connection,
    MongoConnector.get_ipv6_zone_connection,
    RemoteMongoConnector.get_ipv6_zone_connection in *;
  simpl name_of in *.

Lemma step_of_ok r w w' :
  step_of r mc rc w = (Ok tt, w') →
  docs_of (dst r) w' = delete "_id" <$> docs_of (src r) w
  ∧ primary w' = primary w
  ∧ events_on Remote (name_of r) (new_events w w') =
      EvStore (dst r) (OpRemove ∅)
      :: insertions (dst r) (delete "_id" <$> docs_of (src r) w).
Proof.
  intros H.
  destruct r;
    [ | | exact (single_step_ok ConfigEntries "Starting Config.." _ _ H)
    | exact (single_step_ok AwsIps "Starting AWS CIDRs.." _ _ H)
    | exact (single_step_ok AzureIps "Starting Azure IPs.." _ _ H)
    | exact (single_step_ok AkamaiIps "Starting Akamai IPs.." _ _ H)
    | exact (single_step_ok GcpIps "Starting GCP IPs.." _ _ H) ].
  - (* ip_zones, replaced first by update_ip_zones *)
    apply logged_ok in H.
    apply bind_ok in H as (docs & w1 & Hfind & H).
    apply bind_ok in H as ([] & w2 & Hrem & H).
    apply bind_ok in H as ([] & w3 & Hins & H).
    apply replace_ok in H as (Hd6 & Hf6 & Ht6).
    apply find_ok in Hfind as (-> & Hs1 & Ht1).
    apply remove_ok in Hrem as (Hd2 & Hf2 & Ht2).
    apply insert_all_ok in Hins as (Hd3 & Hf3 & Ht3).
    normal_handles.
    rewrite find_everything in *. rewrite remove_everything in Hd2.
    rewrite docs_of_record in *. rewrite trace_record in Ht1.
    split; [|split].
    + rewrite (frame_docs_of _ _ _ _ Hf6) by (unfold place; simpl; congruence).
      by rewrite Hd3, Hd2.
    + etrans; [refine (frame_primary _ _ _ _ Hf6); exact rc_remote|].
      etrans; [refine (frame_primary _ _ _ _ Hf3); exact rc_remote|].
      etrans; [refine (frame_primary _ _ _ _ Hf2); exact rc_remote|].
      etrans; [apply (Hs1 Primary)|]. apply (store_record Primary).
    + erewrite new_events_app;
        [|rewrite Ht6, Ht3, Ht2, Ht1, <- !app_assoc; reflexivity].
      simpl app.
      rewrite !events_on_cons, events_on_app, !events_on_cons, !events_on_insertions.
      unfold place. simpl. rewrite mc_primary, rc_remote.
      repeat case_decide; try done; try congruence. simpl. by rewrite app_nil_r.
  - (* ipv6_zones, replaced second by update_ip_zones *)
    apply logged_ok in H.
    apply bind_ok in H as (docs & w1 & Hfind & H).
    apply bind_ok in H as ([] & w2 & Hrem & H).
    apply bind_ok in H as ([] & w3 & Hins & H).
    apply replace_ok in H as (Hd6 & Hf6 & Ht6).
    apply find_ok in Hfind as (-> & Hs1 & Ht1).
    apply remove_ok in Hrem as (Hd2 & Hf2 & Ht2).
    apply insert_all_ok in Hins as (Hd3 & Hf3 & Ht3).
    normal_handles.
    rewrite find_everything in *. rewrite docs_of_record in *.
    rewrite trace_record in Ht1.
    assert (docs_of (Collection (m_connection mc) "ipv6_zones") w3
            = docs_of (Collection (m_connection mc) "ipv6_zones") w) as Hsrc.
    { rewrite (frame_docs_of _ _ _ _ Hf3)
        by (unfold place; simpl; congruence).
      rewrite (frame_docs_of _ _ _ _ Hf2)
        by (unfold place; simpl; congruence).
      rewrite (docs_of_store _ _ _ Hs1). apply docs_of_record. }
    rewrite Hsrc in *.
    split; [done|split].
    + etrans; [refine (frame_primary _ _ _ _ Hf6); exact rc_remote|].
      etrans; [refine (frame_primary _ _ _ _ Hf3); exact rc_remote|].
      etrans; [refine (frame_primary _ _ _ _ Hf2); exact rc_remote|].
      etrans; [apply (Hs1 Primary)|]. apply (store_record Primary).
    + erewrite new_events_app;
        [|rewrite Ht6, Ht3, Ht2, Ht1, <- !app_assoc; reflexivity].
      simpl app.
      rewrite !events_on_cons, events_on_app, !events_on_cons, !events_on_insertions.
      unfold place. simpl. rewrite mc_primary, rc_remote.
      repeat case_decide; try done; congruence.
Qed.

End full_replace.

(** C5.  After a full-replace step that ran to its end, the destination
    collection holds exactly the documents of the source collection, each
    without its [_id] field and in the order of the source, whatever the
    destination held before; so both hold the same documents as sets.  The
    step does not touch the primary store, and what it does to the
    destination is one [remove({})], which leaves no document at all,
    followed by the insertion of every document as it was read. *)
Theorem full_replace_correct r mc rc w w' :
  db_side (m_connection mc) = Primary →
  db_side (m_connection rc) = Remote →
  step_of r mc rc w = (Ok tt, w') →
  docs_of (Collection (m_connection rc) (name_of r)) w' =
    delete "_id" <$> docs_of (Collection (m_connection mc) (name_of r)) w
  ∧ (∀ d, d ∈ docs_of (Collection (m_connection rc) (name_of r)) w' ↔
          ∃ d0, d = delete "_id" d0
                ∧ d0 ∈ docs_of (Collection (m_connection mc) (name_of r)) w)
  ∧ primary w' = primary w
  ∧ events_on Remote (name_of r) (new_events w w') =
      EvStore (Collection (m_connection rc) (name_of r)) (OpRemove ∅)
      :: insertions (Collection (m_connection rc) (name_of r))
           (delete "_id" <$> docs_of (Collection (m_connection mc) (name_of r)) w)
  ∧ coll_remove ∅ (docs_of (Collection (m_connection rc) (name_of r)) w) = [].
Proof.
  intros Hmc Hrc H. destruct (step_of_ok mc rc Hmc Hrc r w w' H) as (Hd & Hp & Hev).
  repeat split; try done.
  - rewrite Hd. intros Hin. by apply list_elem_of_fmap in Hin.
  - rewrite Hd. intros Hin. by apply list_elem_of_fmap.
  - apply remove_everything.
Qed.

Lemma full_replace_correct_witness :
  db_side (m_connection primary_connector) = Primary
  ∧ db_side (m_connection remote_connector) = Remote
  ∧ step_of ConfigEntries primary_connector remote_connector (sample_world [])
    = (Ok tt, snd (step_of ConfigEntries primary_connector remote_connector
                     (sample_world [])))
  ∧ docs_of (Collection (m_connection remote_connector) "config")
      (snd (step_of ConfigEntries primary_connector remote_connector
              (sample_world [])))
    = [ {[ "key" := VStr "value" ]} ].
Proof.
  assert (step_of ConfigEntries primary_connector remote_connector (sample_world [])
          = (Ok tt, snd (step_of ConfigEntries primary_connector remote_connector
                           (sample_world [])))) as Hrun by (by vm_compute).
  split; [reflexivity|]. split; [reflexivity|]. split; [exact Hrun|].
  destruct (full_replace_correct ConfigEntries primary_connector remote_connector
              _ _ eq_refl eq_refl Hrun) as (Hd & _).
  simpl name_of in Hd. rewrite Hd. by vm_compute.
Defined.

(** C7.  Running the same full-replace step twice in a row leaves, after the
    second run, the destination as the first run left it; the source is not
    changed by the step. *)
Theorem full_replace_idempotent r mc rc w w1 w2 :
  db_side (m_connection mc) = Primary →
  db_side (m_connection rc) = Remote →
  step_of r mc rc w = (Ok tt, w1) →
  step_of r mc rc w1 = (Ok tt, w2) →
  docs_of (Collection (m_connection rc) (name_of r)) w2 =
    docs_of (Collection (m_connection rc) (name_of r)) w1
  ∧ docs_of (Collection (m_connection mc) (name_of r)) w1 =
    docs_of (Collection (m_connection mc) (name_of r)) w.
Proof.
  intros Hmc Hrc H1 H2.
  destruct (step_of_ok mc rc Hmc Hrc r w w1 H1) as (Hd1 & Hp1 & _).
  destruct (step_of_ok mc rc Hmc Hrc r w1 w2 H2) as (Hd2 & _ & _).
  assert (docs_of (Collection (m_connection mc) (name_of r)) w1
          = docs_of (Collection (m_connection mc) (name_of r)) w) as Hsrc.
  { unfold docs_of. simpl. by rewrite Hmc; simpl; rewrite Hp1. }
  split; [|done]. by rewrite Hd2, Hsrc, Hd1.
Qed.

Lemma full_replace_idempotent_witness :
  db_side (m_connection primary_connector) = Primary
  ∧ db_side (m_connection remote_connector) = Remote
  ∧ fst (step_of AwsIps primary_connector remote_connector (sample_world []))
    = Ok tt
  ∧ docs_of (Collection (m_connection remote_connector) "aws_ips")
      (snd (step_of AwsIps primary_connector remote_connector
              (snd (step_of AwsIps primary_connector remote_connector
                      (sample_world [])))))
    = docs_of (Collection (m_connection remote_connector) "aws_ips")
        (snd (step_of AwsIps primary_connector remote_connector
                (sample_world []))).
Proof.
  split; [reflexivity|]. split; [reflexivity|]. split; [by vm_compute|].
  refine (proj1 (full_replace_idempotent AwsIps primary_connector remote_connector
                   (sample_world []) _ _ eq_refl eq_refl _ _)); by vm_compute.
Defined.

(** ** One zone at a time *)

Lemma zone_query z (d : document) : {[ "zone" := z ]} ⊆ d ↔ in_zone z d.
Proof. apply map_singleton_subseteq_l. Qed.

Lemma in_zone_delete_id z (d : document) : in_zone z (delete "_id" d) ↔ in_zone z d.
Proof. unfold in_zone. by rewrite lookup_delete_ne. Qed.

Lemma find_zone z (docs : list document) :
  coll_find {[ "zone" := z ]} (Some no_id) docs =
  delete "_id" <$> filter (in_zone z) docs.
Proof.
  unfold coll_find. f_equal. apply list_filter_iff. intros d. apply zone_query.
Qed.

Lemma remove_zone z (docs : list document) :
  coll_remove {[ "zone" := z ]} docs = filter (λ d, ¬ in_zone z d) docs.
Proof.
  unfold coll_remove. apply list_filter_iff. intros d. by rewrite zone_query.
Qed.

Lemma filter_none {A} (P : A → Prop) `{!∀ x, Decision (P x)} (l : list A) :
  (∀ x, x ∈ l → ¬ P x) → filter P l = [].
Proof.
  induction l as [|x l IH]; intros Hl; [done|].
  rewrite filter_cons_False by (apply Hl; left). apply IH.
  intros y Hy. apply Hl. by right.
Qed.

Lemma filter_all {A} (P : A → Prop) `{!∀ x, Decision (P x)} (l : list A) :
  (∀ x, x ∈ l → P x) → filter P l = l.
Proof.
  induction l as [|x l IH]; intros Hl; [done|].
  rewrite filter_cons_True by (apply Hl; left). f_equal. apply IH.
  intros y Hy. apply Hl. by right.
Qed.

(** The documents of zone [z] read from the primary all are of zone [z]. *)
Lemma in_zone_read z z' (docs : list document) :
  filter (in_zone z') (delete "_id" <$> filter (in_zone z) docs) =
  if decide (z' = z) then delete "_id" <$> filter (in_zone z) docs else [].
Proof.
  case_decide as Hz.
  - subst. apply filter_all. intros d Hd.
    apply list_elem_of_fmap in Hd as (d0 & -> & Hd0).
    apply in_zone_delete_id. by apply list_elem_of_filter in Hd0 as [? _].
  - apply filter_none. intros d Hd Hin.
    apply list_elem_of_fmap in Hd as (d0 & -> & Hd0).
    rewrite in_zone_delete_id in Hin. apply list_elem_of_filter in Hd0 as [Hd0 _].
    unfold in_zone in *. congruence.
Qed.

Lemma removals_app evs1 evs2 : removals (evs1 ++ evs2) = removals evs1 ++ removals evs2.
Proof. apply omap_app. Qed.

Lemma removals_insertions c docs : removals (insertions c docs) = [].
Proof. induction docs as [|d docs IH]; [done|]. simpl. apply IH. Qed.

Section zone_scoped.
Context (mc rc : connector).
Hypothesis mc_primary : db_side (m_connection mc) = Primary.
Hypothesis rc_remote : db_side (m_connection rc) = Remote.

Abbreviation src := (Collection (m_connection mc) "all_dns").
Abbreviation dst := (Collection (m_connection rc) "all_dns").

(** The sub-step of zone [z], when it runs to its end. *)
Lemma mirror_zone_ok z w w' :
  mirror_zone mc rc z w = (Ok tt, w') →
  docs_of dst w' =
    filter (λ d, ¬ in_zone z d) (docs_of dst w)
    ++ (delete "_id" <$> filter (in_zone z) (docs_of src w))
  ∧ frame dst w w'
  ∧ trace w' = trace w ++ EvStore src (OpFind {[ "zone" := z ]} (Some no_id))
                 :: EvStore dst (OpRemove {[ "zone" := z ]})
                 :: insertions dst (delete "_id" <$> filter (in_zone z) (docs_of src w)).
Proof.
  intros H. unfold mirror_zone in H.
  apply bind_ok in H as (docs & w1 & Hfind & H).
  apply bind_ok in Hfind as (cur & w0 & Hfind & [= <- <-]).
  apply bind_ok in H as ([] & w2 & Hrem & H).
  apply find_ok in Hfind as (-> & Hs1 & Ht1).
  apply remove_ok in Hrem as (Hd2 & Hf2 & Ht2).
  apply insert_all_ok in H as (Hd & Hf & Ht).
  unfold batch_size, MongoConnector.get_all_dns_connection,
    RemoteMongoConnector.get_all_dns_connection in *.
  rewrite find_zone in *. rewrite remove_zone in Hd2.
  rewrite (docs_of_store dst _ _ Hs1) in Hd2.
  rewrite Hd, Hd2, Ht, Ht2, Ht1, <- !app_assoc. repeat split.
  eapply frame_trans; [|exact Hf].
  eapply frame_trans; [by apply frame_stores|exact Hf2].
Qed.

(** What the sub-step of zone [z] achieves. *)
Lemma mirror_zone_scoped z w w' :
  mirror_zone mc rc z w = (Ok tt, w') →
  filter (in_zone z) (docs_of dst w') =
    delete "_id" <$> filter (in_zone z) (docs_of src w)
  ∧ (∀ z', z' ≠ z →
       filter (in_zone z') (docs_of dst w') = filter (in_zone z') (docs_of dst w))
  ∧ events_on Remote "all_dns" (new_events w w') =
      EvStore dst (OpRemove {[ "zone" := z ]})
      :: insertions dst (delete "_id" <$> filter (in_zone z) (docs_of src w))
  ∧ removals (new_events w w') = [ {[ "zone" := z ]} ]
  ∧ primary w' = primary w.
Proof.
  intros H. apply mirror_zone_ok in H as (Hd & Hf & Ht).
  rewrite (new_events_app _ _ _ Ht), Hd. repeat split.
  - rewrite filter_app, in_zone_read, decide_True by done.
    rewrite list_filter_filter, filter_none; [done|]. by intros d _ [? ?].
  - intros z' Hz. rewrite filter_app, in_zone_read, decide_False by done.
    rewrite app_nil_r, list_filter_filter. apply list_filter_iff.
    intros d. unfold in_zone. split; [by intros [? _]|]. intros Hd'. split; [done|].
    congruence.
  - rewrite !events_on_cons, events_on_insertions. unfold place. simpl.
    rewrite mc_primary, rc_remote. repeat case_decide; try done; congruence.
  - change (removals ([EvStore src (OpFind {[ "zone" := z ]} (Some no_id));
                       EvStore dst (OpRemove {[ "zone" := z ]})]
                      ++ insertions dst
                           (delete "_id" <$> filter (in_zone z) (docs_of src w)))
            = [ {[ "zone" := z ]} ]).
    by rewrite removals_app, removals_insertions.
  - by apply (frame_primary dst).
Qed.

Lemma sub_steps_run zone_list : ∀ w z w1 w2,
  (z, w1, w2) ∈ sub_steps mc rc zone_list w →
  mirror_zone mc rc z w1 = (Ok tt, w2) ∧ primary w1 = primary w.
Proof.
  induction zone_list as [|z0 zl IH]; intros w z w1 w2 Hin; simpl in Hin.
  - by apply elem_of_nil in Hin.
  - destruct (mirror_zone mc rc z0 w) as [[[]| |] w0] eqn:Hrun;
      try by apply elem_of_nil in Hin.
    apply elem_of_cons in Hin as [[= -> -> ->]|Hin]; [done|].
    apply IH in Hin as [Hrun' Hp]. split; [done|].
    rewrite Hp. by apply mirror_zone_scoped in Hrun as (_ & _ & _ & _ & ?).
Qed.

(** The loop over the zone names, when it runs to its end. *)
Lemma mirror_zones_ok zone_list : ∀ w w',
  for_each zone_list (mirror_zone mc rc) w = (Ok tt, w') →
  (sub_steps mc rc zone_list w).*1.*1 = zone_list
  ∧ ∃ evs, trace w' = trace w ++ evs
           ∧ removals evs = (λ z, {[ "zone" := z ]}) <$> zone_list.
Proof.
  induction zone_list as [|z zl IH]; intros w w' H; simpl in H.
  - injection H as <-. split; [done|]. exists []. by rewrite app_nil_r.
  - apply bind_ok in H as ([] & w1 & Hz & H). cbn [sub_steps]. rewrite Hz.
    rewrite !fmap_cons. cbn [fst].
    apply IH in H as (Hsub & evs & Ht & Hrem).
    pose proof Hz as Hz'. apply mirror_zone_ok in Hz' as (_ & _ & Ht1).
    apply mirror_zone_scoped in Hz as (_ & _ & _ & Hrem1 & _).
    rewrite (new_events_app _ _ _ Ht1) in Hrem1.
    split; [by rewrite Hsub|].
    eexists. split; [rewrite Ht, Ht1, <- app_assoc; reflexivity|].
    by rewrite removals_app, Hrem1, Hrem.
Qed.

Lemma docs_of_primary (c : collection) w w' :
  db_side (c_db c) = Primary → primary w' = primary w →
  docs_of c w' = docs_of c w.
Proof. unfold docs_of. intros -> H. simpl. by rewrite H. Qed.

(** Where the loop leaves every zone, listed or not. *)
Lemma mirror_zones_final zone_list : ∀ w w',
  for_each zone_list (mirror_zone mc rc) w = (Ok tt, w') →
  primary w' = primary w
  ∧ ∀ z, filter (in_zone z) (docs_of dst w') =
         if decide (z ∈ zone_list)
         then delete "_id" <$> filter (in_zone z) (docs_of src w)
         else filter (in_zone z) (docs_of dst w).
Proof.
  induction zone_list as [|z0 zl IH]; intros w w' H; simpl in H.
  - injection H as <-. split; [done|]. intros z. rewrite decide_False; [done|].
    apply not_elem_of_nil.
  - apply bind_ok in H as ([] & w1 & Hz & H).
    apply IH in H as (Hp & Hfin).
    apply mirror_zone_scoped in Hz as (Hz0 & Hother & _ & _ & Hp1).
    split; [by rewrite Hp|]. intros z. rewrite Hfin.
    rewrite (docs_of_primary src w w1) by done.
    destruct (decide (z ∈ zl)) as [Hin|Hin].
    + rewrite decide_True; [done|]. by right.
    + destruct (decide (z = z0)) as [->|Hne].
      * rewrite decide_True; [done|]. by left.
      * rewrite decide_False, Hother; [done..|].
        intros [?|?]%elem_of_cons; done.
Qed.

End zone_scoped.

#[global] Instance zone_query_inj : Inj (=) (=) (λ z : value, ({[ "zone" := z ]} : query)).
Proof.
  intros z1 z2 H. apply (f_equal (λ q : query, q !! "zone")) in H.
  rewrite !lookup_singleton_eq in H. congruence.
Qed.

(** C3.  A run of the DNS step that reaches its end makes one sub-step per
    zone name, in the order of the list.  Its deletions are, in that order,
    one [remove({'zone': z})] per listed [z] and nothing else, so that no
    zone is deleted twice when the list has no duplicate.  The sub-step of
    [z] leaves in the destination, for zone [z], exactly the primary
    documents of zone [z] as they were read (without [_id]); the
    documents of every other zone are as the sub-step found them; its only
    writes are that deletion followed by the insertion of what was read; the
    primary store is as it was when the run began.  At the end of the run
    every listed zone is as read from the primary, every other zone as it
    was before the run. *)
Theorem zone_scoped_correct mc rc zone_list w w' :
  db_side (m_connection mc) = Primary →
  db_side (m_connection rc) = Remote →
  update_all_dns mc rc zone_list w = (Ok tt, w') →
  (sub_steps mc rc zone_list (record (EvLog "Starting All DNS..") w)).*1.*1
    = zone_list
  ∧ removals (new_events w w') = (λ z, {[ "zone" := z ]}) <$> zone_list
  ∧ (NoDup zone_list → NoDup (removals (new_events w w')))
  ∧ (∀ z w1 w2,
      (z, w1, w2) ∈ sub_steps mc rc zone_list (record (EvLog "Starting All DNS..") w) →
      filter (in_zone z) (docs_of (Collection (m_connection rc) "all_dns") w2) =
        delete "_id" <$>
          filter (in_zone z) (docs_of (Collection (m_connection mc) "all_dns") w1)
      ∧ (∀ z', z' ≠ z →
           filter (in_zone z') (docs_of (Collection (m_connection rc) "all_dns") w2) =
           filter (in_zone z') (docs_of (Collection (m_connection rc) "all_dns") w1))
      ∧ events_on Remote "all_dns" (new_events w1 w2) =
          EvStore (Collection (m_connection rc) "all_dns") (OpRemove {[ "zone" := z ]})
          :: insertions (Collection (m_connection rc) "all_dns")
               (delete "_id" <$>
                  filter (in_zone z)
                    (docs_of (Collection (m_connection mc) "all_dns") w1))
      ∧ primary w2 = primary w1
      ∧ primary w1 = primary w)
  ∧ ∀ z,
      (z ∈ zone_list →
       filter (in_zone z) (docs_of (Collection (m_connection rc) "all_dns") w') =
         delete "_id" <$>
           filter (in_zone z) (docs_of (Collection (m_connection mc) "all_dns") w))
      ∧ (z ∉ zone_list →
         filter (in_zone z) (docs_of (Collection (m_connection rc) "all_dns") w') =
         filter (in_zone z) (docs_of (Collection (m_connection rc) "all_dns") w)).
Proof.
  intros Hmc Hrc H. rewrite update_all_dns_zones in H. apply logged_ok in H.
  destruct (mirror_zones_ok mc rc Hmc Hrc zone_list _ _ H) as (Hsub & evs & Ht & Hrem).
  assert (removals (new_events w w') = (λ z, {[ "zone" := z ]}) <$> zone_list) as Hremovals.
  { rewrite trace_record, <- app_assoc in Ht. by rewrite (new_events_app _ _ _ Ht). }
  split; [done|]. split; [done|]. split; [|split].
  - intros Hnodup. rewrite Hremovals. by apply (NoDup_fmap_2 _).
  - intros z w1 w2 Hin.
    apply (sub_steps_run mc rc Hmc Hrc) in Hin as [Hrun Hp].
    destruct (mirror_zone_scoped mc rc Hmc Hrc z w1 w2 Hrun) as (? & ? & ? & _ & ?).
    by repeat split.
  - intros z. destruct (mirror_zones_final mc rc Hmc Hrc zone_list _ _ H) as [_ Hfin].
    specialize (Hfin z). rewrite !docs_of_record in Hfin.
    by case_decide.
Qed.

Lemma zone_scoped_correct_witness :
  db_side (m_connection primary_connector) = Primary
  ∧ db_side (m_connection remote_connector) = Remote
  ∧ fst (update_all_dns primary_connector remote_connector
           [VStr "example.com"; VStr "example.org"] (sample_world [])) = Ok tt
  ∧ removals (new_events (sample_world [])
                (snd (update_all_dns primary_connector remote_connector
                        [VStr "example.com"; VStr "example.org"] (sample_world []))))
    = [ {[ "zone" := VStr "example.com" ]}; {[ "zone" := VStr "example.org" ]} ].
Proof.
  split; [reflexivity|]. split; [reflexivity|]. split; [by vm_compute|].
  refine (proj1 (proj2 (zone_scoped_correct primary_connector remote_connector
                          [VStr "example.com"; VStr "example.org"]
                          (sample_world []) _ eq_refl eq_refl _))).
  by vm_compute.
Defined.

(** C10.  On an empty zone list the DNS step logs its start and does nothing
    else: it attempts no operation on either store, completes no sub-step,
    and leaves both stores and both schedules as they were. *)
Theorem empty_zone_list_no_op mc rc w :
  update_all_dns mc rc [] w = (Ok tt, record (EvLog "Starting All DNS..") w)
  ∧ new_events w (snd (update_all_dns mc rc [] w)) = [EvLog "Starting All DNS.."]
  ∧ attempts (new_events w (snd (update_all_dns mc rc [] w))) = 0%nat
  ∧ sub_steps mc rc [] (record (EvLog "Starting All DNS..") w) = []
  ∧ primary (snd (update_all_dns mc rc [] w)) = primary w
  ∧ remote (snd (update_all_dns mc rc [] w)) = remote w
  ∧ docs_of (RemoteMongoConnector.get_all_dns_connection rc)
      (snd (update_all_dns mc rc [] w))
    = docs_of (RemoteMongoConnector.get_all_dns_connection rc) w
  ∧ primary_faults (snd (update_all_dns mc rc [] w)) = primary_faults w
  ∧ remote_faults (snd (update_all_dns mc rc [] w)) = remote_faults w.
Proof.
  assert (new_events w (record (EvLog "Starting All DNS..") w)
          = [EvLog "Starting All DNS.."]) as Hev by (by apply new_events_app).
  repeat split; try done.
  simpl. by rewrite Hev.
Qed.

(** ** The configuration file *)

(** C8 (the code leaves with status 0).  Without a readable configuration
    file the constructor prints its error and leaves through [exit(0)]
    before any connection is made; so does the run that calls it. *)
Theorem missing_config_exits_with_status_zero :
  RemoteMongoConnector.__init__ "" false (without_config (sample_world []))
  = (Exit 0,
     record (EvPrint "Error: Could not find the config file")
       (without_config (sample_world [])))
  ∧ filter is_connection
      (new_events (without_config (sample_world []))
         (snd (RemoteMongoConnector.__init__ "" false
                 (without_config (sample_world []))))) = []
  ∧ fst (main ["send_remote_server.py"] (without_config (sample_world [])))
    = Exit 0.
Proof. by vm_compute. Qed.

(** The same, for every file name and every world. *)
Lemma missing_config_exit config_file debug w :
  config_files w !! (if bool_decide (config_file ≠ "") then config_file
                     else RemoteMongoConnector.default_config_file) = None →
  RemoteMongoConnector.__init__ config_file debug w
  = (Exit 0, record (EvPrint "Error: Could not find the config file") w).
Proof.
  intros H. unfold RemoteMongoConnector.__init__, config_read.
  rewrite bind_run. unfold gets. by rewrite H.
Qed.

(** The lookups that fail are those of an absent section, of an absent key
    and of a value the parser rejects. *)
Lemma config_get_fails cfg section key :
  (∃ err, config_get cfg section key = inl err) ↔
  cfg !! section = None
  ∨ ∃ options, cfg !! section = Some options
               ∧ (options !! key = None ∨ ∃ msg, options !! key = Some (inr msg)).
Proof.
  unfold config_get. destruct (cfg !! section) as [options|] eqn:Hs.
  - destruct (options !! key) as [[s|msg]|] eqn:Hk; simpl.
    + split; [by intros [err ?]|].
      intros [?|(o & [= <-] & [?|[m ?]])]; congruence.
    + split; [|by eauto]. intros _. right. exists options. eauto.
    + split; [|by eauto]. intros _. right. exists options. eauto.
  - split; eauto.
Qed.

Lemma missing_section_setting cfg key w :
  cfg !! "RemoteMongoDB" = None →
  RemoteMongoConnector._get_config_setting cfg "RemoteMongoDB" key "str" w
  = (Ok (VStr ""),
     record (EvPrint "Warning: RemoteMongoDB does not exist in config file") w).
Proof.
  intros H. unfold RemoteMongoConnector._get_config_setting, config_get.
  by rewrite H.
Qed.

Lemma missing_section_connection cfg w :
  cfg !! "RemoteMongoDB" = None →
  RemoteMongoConnector._init_mongo_connection cfg w
  = (Ok (Database Remote ""),
     record (EvMongoClient "" None)
       (Nat.iter 6
          (record (EvPrint "Warning: RemoteMongoDB does not exist in config file"))
          w)).
Proof.
  intros H. unfold RemoteMongoConnector._init_mongo_connection.
  repeat (rewrite bind_run, (missing_section_setting _ _ _ H); cbn beta iota).
  reflexivity.
Qed.

Lemma present_lookup cfg section key type s w :
  config_get cfg section key = inr s →
  RemoteMongoConnector._get_config_setting cfg section key type w =
  if bool_decide (type = "boolean")
  then match as_boolean s with
       | Some b => (Ok (VBool b), w)
       | None => (Raise (ValueError ("Not a boolean: " +:+ s)), w)
       end
  else (Ok (VStr s), w).
Proof.
  intros H. unfold RemoteMongoConnector._get_config_setting, config_getboolean,
    as_boolean.
  rewrite H. case_bool_decide; [|done].
  by repeat case_bool_decide.
Qed.

Lemma lookup_warns cfg section key type err w :
  config_get cfg section key = inl err →
  ∃ w' msg msgs,
    RemoteMongoConnector._get_config_setting cfg section key type w
    = (Ok (if bool_decide (type = "boolean") then VInt 0 else VStr ""), w')
    ∧ trace w' = trace w ++ (EvPrint <$> msg :: msgs)
    ∧ primary w' = primary w ∧ remote w' = remote w
    ∧ primary_faults w' = primary_faults w ∧ remote_faults w' = remote_faults w.
Proof.
  intros H. unfold RemoteMongoConnector._get_config_setting, config_getboolean.
  rewrite H. unfold config_get in H.
  destruct (cfg !! section) as [options|]; [destruct (options !! key) as [[s|msg]|]|];
    simplify_eq/=; case_bool_decide; simpl.
  all: eexists; ((eexists _, []) + (eexists _, [_])); (split; [reflexivity|]);
    simpl; rewrite <- ?app_assoc; by repeat split.
Qed.

(** The text that is no boolean makes the lookup of a boolean setting raise
    ValueError, which is no error of configparser: the lookup does not
    return 0, it ends the run. *)
Lemma malformed_boolean_aborts :
  config_files (World ∅ ∅ [] [] {[ "connector.config" := malformed_boolean ]} "" [])
    !! "connector.config" = Some malformed_boolean
  ∧ config_get malformed_boolean "RemoteMongoDB" "mongo.ssl" = inr "maybe"
  ∧ RemoteMongoConnector._get_config_setting malformed_boolean
      "RemoteMongoDB" "mongo.ssl" "boolean"
      (World ∅ ∅ [] [] {[ "connector.config" := malformed_boolean ]} "" [])
    = (Raise (ValueError "Not a boolean: maybe"),
       World ∅ ∅ [] [] {[ "connector.config" := malformed_boolean ]} "" [])
  ∧ RemoteMongoConnector._get_config_setting malformed_boolean
      "RemoteMongoDB" "mongo.ssl" "boolean"
      (World ∅ ∅ [] [] {[ "connector.config" := malformed_boolean ]} "" [])
    ≠ (Ok (VInt 0),
       World ∅ ∅ [] [] {[ "connector.config" := malformed_boolean ]} "" []).
Proof. by vm_compute. Qed.

(** C9, amended.  What a lookup does, case by case.  A lookup that fails
    because the section is absent, the key is absent or the parser rejects
    the value does not stop anything: it prints at least one warning and
    returns the empty string, or 0 for a boolean setting, and touches
    neither the stores nor their schedules.  A lookup that finds a text
    returns it as it is for a string setting, and returns the boolean it
    reads as for a boolean setting, without any warning; but a text that
    reads as no boolean makes the lookup of a boolean setting raise
    ValueError, which nothing catches.  When the section of the remote
    store is absent, the six settings of the connection are empty and
    MongoClient is called with the empty connection string and no
    certificate. *)
Theorem config_lookup_outcomes cfg section key type w :
  (∀ err,
     config_get cfg section key = inl err →
     ∃ w' msg msgs,
       RemoteMongoConnector._get_config_setting cfg section key type w
       = (Ok (if bool_decide (type = "boolean") then VInt 0 else VStr ""), w')
       ∧ trace w' = trace w ++ (EvPrint <$> msg :: msgs)
       ∧ primary w' = primary w ∧ remote w' = remote w
       ∧ primary_faults w' = primary_faults w
       ∧ remote_faults w' = remote_faults w)
  ∧ (∀ s,
       config_get cfg section key = inr s →
       RemoteMongoConnector._get_config_setting cfg section key type w =
       if bool_decide (type = "boolean")
       then match as_boolean s with
            | Some b => (Ok (VBool b), w)
            | None => (Raise (ValueError ("Not a boolean: " +:+ s)), w)
            end
       else (Ok (VStr s), w))
  ∧ (cfg !! "RemoteMongoDB" = None →
     RemoteMongoConnector.connection_string
       (VStr "") (VStr "") (VStr "") (VStr "") (VStr "") = ""
     ∧ filter is_connection
         (new_events w (snd (RemoteMongoConnector._init_mongo_connection cfg w)))
       = [EvMongoClient "" None]).
Proof.
  split; [|split].
  - intros err H. by apply (lookup_warns cfg section key type err).
  - intros s H. by apply present_lookup.
  - intros Hsec. split; [done|].
    rewrite (missing_section_connection _ _ Hsec). cbn [snd].
    erewrite new_events_app; [|simpl; rewrite ?trace_record, <- ?app_assoc; reflexivity].
    reflexivity.
Qed.

Lemma config_lookup_outcomes_witness :
  config_get other_sections "RemoteMongoDB" "mongo.host"
  = inl (NoSectionError "RemoteMongoDB")
  ∧ config_get malformed_boolean "RemoteMongoDB" "mongo.ssl" = inr "maybe"
  ∧ config_get malformed_boolean "RemoteMongoDB" "mongo.host" = inr "remote.example"
  ∧ other_sections !! "RemoteMongoDB" = None
  ∧ fst (RemoteMongoConnector._get_config_setting other_sections
           "RemoteMongoDB" "mongo.host" "boolean" (sample_world [])) = Ok (VInt 0)
  ∧ fst (RemoteMongoConnector._get_config_setting malformed_boolean
           "RemoteMongoDB" "mongo.ssl" "boolean" (sample_world []))
    = Raise (ValueError "Not a boolean: maybe")
  ∧ fst (RemoteMongoConnector._get_config_setting malformed_boolean
           "RemoteMongoDB" "mongo.host" "str" (sample_world []))
    = Ok (VStr "remote.example")
  ∧ filter is_connection
      (new_events (sample_world [])
         (snd (RemoteMongoConnector._init_mongo_connection other_sections
                 (sample_world []))))
    = [EvMongoClient "" None].
Proof.
  split; [reflexivity|]. split; [reflexivity|]. split; [reflexivity|].
  split; [reflexivity|].
  split.
  { destruct (proj1 (config_lookup_outcomes other_sections "RemoteMongoDB"
                       "mongo.host" "boolean" (sample_world [])) _ eq_refl)
      as (w' & msg & msgs & Hrun & _).
    rewrite Hrun. reflexivity. }
  split.
  { rewrite (proj1 (proj2 (config_lookup_outcomes malformed_boolean "RemoteMongoDB"
                             "mongo.ssl" "boolean" (sample_world []))) _ eq_refl).
    reflexivity. }
  split.
  { rewrite (proj1 (proj2 (config_lookup_outcomes malformed_boolean "RemoteMongoDB"
                             "mongo.host" "str" (sample_world []))) _ eq_refl).
    reflexivity. }
  exact (proj2 (proj2 (proj2 (config_lookup_outcomes other_sections "RemoteMongoDB"
                                "mongo.host" "str" (sample_world []))) eq_refl)).
Defined.

(** ** Properties that compose: instances *)

#[global] Instance grows_sequential P : Sequential (grows P).
Proof.
  split.
  - intros w. exists []. by rewrite app_nil_r.
  - intros w w1 w' k (evs1 & Ht1 & H1) (evs2 & Ht2 & H2).
    exists (evs1 ++ evs2). rewrite Ht2, Ht1, <- app_assoc. split; [done|].
    by apply Forall_app.
Qed.

#[global] Instance keeps_sequential {X} (f : world → X) : Sequential (keeps f).
Proof.
  split; [done|]. unfold keeps. intros w w1 w' k H1 H2. by rewrite H2.
Qed.

#[global] Instance fails_fast_sequential : Sequential fails_fast.
Proof.
  split.
  - intros w s. exists []. split; [done|]. by left.
  - intros w w1 w' k H1 H2 s.
    destruct (H1 s) as (used1 & Hf1 & [Hnone1|(e & ? & _ & _ & [=])]).
    destruct (H2 s) as (used2 & Hf2 & Hused2).
    exists (used1 ++ used2). rewrite Hf1, Hf2, <- app_assoc. split; [done|].
    destruct Hused2 as [Hnone2|(e & used0 & -> & Hnone0 & ->)].
    + left. by apply Forall_app.
    + right. exists e, (used1 ++ used0). rewrite <- app_assoc.
      repeat split. by apply Forall_app.
Qed.

Section grows.
Context (P : event → Prop).

Lemma grows_modify f : (∀ w, trace (f w) = trace w) → obeys (grows P) (modify f).
Proof. intros H w. exists []. simpl. by rewrite H, app_nil_r. Qed.

Lemma grows_emit e : P e → obeys (grows P) (emit e).
Proof. intros H w. exists [e]. split; [done|]. by apply Forall_singleton. Qed.

Lemma grows_raise {A} e : obeys (grows P) (raise e : M A).
Proof. intros w. exists []. by rewrite app_nil_r. Qed.

Lemma grows_exit {A} code : obeys (grows P) (exit code : M A).
Proof. intros w. exists []. by rewrite app_nil_r. Qed.

Lemma grows_attempt c o : P (EvStore c o) → obeys (grows P) (attempt c o).
Proof.
  intros H w. exists [EvStore c o]. split; [|by apply Forall_singleton].
  apply attempt_world.
Qed.

Lemma grows_find c q p : P (EvStore c (OpFind q p)) → obeys (grows P) (find c q p).
Proof.
  intros H. apply obeys_bind; [apply _|by apply grows_attempt|].
  intros _. apply obeys_gets, _.
Qed.

Lemma grows_remove c q : P (EvStore c (OpRemove q)) → obeys (grows P) (remove c q).
Proof.
  intros H. apply obeys_bind; [apply _|by apply grows_attempt|].
  intros _. apply grows_modify. intros w. apply trace_set_docs.
Qed.

Lemma grows_insert c d : P (EvStore c (OpInsert d)) → obeys (grows P) (insert c d).
Proof.
  intros H. apply obeys_bind; [apply _|by apply grows_attempt|].
  intros _. apply grows_modify. intros w. apply trace_set_docs.
Qed.

Lemma grows_new_events w k w' :
  grows P w k w' →
  trace w' = trace w ++ new_events w w' ∧ Forall P (new_events w w').
Proof. intros (evs & Ht & H). by rewrite (new_events_app _ _ _ Ht). Qed.

End grows.

Lemma events_on_none s name evs :
  Forall (λ e, target e ≠ Some (s, name)) evs → events_on s name evs = [].
Proof.
  intros H. apply filter_none. intros e He.
  by apply (proj1 (Forall_forall _ _) H).
Qed.

(** ** The set-up of a run *)

Lemma get_setting_str_total cfg section key w :
  ∃ v w', RemoteMongoConnector._get_config_setting cfg section key "str" w
          = (Ok v, w').
Proof.
  unfold RemoteMongoConnector._get_config_setting, config_get. simpl.
  destruct (cfg !! section) as [options|]; [|simpl; eauto].
  destruct (options !! key) as [[s|msg]|]; simpl; eauto.
Qed.

Lemma init_connection_total cfg w :
  ∃ name w', RemoteMongoConnector._init_mongo_connection cfg w
             = (Ok (Database Remote name), w').
Proof.
  unfold RemoteMongoConnector._init_mongo_connection.
  repeat match goal with
  | |- context [RemoteMongoConnector._get_config_setting ?c ?s ?k "str"] =>
      rewrite bind_run;
      let v := fresh "v" in let w1 := fresh "w" in let H := fresh "H" in
      match goal with
      | |- context [RemoteMongoConnector._get_config_setting c s k "str" ?w0] =>
          destruct (get_setting_str_total c s k w0) as (v & w1 & H); rewrite H
      end
  end.
  rewrite bind_run. case_bool_decide; simpl; eauto.
Qed.

Lemma init_connection_remote cfg w conn w' :
  RemoteMongoConnector._init_mongo_connection cfg w = (Ok conn, w') →
  db_side conn = Remote.
Proof.
  intros H. destruct (init_connection_total cfg w) as (name & w1 & Hrun).
  rewrite Hrun in H. by injection H as <- _.
Qed.

Lemma init_remote config_file debug w rc w' :
  RemoteMongoConnector.__init__ config_file debug w = (Ok rc, w') →
  db_side (m_connection rc) = Remote.
Proof.
  unfold RemoteMongoConnector.__init__. intros H.
  apply bind_ok in H as ([cfg list] & w1 & _ & H).
  case_bool_decide; [by apply bind_ok in H as (? & ? & _ & ?)|].
  apply bind_ok in H as (conn & w2 & Hconn & [= <- _]).
  by apply init_connection_remote in Hconn.
Qed.

Lemma set_up_ok argv args w x w1 :
  parse_flags argv = Some args →
  set_up argv w = (Ok x, w1) →
  ∃ rc, x = (args, primary_connector, rc) ∧ db_side (m_connection rc) = Remote.
Proof.
  intros Hargs H. unfold set_up, parse_args in H. rewrite Hargs in H.
  apply bind_ok in H as (? & ? & _ & H).
  apply bind_ok in H as (? & ? & _ & H).
  apply bind_ok in H as (? & ? & _ & H).
  apply bind_ok in H as (? & ? & [= <- <-] & H).
  apply bind_ok in H as (? & ? & [= <- <-] & H).
  apply bind_ok in H as (rc & ? & Hinit & H).
  apply bind_ok in H as (? & ? & _ & [= <- _]).
  exists rc. split; [done|]. by apply init_remote in Hinit.
Qed.

Lemma set_up_total argv args cfg w :
  parse_flags argv = Some args →
  config_files w !! "connector.config" = Some cfg →
  ∃ rc w1, set_up argv w = (Ok (args, primary_connector, rc), w1).
Proof.
  intros Hargs Hcfg. unfold set_up, parse_args, RemoteMongoConnector.__init__,
    config_read, MongoConnector.__init__, RemoteMongoConnector.default_config_file.
  rewrite Hargs. unfold mbind, M_bind, bind, gets. simpl. rewrite Hcfg. simpl.
  match goal with
  | |- context [RemoteMongoConnector._init_mongo_connection cfg ?w0] =>
      destruct (init_connection_total cfg w0) as (name & w1 & ->)
  end.
  simpl. eauto.
Qed.

(** A property that composes holds of a whole run when it holds of the
    set-up and of the steps. *)
Lemma main_obeys T `{!Sequential T} argv args w :
  parse_flags argv = Some args →
  obeys T (set_up argv) →
  (∀ rc, db_side (m_connection rc) = Remote →
     obeys T (mirror (bool_decide (length argv = 1%nat)) args primary_connector rc)) →
  T w (ending_of (fst (main argv w))) (snd (main argv w)).
Proof.
  intros Hargs Hset Hmirror. rewrite main_parts, bind_run.
  specialize (Hset w).
  destruct (set_up argv w) as [[x|e|code] w1] eqn:Hrun; [|done..].
  destruct (set_up_ok _ _ _ _ _ Hargs Hrun) as (rc & -> & Hrc).
  eapply seq_then; [exact Hset|]. by apply Hmirror.
Qed.

(** ** The read of the zones *)

Lemma update_zones_parts mc rc b :
  update_zones mc rc b =
  (logger_info "Starting Zones..";;
   zones ← find (MongoConnector.get_zone_connection mc) ∅ (Some no_id);
   zones_loop mc rc b zones).
Proof. by destruct b. Qed.

Lemma find_world c q p w :
  (∀ s, store s (snd (find c q p w)) = store s w)
  ∧ trace (snd (find c q p w)) = trace w ++ [EvStore c (OpFind q p)].
Proof.
  unfold find. rewrite bind_run.
  destruct (attempt_world c (OpFind q p) w) as [Hs Ht].
  by destruct (attempt c (OpFind q p) w) as [[[]| |] w1].
Qed.

(** The steps begin with the read of the zones of the primary store. *)
Lemma mirror_read send_all args mc rc w :
  mirror send_all args mc rc w =
  match find (MongoConnector.get_zone_connection mc) ∅ (Some no_id)
          (record (EvLog "Starting Zones..") w) with
  | (Ok zones, w2) =>
      (zone_list ← zones_loop mc rc (send_all || send_zones args) zones;
       after_zones send_all args mc rc zone_list) w2
  | (Raise e, w2) => (Raise e, w2)
  | (Exit code, w2) => (Exit code, w2)
  end.
Proof.
  unfold mirror.
  assert ((if send_all || send_zones args
           then update_zones mc rc true else update_zones mc rc false)
          = update_zones mc rc (send_all || send_zones args)) as ->
    by (by destruct (send_all || send_zones args)).
  rewrite update_zones_parts. unfold mbind, M_bind, bind, logger_info, emit, modify.
  by destruct (find _ _ _ _) as [[zones| |] w2].
Qed.

Section steps_grow.
Context (P : event → Prop) (mc rc : connector).

Hypothesis P_other : ∀ e, is_attempt e = false → is_sleep e = false → P e.

Lemma grows_set_up argv : obeys (grows P) (set_up argv).
Proof.
  apply obeys_set_up; [apply _|..].
  - intros e ? ?. by apply grows_emit, P_other.
  - intros A e _. apply grows_raise.
  - intros A code. apply grows_exit.
Qed.

Lemma grows_zones_loop b zones :
  (b = true → lets_write P rc "zones") → obeys (grows P) (zones_loop mc rc b zones).
Proof.
  intros Hw. unfold zones_loop.
  destruct b; [specialize (Hw eq_refl)|];
    repeat first
      [ apply obeys_ret; apply _
      | apply obeys_getitem; [apply _|intros A e _; apply grows_raise]
      | apply grows_remove, Hw | apply grows_insert, Hw
      | apply obeys_for_acc; [apply _|intros ? ?]
      | apply obeys_bind; [apply _| |intros ?] ].
Qed.

Lemma grows_after_zones send_all args zone_list :
  (∀ name, name ≠ "zones" → lets_read P mc name) →
  (∀ name, name ≠ "zones" → lets_write P rc name) →
  obeys (grows P) (after_zones send_all args mc rc zone_list).
Proof.
  intros Hr Hw.
  apply (obeys_after_zones (grows P)) with (readable := lets_read P mc) (writable := lets_write P rc);
    try done.
  - intros e ? ?. by apply grows_emit, P_other.
  - intros name q p H. apply grows_find, H.
  - intros name q H. apply grows_remove, H.
  - intros name d H. apply grows_insert, H.
Qed.

Lemma grows_mirror send_all args :
  (∀ name, lets_read P mc name) →
  (∀ name, name ≠ "zones" → lets_write P rc name) →
  (send_all || send_zones args = true → lets_write P rc "zones") →
  obeys (grows P) (mirror send_all args mc rc).
Proof.
  intros Hr Hw Hz.
  apply (obeys_mirror (grows P)) with (readable := lets_read P mc) (writable := lets_write P rc);
    try done.
  - intros e ? ?. by apply grows_emit, P_other.
  - intros A e _. apply grows_raise.
  - intros name q p H. apply grows_find, H.
  - intros name q H. apply grows_remove, H.
  - intros name d H. apply grows_insert, H.
Qed.

Lemma grows_replace_steps send_all args :
  (∀ name, name ≠ "zones" → name ≠ "all_dns" → lets_read P mc name) →
  (∀ name, name ≠ "zones" → name ≠ "all_dns" → lets_write P rc name) →
  obeys (grows P) (replace_steps send_all args mc rc).
Proof.
  intros Hr Hw.
  apply (obeys_replace_steps (grows P))
    with (readable := lets_read P mc) (writable := lets_write P rc);
    try done.
  - intros e ? ?. by apply grows_emit, P_other.
  - intros name q p H. apply grows_find, H.
  - intros name q H. apply grows_remove, H.
  - intros name d H. apply grows_insert, H.
Qed.

Lemma grows_wrap_up : obeys (grows P) wrap_up.
Proof.
  apply obeys_wrap_up; [apply _|]. intros e ? ?. by apply grows_emit, P_other.
Qed.

End steps_grow.

Lemma after_zones_parts send_all args mc rc zone_list w :
  after_zones send_all args mc rc zone_list w =
  (replace_steps send_all args mc rc;;
   (if send_all || send_dns_records args
    then update_all_dns mc rc zone_list else mret tt);;
   wrap_up) w.
Proof.
  unfold after_zones, replace_steps. fold wrap_up.
  set (ip := if send_all || send_ip_zones args then _ else _).
  set (third := if send_all || send_third_party_zones args then _ else _).
  set (conf := if send_all || send_config args then _ else _).
  set (dns := if send_all || send_dns_records args then _ else _).
  clearbody ip third conf dns. unfold mbind, M_bind, bind.
  destruct (ip w) as [[[]| |] w1]; [|done..].
  destruct (third w1) as [[[]| |] w2]; [|done..].
  by destruct (conf w2) as [[[]| |] w3].
Qed.

(** ** The zone list *)

Lemma for_acc_zone_names (body : document → list value → M (list value)) :
  (∀ zone acc w r w', body zone acc w = (Ok r, w') →
     ∃ z, zone !! "zone" = Some z ∧ r = acc ++ [z]) →
  ∀ zones acc w zone_list w',
    for_acc zones acc body w = (Ok zone_list, w') →
    zone_list = acc ++ zone_names zones.
Proof.
  intros Hbody zones. induction zones as [|zone zones IH]; intros acc w zl w' H.
  - injection H as <- _. by rewrite app_nil_r.
  - simpl in H. apply bind_ok in H as (acc' & w1 & Hb & H).
    apply Hbody in Hb as (z & Hz & ->). apply IH in H as ->.
    unfold zone_names. simpl. rewrite Hz. simpl. by rewrite <- app_assoc.
Qed.

Lemma getitem_ok (d : document) key w v w' :
  getitem d key w = (Ok v, w') → d !! key = Some v ∧ w' = w.
Proof. unfold getitem. destruct (d !! key); by intros [= <- <-]. Qed.

Lemma zones_loop_ok mc rc b zones w zone_list w' :
  zones_loop mc rc b zones w = (Ok zone_list, w') →
  zone_list = zone_names zones.
Proof.
  unfold zones_loop. destruct b; intros H.
  - apply bind_ok in H as ([] & w1 & _ & H).
    eapply for_acc_zone_names in H; [exact H|].
    intros zone acc w0 r w0' Hb.
    apply bind_ok in Hb as ([] & ? & _ & Hb).
    apply bind_ok in Hb as (z & ? & [Hz ->]%getitem_ok & [= <- _]). eauto.
  - eapply for_acc_zone_names in H; [exact H|].
    intros zone acc w0 r w0' Hb.
    apply bind_ok in Hb as (z & ? & [Hz ->]%getitem_ok & [= <- _]). eauto.
Qed.

(** Events away from the destination DNS collection add no zone deletion. *)
Lemma grows_dns_removals w k w' :
  grows (λ e, target e ≠ Some (Remote, "all_dns")) w k w' →
  dns_removals w' = dns_removals w.
Proof.
  intros (evs & Ht & H). unfold dns_removals.
  by rewrite Ht, events_on_app, (events_on_none _ _ _ H), app_nil_r.
Qed.

Section away_from.
Context (s : side) (name : string) (mc rc : connector).
Hypothesis mc_primary : db_side (m_connection mc) = Primary.
Hypothesis rc_remote : db_side (m_connection rc) = Remote.

Abbreviation away := (λ e, target e ≠ Some (s, name)).

Lemma away_other e : is_attempt e = false → is_sleep e = false → away e.
Proof. by destruct e. Qed.

Lemma away_read coll : (s, name) ≠ (Primary, coll) → lets_read away mc coll.
Proof. intros H q p. simpl. rewrite mc_primary. congruence. Qed.

Lemma away_write coll : (s, name) ≠ (Remote, coll) → lets_write away rc coll.
Proof. intros H o. simpl. rewrite rc_remote. congruence. Qed.

End away_from.

Section keeps.
Context {X : Type} (f : world → X).
Hypothesis f_record : ∀ e w, f (record e w) = f w.
Hypothesis f_faults : ∀ s fs w, f (set_faults s fs w) = f w.

Lemma keeps_emit e : obeys (keeps f) (emit e).
Proof. intros w. apply f_record. Qed.

Lemma keeps_raise {A} e : obeys (keeps f) (raise e : M A).
Proof. by intros w. Qed.

Lemma keeps_exit {A} code : obeys (keeps f) (exit code : M A).
Proof. by intros w. Qed.

Lemma keeps_attempt c o : obeys (keeps f) (attempt c o).
Proof.
  intros w. unfold keeps, attempt. rewrite faults_record.
  destruct (faults (db_side (c_db c)) w) as [|[e|] rest]; simpl;
    by rewrite ?f_faults, f_record.
Qed.

Lemma keeps_find c q p : obeys (keeps f) (find c q p).
Proof.
  apply obeys_bind; [apply _|apply keeps_attempt|].
  intros _. apply obeys_gets, _.
Qed.

Lemma keeps_remove c q :
  (∀ docs w, f (set_docs c docs w) = f w) → obeys (keeps f) (remove c q).
Proof.
  intros H. apply obeys_bind; [apply _|apply keeps_attempt|].
  intros _ w. apply H.
Qed.

Lemma keeps_insert c d :
  (∀ docs w, f (set_docs c docs w) = f w) → obeys (keeps f) (insert c d).
Proof.
  intros H. apply obeys_bind; [apply _|apply keeps_attempt|].
  intros _ w. apply H.
Qed.

Lemma keeps_set_up argv : obeys (keeps f) (set_up argv).
Proof.
  apply obeys_set_up; [apply _|..].
  - intros e _ _. apply keeps_emit.
  - intros A e _. apply keeps_raise.
  - intros A code. apply keeps_exit.
Qed.

End keeps.

(** The set-up reads no store and writes none. *)
Lemma set_up_stores argv w :
  primary (snd (set_up argv w)) = primary w
  ∧ remote (snd (set_up argv w)) = remote w.
Proof.
  split.
  - by apply (keeps_set_up primary).
  - by apply (keeps_set_up remote).
Qed.

(** In a run that gets past its set-up, the first operation on a store is the
    read of the zones of the primary store, and no other operation is on
    that collection. *)
Lemma zones_read_first argv args cfg w :
  parse_flags argv = Some args →
  config_files w !! "connector.config" = Some cfg →
  ∃ pre post,
    new_events w (snd (main argv w)) =
      pre ++ EvStore (Collection (Database Primary "") "zones")
               (OpFind ∅ (Some no_id)) :: post
    ∧ Forall (λ e, is_attempt e = false) pre
    ∧ Forall (λ e, target e ≠ Some (Primary, "zones")) post.
Proof.
  intros Hargs Hcfg.
  destruct (set_up_total _ _ _ _ Hargs Hcfg) as (rc & w1 & Hset).
  destruct (set_up_ok _ _ _ _ _ Hargs Hset) as (rc' & [= <-] & Hrc).
  pose proof (grows_set_up (λ e, is_attempt e = false) (λ e H _, H) argv w) as Hpre.
  rewrite Hset in Hpre. destruct Hpre as (pre & Htpre & Hpre). simpl in Htpre.
  rewrite main_parts, bind_run, Hset. cbn beta iota. rewrite mirror_read.
  destruct (find_world (MongoConnector.get_zone_connection primary_connector)
              ∅ (Some no_id) (record (EvLog "Starting Zones..") w1)) as [_ Htfind].
  rewrite trace_record, Htpre in Htfind.
  destruct (find _ _ _ _) as [[zones|e|code] w2]; simpl in Htfind.
  - destruct (obeys_bind (grows (λ e, target e ≠ Some (Primary, "zones")))
                (zones_loop primary_connector rc
                   (bool_decide (length argv = 1%nat) || send_zones args) zones)
                (after_zones (bool_decide (length argv = 1%nat)) args
                   primary_connector rc)) with (w := w2) as (post & Htpost & Hpost).
    + apply grows_zones_loop. intros _. by apply away_write.
    + intros zone_list. apply grows_after_zones.
      * apply away_other.
      * intros name Hname. apply away_read; [done|congruence].
      * intros name Hname. by apply away_write.
    + exists (pre ++ [EvLog "Starting Zones.."]), post. split; [|split; [|done]].
      * apply new_events_app. etrans; [exact Htpost|]. rewrite Htfind.
        by rewrite <- !app_assoc.
      * apply Forall_app. split; [done|]. by apply Forall_singleton.
  - exists (pre ++ [EvLog "Starting Zones.."]), []. split; [|split; [|done]].
    + apply new_events_app. simpl. rewrite Htfind. by rewrite <- !app_assoc.
    + apply Forall_app. split; [done|]. by apply Forall_singleton.
  - exists (pre ++ [EvLog "Starting Zones.."]), []. split; [|split; [|done]].
    + apply new_events_app. simpl. rewrite Htfind. by rewrite <- !app_assoc.
    + apply Forall_app. split; [done|]. by apply Forall_singleton.
Qed.

(** Without zone mirroring, a run neither deletes from nor inserts into the
    destination Zone collection. *)
Lemma zones_untouched argv args w :
  parse_flags argv = Some args →
  bool_decide (length argv = 1%nat) || send_zones args = false →
  events_on Remote "zones" (new_events w (snd (main argv w))) = []
  ∧ remote (snd (main argv w)) !! "zones" = remote w !! "zones".
Proof.
  intros Hargs Hsel. split.
  - apply events_on_none.
    eapply (grows_new_events _ w), (main_obeys _ argv args w Hargs).
    + apply grows_set_up, away_other.
    + intros rc Hrc. apply grows_mirror.
      * apply away_other.
      * intros name. by apply away_read.
      * intros name Hname. apply away_write; [done|congruence].
      * by rewrite Hsel.
  - apply (main_obeys (keeps (λ w, remote w !! "zones")) argv args w Hargs).
    + by apply keeps_set_up.
    + intros rc Hrc.
      assert (∀ s fs w0, remote (set_faults s fs w0) !! "zones" = remote w0 !! "zones")
        as Hfaults by (by intros [] ? ?).
      assert (∀ name, name ≠ "zones" → ∀ docs w0,
                remote (set_docs (Collection (m_connection rc) name) docs w0) !! "zones"
                = remote w0 !! "zones") as Hdocs.
      { intros name Hname docs w0. unfold set_docs. simpl. rewrite Hrc. simpl.
        by rewrite lookup_insert_ne. }
      apply (obeys_mirror (keeps (λ w, remote w !! "zones")))
        with (readable := λ _, True) (writable := λ name, name ≠ "zones");
        try done.
      all: intros;
        first [ apply keeps_raise | by apply keeps_find
              | apply keeps_remove; by auto | apply keeps_insert; by auto
              | by rewrite Hsel in * ].
Qed.

(** The deletions of the loop over the zone names. *)
Lemma mirror_zones_removals mc rc zone_list :
  db_side (m_connection mc) = Primary →
  db_side (m_connection rc) = Remote →
  ∀ w w', for_each zone_list (mirror_zone mc rc) w = (Ok tt, w') →
          dns_removals w' = dns_removals w ++ ((λ z, {[ "zone" := z ]}) <$> zone_list).
Proof.
  intros Hmc Hrc. induction zone_list as [|z zl IH]; intros w w' H; simpl in H.
  - injection H as <-. by rewrite app_nil_r.
  - apply bind_ok in H as ([] & w1 & Hz & H). apply IH in H as ->.
    pose proof Hz as Hz'. apply (mirror_zone_ok mc rc) in Hz' as (_ & _ & Ht).
    apply (mirror_zone_scoped mc rc Hmc Hrc) in Hz as (_ & _ & Hev & _).
    rewrite (new_events_app _ _ _ Ht) in Hev.
    unfold dns_removals at 1. rewrite Ht, events_on_app, Hev, removals_app.
    simpl. rewrite removals_insertions. by rewrite <- app_assoc.
Qed.

(** The DNS step of a run that reached its end deleted, in their order, the
    zones named by the documents the run read from the Zone collection. *)
Lemma dns_follows_zone_list argv args w :
  parse_flags argv = Some args →
  fst (main argv w) = Ok tt →
  removals (events_on Remote "all_dns" (new_events w (snd (main argv w)))) =
  if bool_decide (length argv = 1%nat) || send_dns_records args
  then (λ z, {[ "zone" := z ]}) <$>
         zone_names (delete "_id" <$>
                       docs_of (Collection (Database Primary "") "zones") w)
  else [].
Proof.
  intros Hargs Hok.
  assert (trace (snd (main argv w)) = trace w ++ new_events w (snd (main argv w)))
    as Htrace.
  { eapply (grows_new_events (λ _, True)), (main_obeys _ argv args w Hargs).
    - by apply grows_set_up.
    - intros rc Hrc. by apply grows_mirror. }
  match goal with |- ?lhs = ?rhs =>
    enough (dns_removals (snd (main argv w)) = dns_removals w ++ rhs) as Hdns end.
  { unfold dns_removals in Hdns.
    rewrite Htrace, events_on_app, removals_app in Hdns.
    by apply app_inv_head in Hdns. }
  clear Htrace. destruct (main argv w) as [r w'] eqn:Hmain. simpl in *. subst r.
  rewrite main_parts in Hmain. apply bind_ok in Hmain as (x & w1 & Hset & Hmir).
  destruct (set_up_ok _ _ _ _ _ Hargs Hset) as (rc & -> & Hrc).
  cbn beta iota in Hmir. rewrite mirror_read in Hmir.
  destruct (find _ _ _ _) as [[zones| |] w2] eqn:Hfind; try done.
  apply find_ok in Hfind as (-> & Hs2 & Ht2).
  apply bind_ok in Hmir as (zone_list & w3 & Hloop & Hafter).
  rewrite after_zones_parts in Hafter.
  apply bind_ok in Hafter as ([] & w4 & Hreplace & Hafter).
  apply bind_ok in Hafter as ([] & w5 & Hdns & Hwrap).
  (* the zone list *)
  pose proof Hloop as ->%zones_loop_ok.
  rewrite find_everything, docs_of_record in Hdns.
  assert (docs_of (MongoConnector.get_zone_connection primary_connector) w1
          = docs_of (Collection (Database Primary "") "zones") w) as Hdocs.
  { unfold docs_of. simpl. pose proof (set_up_stores argv w) as [Hp _].
    rewrite Hset in Hp. simpl in Hp. by rewrite Hp. }
  rewrite Hdocs in Hdns.
  (* no deletion before the DNS step *)
  assert (dns_removals w4 = dns_removals w) as H4.
  { pose proof (grows_replace_steps (λ e, target e ≠ Some (Remote, "all_dns"))
                  primary_connector rc (away_other _ _)
                  (bool_decide (length argv = 1%nat)) args) as Hrep.
    specialize (Hrep (λ name _ _, away_read Remote "all_dns" primary_connector eq_refl name ltac:(congruence))).
    specialize (Hrep (λ name _ Hn, away_write Remote "all_dns" rc Hrc name ltac:(congruence)) w3).
    rewrite Hreplace in Hrep. apply grows_dns_removals in Hrep. simpl in Hrep.
    rewrite Hrep.
    epose proof (grows_zones_loop (λ e, target e ≠ Some (Remote, "all_dns"))
                  primary_connector rc _ _
                  (λ _, away_write Remote "all_dns" rc Hrc "zones" ltac:(congruence)) w2) as Hl.
    rewrite Hloop in Hl. apply grows_dns_removals in Hl. simpl in Hl. rewrite Hl.
    assert (grows (λ e, target e ≠ Some (Remote, "all_dns")) w1 Normal w2) as H12.
    { eexists. split; [rewrite Ht2, trace_record, <- app_assoc; reflexivity|].
      by repeat constructor. }
    apply grows_dns_removals in H12. rewrite H12.
    pose proof (grows_set_up (λ e, target e ≠ Some (Remote, "all_dns"))
                  (away_other _ _) argv w) as H01.
    rewrite Hset in H01. by apply grows_dns_removals in H01. }
  (* none after it *)
  assert (dns_removals w' = dns_removals w5) as ->.
  { pose proof (grows_wrap_up (λ e, target e ≠ Some (Remote, "all_dns"))
                  (away_other _ _) w5) as Hw.
    rewrite Hwrap in Hw. by apply grows_dns_removals in Hw. }
  destruct (bool_decide (length argv = 1%nat) || send_dns_records args).
  - rewrite update_all_dns_zones in Hdns. apply logged_ok in Hdns.
    apply (mirror_zones_removals primary_connector rc _ eq_refl Hrc) in Hdns.
    rewrite Hdns.
    assert (dns_removals (record (EvLog "Starting All DNS..") w4) = dns_removals w4)
      as ->.
    { unfold dns_removals. rewrite trace_record, events_on_app.
      rewrite (events_on_none _ _ [EvLog _]) by (by repeat constructor).
      by rewrite app_nil_r. }
    by rewrite H4.
  - injection Hdns as <-. by rewrite H4, app_nil_r.
Qed.

(** C6.  In a run that gets past its set-up, the Zone collection of the
    primary store is read exactly once, and that read is the first operation
    of the run on any store, hence comes before every operation on a DNS
    collection.  The list it yields is the one the DNS step goes through:
    when the run reaches its end, the zone deletions on the destination DNS
    collection are, in their order, those of the zone names just read (and
    there is none when the DNS step is not selected).  When zone mirroring
    is not selected, the run makes no operation at all on the destination
    Zone collection, whose content stays as it was. *)
Theorem zone_list_computed_once argv args cfg w :
  parse_flags argv = Some args →
  config_files w !! "connector.config" = Some cfg →
  (∃ pre post,
     new_events w (snd (main argv w)) =
       pre ++ EvStore (Collection (Database Primary "") "zones")
                (OpFind ∅ (Some no_id)) :: post
     ∧ Forall (λ e, is_attempt e = false) pre
     ∧ Forall (λ e, target e ≠ Some (Primary, "zones")) post)
  ∧ (fst (main argv w) = Ok tt →
     removals (events_on Remote "all_dns" (new_events w (snd (main argv w)))) =
     if bool_decide (length argv = 1%nat) || send_dns_records args
     then (λ z, {[ "zone" := z ]}) <$>
            zone_names (delete "_id" <$>
                          docs_of (Collection (Database Primary "") "zones") w)
     else [])
  ∧ (bool_decide (length argv = 1%nat) || send_zones args = false →
     events_on Remote "zones" (new_events w (snd (main argv w))) = []
     ∧ remote (snd (main argv w)) !! "zones" = remote w !! "zones").
Proof.
  intros Hargs Hcfg. split; [by eapply zones_read_first|]. split.
  - by apply dns_follows_zone_list.
  - by apply zones_untouched.
Qed.

Lemma zone_list_computed_once_witness :
  parse_flags ["send_remote_server.py"; "--send_dns_records"]
  = Some (Args false false false false true)
  ∧ config_files (sample_world []) !! "connector.config" = Some sample_config
  ∧ fst (main ["send_remote_server.py"; "--send_dns_records"] (sample_world []))
    = Ok tt
  ∧ removals (events_on Remote "all_dns"
                (new_events (sample_world [])
                   (snd (main ["send_remote_server.py"; "--send_dns_records"]
                           (sample_world [])))))
    = [ {[ "zone" := VStr "example.com" ]}; {[ "zone" := VStr "example.org" ]} ]
  ∧ remote (snd (main ["send_remote_server.py"; "--send_dns_records"]
                   (sample_world []))) !! "zones"
    = Some [stale_com].
Proof.
  assert (fst (main ["send_remote_server.py"; "--send_dns_records"] (sample_world []))
          = Ok tt) as Hok by (by vm_compute).
  split; [reflexivity|]. split; [reflexivity|]. split; [exact Hok|].
  destruct (zone_list_computed_once
              ["send_remote_server.py"; "--send_dns_records"]
              (Args false false false false true) sample_config (sample_world [])
              eq_refl eq_refl) as (_ & Hdns & Hzones).
  split.
  - rewrite (Hdns Hok). by vm_compute.
  - destruct (Hzones eq_refl) as [_ ->]. reflexivity.
Defined.

(** ** Reads of the primary store are not retried *)

Lemma fails_fast_quiet {A} (m : M A) :
  (∀ w s, faults s (snd (m w)) = faults s w) → obeys fails_fast m.
Proof. intros H w s. exists []. rewrite H. split; [done|]. by left. Qed.

Lemma fails_fast_attempt c o : obeys fails_fast (attempt c o).
Proof.
  intros w s. unfold attempt. rewrite faults_record.
  destruct (decide (s = db_side (c_db c))) as [->|Hs].
  - destruct (faults (db_side (c_db c)) w) as [|[e|] rest] eqn:Hf; simpl.
    + exists []. rewrite faults_record, Hf. split; [done|]. by left.
    + exists [Some e]. rewrite faults_set_faults, decide_True by done.
      split; [done|]. right. by exists e, [].
    + exists [None]. rewrite faults_set_faults, decide_True by done.
      split; [done|]. left. by repeat constructor.
  - exists []. split; [|by left]. simpl.
    destruct (faults (db_side (c_db c)) w) as [|[e|] rest]; simpl;
      by rewrite ?faults_set_faults, ?decide_False, faults_record by done.
Qed.

Lemma fails_fast_find c q p : obeys fails_fast (find c q p).
Proof.
  apply obeys_bind; [apply _|apply fails_fast_attempt|].
  intros _. by apply fails_fast_quiet.
Qed.

Lemma fails_fast_remove c q : obeys fails_fast (remove c q).
Proof.
  apply obeys_bind; [apply _|apply fails_fast_attempt|].
  intros _. apply fails_fast_quiet. intros w s. apply faults_set_docs.
Qed.

Lemma fails_fast_insert c d : obeys fails_fast (insert c d).
Proof.
  apply obeys_bind; [apply _|apply fails_fast_attempt|].
  intros _. apply fails_fast_quiet. intros w s. apply faults_set_docs.
Qed.

Lemma fails_fast_main argv args w :
  parse_flags argv = Some args →
  fails_fast w (ending_of (fst (main argv w))) (snd (main argv w)).
Proof.
  intros Hargs. apply (main_obeys fails_fast argv args w Hargs).
  - apply obeys_set_up; [apply _|..]; intros; apply fails_fast_quiet;
      intros w0 s; apply faults_record || done.
  - intros rc Hrc.
    apply (obeys_mirror fails_fast) with (readable := λ _, True) (writable := λ _, True);
      try done; intros;
      first [ apply fails_fast_find | apply fails_fast_remove
            | apply fails_fast_insert
            | apply fails_fast_quiet; intros w0 s; apply faults_record || done ].
Qed.

Lemma no_sleep_in_main argv args w :
  parse_flags argv = Some args →
  sleeps (new_events w (snd (main argv w))) = 0%nat.
Proof.
  intros Hargs. unfold sleeps.
  rewrite filter_none; [done|]. intros e He.
  assert (Forall (λ e, is_sleep e = false) (new_events w (snd (main argv w)))) as H.
  { eapply (grows_new_events _ w), (main_obeys _ argv args w Hargs).
    - by apply grows_set_up.
    - intros rc Hrc. by apply grows_mirror. }
  rewrite (proj1 (Forall_forall _ _) H e He). by intros [].
Qed.

(** A set-up that returns has read its configuration file. *)
Lemma set_up_returns argv args w :
  parse_flags argv = Some args →
  ending_of (fst (set_up argv w)) = Normal →
  ∃ cfg, config_files w !! "connector.config" = Some cfg.
Proof.
  intros Hargs Hok.
  destruct (config_files w !! "connector.config") as [cfg|] eqn:Hcfg; [by exists cfg|].
  exfalso.
  pose proof (missing_config_exit "" false
                (record (EvLog "Starting...")
                   (record (EvPrint ("Starting: " +:+ now w)) w))) as Hinit.
  rewrite bool_decide_eq_false_2 in Hinit by (by intros []).
  specialize (Hinit Hcfg).
  revert Hok. unfold set_up, parse_args. rewrite Hargs.
  rewrite bind_run. cbn [gets]. cbn beta iota.
  rewrite bind_run. cbn [print emit modify]. cbn beta iota.
  rewrite bind_run. cbn [logger_info emit modify]. cbn beta iota.
  rewrite bind_run. cbn [mret M_ret ret]. cbn beta iota.
  rewrite bind_run. cbn [MongoConnector.__init__ mret M_ret ret]. cbn beta iota.
  by rewrite bind_run, Hinit.
Qed.

(** A failure of the first read ends the run on the spot. *)
Lemma first_read_failure argv args cfg w e rest :
  parse_flags argv = Some args →
  config_files w !! "connector.config" = Some cfg →
  primary_faults w = Some e :: rest →
  fst (main argv w) = Raise e
  ∧ attempts (new_events w (snd (main argv w))) = 1%nat.
Proof.
  intros Hargs Hcfg Hf.
  destruct (set_up_total _ _ _ _ Hargs Hcfg) as (rc & w1 & Hset).
  pose proof (grows_set_up (λ e, is_attempt e = false) (λ e H _, H) argv w) as Hpre.
  rewrite Hset in Hpre. destruct Hpre as (pre & Htpre & Hpre). simpl in Htpre.
  pose proof (keeps_set_up primary_faults (λ _ _, eq_refl) argv w) as Hfaults.
  rewrite Hset in Hfaults. unfold keeps in Hfaults. simpl in Hfaults.
  rewrite main_parts, bind_run, Hset. cbn beta iota. rewrite mirror_read.
  unfold find. rewrite bind_run.
  rewrite (attempt_fails _ _ _ e rest) by (simpl; by rewrite Hfaults).
  cbn beta iota. split; [done|]. cbn [snd].
  erewrite new_events_app; [|rewrite trace_set_faults, !trace_record, Htpre,
                              <- !app_assoc; reflexivity].
  rewrite attempts_app. unfold attempts at 1.
  rewrite filter_none; [done|]. intros e0 He0.
  rewrite (proj1 (Forall_forall _ _) Hpre e0 He0). by intros [].
Qed.

(** A failure of the first read ends the run before anything is written. *)
Lemma first_read_failure_stores argv args cfg w e rest :
  parse_flags argv = Some args →
  config_files w !! "connector.config" = Some cfg →
  primary_faults w = Some e :: rest →
  primary (snd (main argv w)) = primary w
  ∧ remote (snd (main argv w)) = remote w
  ∧ remote_faults (snd (main argv w)) = remote_faults w.
Proof.
  intros Hargs Hcfg Hf.
  destruct (set_up_total _ _ _ _ Hargs Hcfg) as (rc & w1 & Hset).
  pose proof (set_up_stores argv w) as [Hp Hr]. rewrite Hset in Hp, Hr.
  pose proof (keeps_set_up primary_faults (λ _ _, eq_refl) argv w) as Hfaults.
  rewrite Hset in Hfaults. unfold keeps in Hfaults.
  pose proof (keeps_set_up remote_faults (λ _ _, eq_refl) argv w) as Hrfaults.
  rewrite Hset in Hrfaults. unfold keeps in Hrfaults.
  simpl in Hp, Hr, Hfaults, Hrfaults.
  rewrite main_parts, bind_run, Hset. cbn beta iota. rewrite mirror_read.
  unfold find. rewrite bind_run.
  rewrite (attempt_fails _ _ _ e rest) by (simpl; by rewrite Hfaults).
  cbn beta iota. cbn [snd]. done.
Qed.

(** One transient disconnect on the first read of a run that does not
    mirror the zones ends the run, after a single attempt, no delay and no
    change to the remote store, whereas the executor, given a read of the
    same collection in the same world, retries it and returns its result. *)
Lemma direct_read_is_not_retried :
  primary_faults (sample_world [Some AutoReconnect]) = [Some AutoReconnect]
  ∧ fst (main ["send_remote_server.py"; "--send_dns_records"]
           (sample_world [Some AutoReconnect]))
    = Raise AutoReconnect
  ∧ filter is_attempt
      (new_events (sample_world [Some AutoReconnect])
         (snd (main ["send_remote_server.py"; "--send_dns_records"]
                 (sample_world [Some AutoReconnect]))))
    = [EvStore primary_zones (OpFind ∅ (Some no_id))]
  ∧ sleeps
      (new_events (sample_world [Some AutoReconnect])
         (snd (main ["send_remote_server.py"; "--send_dns_records"]
                 (sample_world [Some AutoReconnect]))))
    = 0%nat
  ∧ remote (snd (main ["send_remote_server.py"; "--send_dns_records"]
                   (sample_world [Some AutoReconnect])))
    = sample_remote
  ∧ fst (RemoteMongoConnector.perform_count remote_connector primary_zones ∅
           (sample_world [Some AutoReconnect]))
    = Ok 2%Z
  ∧ sleeps
      (new_events (sample_world [Some AutoReconnect])
         (snd (RemoteMongoConnector.perform_count remote_connector primary_zones ∅
                 (sample_world [Some AutoReconnect]))))
    = 1%nat.
Proof. by vm_compute. Qed.

(** C2, amended.  The steps of a mirror run read the primary store by calling
    [find] on the collection handle itself, never through the executor.  So
    nothing is retried: on either server, the operations of a run all go
    through at their first attempt, unless one raises, which ends the run
    with that exception; no run ever waits before a new attempt.  In
    particular, in a run that is past its set-up and does not mirror the
    zones, so that its first store operation is the read of the zones, a
    failure of that read, be it a transient disconnect, ends the run with
    that exception after that one attempt, whatever the remote server would
    do, and nothing has been written. *)
Theorem mirror_reads_are_direct argv args w :
  parse_flags argv = Some args →
  fails_fast w (ending_of (fst (main argv w))) (snd (main argv w))
  ∧ sleeps (new_events w (snd (main argv w))) = 0%nat
  ∧ (ending_of (fst (set_up argv w)) = Normal →
     bool_decide (length argv = 1%nat) || send_zones args = false →
     ∀ e rest, primary_faults w = Some e :: rest →
       fst (main argv w) = Raise e
       ∧ attempts (new_events w (snd (main argv w))) = 1%nat
       ∧ primary (snd (main argv w)) = primary w
       ∧ remote (snd (main argv w)) = remote w
       ∧ remote_faults (snd (main argv w)) = remote_faults w).
Proof.
  intros Hargs. split; [by apply (fails_fast_main argv args)|].
  split; [by apply (no_sleep_in_main argv args)|].
  intros Hset _ e rest Hf.
  destruct (set_up_returns argv args w Hargs Hset) as (cfg & Hcfg).
  destruct (first_read_failure argv args cfg w e rest Hargs Hcfg Hf) as [Hr Ha].
  split; [done|]. split; [done|].
  by apply (first_read_failure_stores argv args cfg w e rest).
Qed.

Lemma mirror_reads_are_direct_witness :
  parse_flags ["send_remote_server.py"; "--send_dns_records"]
  = Some (Args false false false false true)
  ∧ ending_of (fst (set_up ["send_remote_server.py"; "--send_dns_records"]
                      (sample_world [Some AutoReconnect]))) = Normal
  ∧ bool_decide (length ["send_remote_server.py"; "--send_dns_records"] = 1%nat)
    || send_zones (Args false false false false true) = false
  ∧ primary_faults (sample_world [Some AutoReconnect]) = Some AutoReconnect :: []
  ∧ sleeps (new_events (sample_world [Some AutoReconnect])
              (snd (main ["send_remote_server.py"; "--send_dns_records"]
                      (sample_world [Some AutoReconnect])))) = 0%nat
  ∧ fst (main ["send_remote_server.py"; "--send_dns_records"]
           (sample_world [Some AutoReconnect])) = Raise AutoReconnect
  ∧ attempts (new_events (sample_world [Some AutoReconnect])
                (snd (main ["send_remote_server.py"; "--send_dns_records"]
                        (sample_world [Some AutoReconnect])))) = 1%nat.
Proof.
  split; [reflexivity|]. split; [reflexivity|]. split; [reflexivity|].
  split; [reflexivity|].
  destruct (mirror_reads_are_direct
              ["send_remote_server.py"; "--send_dns_records"]
              (Args false false false false true)
              (sample_world [Some AutoReconnect]) eq_refl)
    as (_ & Hsleeps & Hfirst).
  split; [exact Hsleeps|].
  destruct (Hfirst eq_refl eq_refl AutoReconnect [] eq_refl) as (Hrun & Hattempts & _).
  split; [exact Hrun|exact Hattempts].
Defined.

(** * More of the code *)

(** ** The executor, whatever the schedule of the server *)

Lemma delays_failed_tries c o k :
  filter is_sleep (mjoin (replicate k (failed_try c o))) = replicate k (EvSleep 5).
Proof.
  induction k as [|k IH]; [done|].
  change (filter is_sleep (failed_try c o ++ mjoin (replicate k (failed_try c o)))
          = EvSleep 5 :: replicate k (EvSleep 5)).
  by rewrite filter_app, IH.
Qed.

Lemma store_finished c o s' k fs w :
  store s' (set_faults (db_side (c_db c)) fs
              (record (EvStore c o) (after_failures c o k w))) = store s' w.
Proof. by rewrite store_set_faults, store_record, store_after_failures. Qed.

Lemma faults_elsewhere_after_failures c o s' k : ∀ w,
  s' ≠ db_side (c_db c) → faults s' (after_failures c o k w) = faults s' w.
Proof.
  induction k as [|k IH]; intros w Hs; [done|]. simpl.
  rewrite IH by done.
  by rewrite !faults_record, faults_set_faults, decide_False, faults_record.
Qed.

Lemma faults_elsewhere_finished c o s' k fs w :
  s' ≠ db_side (c_db c) →
  faults s' (set_faults (db_side (c_db c)) fs
               (record (EvStore c o) (after_failures c o k w))) = faults s' w.
Proof.
  intros Hs.
  by rewrite faults_set_faults, decide_False, faults_record,
    faults_elsewhere_after_failures.
Qed.

Lemma Forall_failed_tries (P : event → Prop) c o k :
  Forall P (failed_try c o) → Forall P (mjoin (replicate k (failed_try c o))).
Proof.
  intros H. induction k as [|k IH]; [constructor|].
  change (Forall P (failed_try c o ++ mjoin (replicate k (failed_try c o)))).
  by apply Forall_app.
Qed.

(** X1.  A read of the executor whose first [k] attempts fail with a
    transient disconnect, for any [k] up to five, and whose next attempt goes
    through, returns the answer of the collection after [k + 1] attempts and
    [k] delays of 5 seconds; with [k = 0] it is one attempt, no message and
    no delay.  The schedule has lost the entries of these attempts and the
    stores are as they were. *)
Theorem read_survives_transient_failures self c req k w rest :
  faults (db_side (c_db c)) w = replicate k (Some AutoReconnect) ++ rest →
  (k <= 5)%nat →
  (∀ e, head rest ≠ Some (Some e)) →
  ∃ w', perform self c req w = (Ok (answer_of req (docs_of c w)), w')
    ∧ new_events w w' =
        mjoin (replicate k (failed_try c (op_of req))) ++ [EvStore c (op_of req)]
    ∧ attempts (new_events w w') = S k
    ∧ filter is_sleep (new_events w w') = replicate k (EvSleep 5)
    ∧ faults (db_side (c_db c)) w' = tail rest
    ∧ primary w' = primary w ∧ remote w' = remote w.
Proof.
  intros Hf Hk Hrest. eexists.
  split; [by apply (perform_succeeds self c req k w rest)|].
  rewrite events_finished. split; [done|].
  split; [rewrite attempts_app, attempts_failed_tries; unfold attempts; simpl; lia|].
  split; [rewrite filter_app, delays_failed_tries; apply app_nil_r|].
  split; [by rewrite faults_set_faults, decide_True|].
  split; [apply (store_finished c _ Primary)|apply (store_finished c _ Remote)].
Qed.

Lemma read_survives_transient_failures_witness :
  faults Primary (sample_world [Some AutoReconnect; Some AutoReconnect; None; Some AutoReconnect])
  = replicate 2 (Some AutoReconnect) ++ [None; Some AutoReconnect]
  ∧ (2 <= 5)%nat
  ∧ (∀ e, head [None; Some AutoReconnect] ≠ Some (Some e))
  ∧ fst (perform remote_connector primary_zones (ReqDistinct "zone" None)
           (sample_world [Some AutoReconnect; Some AutoReconnect; None; Some AutoReconnect]))
    = Ok (AnsValues [VStr "example.com"; VStr "example.org"])
  ∧ faults Primary
      (snd (perform remote_connector primary_zones (ReqDistinct "zone" None)
              (sample_world [Some AutoReconnect; Some AutoReconnect; None; Some AutoReconnect])))
    = [Some AutoReconnect].
Proof.
  split; [reflexivity|]. split; [lia|]. split; [intros e; discriminate|].
  destruct (read_survives_transient_failures remote_connector primary_zones
              (ReqDistinct "zone" None) 2
              (sample_world [Some AutoReconnect; Some AutoReconnect; None; Some AutoReconnect])
              [None; Some AutoReconnect])
    as (w' & Hrun & _ & _ & _ & Hfaults & _).
  - reflexivity.
  - lia.
  - intros e; discriminate.
  - rewrite Hrun. split; [reflexivity|exact Hfaults].
Defined.

(** X2.  An error of the store that is not a transient disconnect is never
    retried: when it follows [k] transient failures, for any [k] up to five,
    the read raises that very error after [k + 1] attempts and [k] delays,
    prints no message of its own about it and takes nothing more from the
    schedule. *)
Theorem other_errors_are_not_retried self c req k w e rest :
  faults (db_side (c_db c)) w = replicate k (Some AutoReconnect) ++ Some e :: rest →
  (k <= 5)%nat →
  e ≠ AutoReconnect →
  ∃ w', perform self c req w = (Raise e, w')
    ∧ new_events w w' =
        mjoin (replicate k (failed_try c (op_of req))) ++ [EvStore c (op_of req)]
    ∧ attempts (new_events w w') = S k
    ∧ filter is_sleep (new_events w w') = replicate k (EvSleep 5)
    ∧ (giving_up ∉ new_events w w')
    ∧ faults (db_side (c_db c)) w' = rest
    ∧ primary w' = primary w ∧ remote w' = remote w.
Proof.
  intros Hf Hk He. eexists.
  split; [by apply (perform_propagates self c req k w e rest)|].
  rewrite events_finished. split; [done|].
  split; [rewrite attempts_app, attempts_failed_tries; unfold attempts; simpl; lia|].
  split; [rewrite filter_app, delays_failed_tries; apply app_nil_r|].
  split.
  { rewrite elem_of_app, list_elem_of_singleton. intros [Hin|]; [|done].
    assert (Forall (λ x, x ≠ giving_up)
              (mjoin (replicate k (failed_try c (op_of req))))) as HP.
    { apply Forall_failed_tries. by repeat constructor. }
    rewrite Forall_forall in HP. by apply (HP _ Hin). }
  split; [by rewrite faults_set_faults, decide_True|].
  split; [apply (store_finished c _ Primary)|apply (store_finished c _ Remote)].
Qed.

Lemma other_errors_are_not_retried_witness :
  faults Primary (sample_world [Some (OperationFailure "not authorized"); None])
  = replicate 0 (Some AutoReconnect) ++ Some (OperationFailure "not authorized") :: [None]
  ∧ (0 <= 5)%nat
  ∧ OperationFailure "not authorized" ≠ AutoReconnect
  ∧ fst (perform remote_connector primary_zones (ReqFindOne ∅ None)
           (sample_world [Some (OperationFailure "not authorized"); None]))
    = Raise (OperationFailure "not authorized")
  ∧ new_events (sample_world [Some (OperationFailure "not authorized"); None])
      (snd (perform remote_connector primary_zones (ReqFindOne ∅ None)
              (sample_world [Some (OperationFailure "not authorized"); None])))
    = [EvStore primary_zones (OpFindOne ∅ None)].
Proof.
  split; [reflexivity|]. split; [lia|]. split; [discriminate|].
  destruct (other_errors_are_not_retried remote_connector primary_zones
              (ReqFindOne ∅ None) 0
              (sample_world [Some (OperationFailure "not authorized"); None])
              (OperationFailure "not authorized") [None])
    as (w' & Hrun & Hevs & _).
  - reflexivity.
  - lia.
  - discriminate.
  - rewrite Hrun. split; [reflexivity|exact Hevs].
Defined.

(** The three ways a read of the executor can end, with the world it
    leaves: after [k] retried attempts, the last attempt went through or
    raised another error, or it was the sixth transient failure. *)
Lemma perform_ends self c req w :
  ∃ k fs,
    snd (perform self c req w) =
      set_faults (db_side (c_db c)) fs
        (record (EvStore c (op_of req)) (after_failures c (op_of req) k w))
    ∨ snd (perform self c req w) =
      record giving_up
        (set_faults (db_side (c_db c)) fs
           (record (EvStore c (op_of req)) (after_failures c (op_of req) k w))).
Proof.
  destruct (leading_failures (faults (db_side (c_db c)) w)) as (k & rest & Hf & Hrest).
  destruct (decide (k <= 5)%nat) as [Hk|Hk].
  - destruct rest as [|[e|] rest'].
    + exists k, (tail []). left.
      by rewrite (perform_succeeds self c req k w [] Hf Hk).
    + exists k, rest'. left.
      rewrite (perform_propagates self c req k w e rest' Hf Hk); [done|].
      simpl in Hrest. congruence.
    + exists k, (tail (None :: rest')). left.
      by rewrite (perform_succeeds self c req k w (None :: rest') Hf Hk).
  - assert (faults (db_side (c_db c)) w = replicate 6 (Some AutoReconnect)
                         ++ (replicate (k - 6) (Some AutoReconnect) ++ rest)) as Hf6.
    { rewrite Hf, app_assoc, <- replicate_add. do 2 f_equal. lia. }
    eexists 5%nat, _. right.
    by rewrite (perform_exhausted self c req w _ Hf6).
Qed.

(** X3.  The reads of the executor are reads: however the server behaves
    and however the read ends, the two stores hold what they held, the
    schedule of the other server is not consumed, and nothing is recorded
    but attempts of this one operation on this one collection, the
    warnings, the delays of 5 seconds and the last message. *)
Theorem reads_never_write self c req w :
  primary (snd (perform self c req w)) = primary w
  ∧ remote (snd (perform self c req w)) = remote w
  ∧ (∀ s, s ≠ db_side (c_db c) →
       faults s (snd (perform self c req w)) = faults s w)
  ∧ Forall (λ e, e ∈ [EvStore c (op_of req); warning; EvSleep 5; giving_up])
      (new_events w (snd (perform self c req w))).
Proof.
  assert (Forall (λ e, e ∈ [EvStore c (op_of req); warning; EvSleep 5; giving_up])
            (failed_try c (op_of req))) as Hft.
  { unfold failed_try. repeat constructor. }
  destruct (perform_ends self c req w) as (k & fs & [-> | ->]).
  - split; [apply (store_finished c _ Primary)|].
    split; [apply (store_finished c _ Remote)|].
    split; [intros s Hs; by apply faults_elsewhere_finished|].
    rewrite events_finished. apply Forall_app. split.
    + by apply Forall_failed_tries.
    + repeat constructor.
  - split; [etrans; [apply (store_record Primary)|apply (store_finished c _ Primary)]|].
    split; [etrans; [apply (store_record Remote)|apply (store_finished c _ Remote)]|].
    split; [intros s Hs; rewrite faults_record; by apply faults_elsewhere_finished|].
    apply Forall_forall. intros e He.
    assert (trace (record giving_up
                     (set_faults (db_side (c_db c)) fs
                        (record (EvStore c (op_of req))
                           (after_failures c (op_of req) k w))))
            = trace w ++ (mjoin (replicate k (failed_try c (op_of req)))
                          ++ [EvStore c (op_of req); giving_up])) as Ht.
    { rewrite trace_record, trace_set_faults, trace_record, trace_after_failures.
      by rewrite <- !app_assoc. }
    rewrite (new_events_app _ _ _ Ht) in He.
    apply elem_of_app in He as [He|He].
    + pose proof (Forall_failed_tries _ c (op_of req) k Hft) as HP.
      rewrite Forall_forall in HP. by apply HP.
    + apply elem_of_cons in He as [->|He]; [set_solver|].
      apply list_elem_of_singleton in He as ->. set_solver.
Qed.

(** ** The constructor of the remote connector *)

Lemma prints_app msgs1 msgs2 w :
  prints (msgs1 ++ msgs2) w = prints msgs2 (prints msgs1 w).
Proof. apply foldl_app. Qed.

Lemma trace_prints msgs : ∀ w, trace (prints msgs w) = trace w ++ (EvPrint <$> msgs).
Proof.
  induction msgs as [|msg msgs IH]; intros w; simpl; [by rewrite app_nil_r|].
  change (trace (prints msgs (record (EvPrint msg) w))
          = trace w ++ EvPrint msg :: (EvPrint <$> msgs)).
  rewrite IH, trace_record. by rewrite <- app_assoc.
Qed.

Lemma prints_world msgs : ∀ w,
  primary (prints msgs w) = primary w ∧ remote (prints msgs w) = remote w
  ∧ primary_faults (prints msgs w) = primary_faults w
  ∧ remote_faults (prints msgs w) = remote_faults w
  ∧ config_files (prints msgs w) = config_files w
  ∧ now (prints msgs w) = now w.
Proof.
  induction msgs as [|msg msgs IH]; intros w; [done|].
  change (prints (msg :: msgs) w) with (prints msgs (record (EvPrint msg) w)).
  destruct (IH (record (EvPrint msg) w)) as (-> & -> & -> & -> & -> & ->). done.
Qed.

(** A lookup of type str in the section of the remote store returns the
    setting, after the warnings of a failed lookup if any. *)
Lemma get_setting_str cfg key w :
  ∃ msgs, RemoteMongoConnector._get_config_setting cfg "RemoteMongoDB" key "str" w
          = (Ok (VStr (setting cfg key)), prints msgs w).
Proof.
  unfold RemoteMongoConnector._get_config_setting, setting. simpl.
  destruct (config_get cfg "RemoteMongoDB" key) as [[sec|k|msg|raw]|s] eqn:Hget;
    simpl.
  - by exists ["Warning: RemoteMongoDB does not exist in config file"].
  - by exists ["Warning: " +:+ key +:+ " does not exist in the config file"].
  - by exists ["Warning: Unexpected error with config file"; msg].
  - exfalso. unfold config_get in Hget.
    destruct (cfg !! "RemoteMongoDB") as [options|]; [|done].
    destruct (options !! key) as [[?|?]|]; done.
  - by exists [].
Qed.

(** What [_init_mongo_connection] does, on every file. *)
Lemma init_connection_run cfg w :
  ∃ msgs,
    RemoteMongoConnector._init_mongo_connection cfg w =
    (Ok (Database Remote (from_1 (setting cfg "mongo.path"))),
     record
       (EvMongoClient
          (if bool_decide (setting cfg "mongo.username" ≠ "")
              && bool_decide (setting cfg "mongo.password" ≠ "")
           then setting cfg "mongo.protocol" +:+ setting cfg "mongo.username"
                +:+ ":" +:+ setting cfg "mongo.password" +:+ "@"
                +:+ setting cfg "mongo.host" +:+ setting cfg "mongo.path"
           else setting cfg "mongo.protocol" +:+ setting cfg "mongo.host"
                +:+ setting cfg "mongo.path")
          (if bool_decide (setting cfg "mongo.ca_cert" ≠ "")
           then Some (setting cfg "mongo.ca_cert") else None))
       (prints msgs w)).
Proof.
  unfold RemoteMongoConnector._init_mongo_connection.
  destruct (get_setting_str cfg "mongo.protocol" w) as (m1 & H1).
  destruct (get_setting_str cfg "mongo.host" (prints m1 w)) as (m2 & H2).
  destruct (get_setting_str cfg "mongo.path" (prints m2 (prints m1 w))) as (m3 & H3).
  destruct (get_setting_str cfg "mongo.username"
              (prints m3 (prints m2 (prints m1 w)))) as (m4 & H4).
  destruct (get_setting_str cfg "mongo.password"
              (prints m4 (prints m3 (prints m2 (prints m1 w))))) as (m5 & H5).
  destruct (get_setting_str cfg "mongo.ca_cert"
              (prints m5 (prints m4 (prints m3 (prints m2 (prints m1 w))))))
    as (m6 & H6).
  exists (m1 ++ m2 ++ m3 ++ m4 ++ m5 ++ m6).
  rewrite bind_run, H1, bind_run, H2, bind_run, H3, bind_run, H4, bind_run, H5,
    bind_run, H6.
  rewrite !prints_app.
  unfold RemoteMongoConnector.connection_string. cbn [str_of].
  assert (∀ s, bool_decide (VStr s ≠ VStr "") = bool_decide (s ≠ "")) as Hne.
  { intros s. apply bool_decide_ext. split; intros H ?; apply H; congruence. }
  rewrite !Hne.
  by destruct (bool_decide (setting cfg "mongo.ca_cert" ≠ "")).
Qed.

(** ** The zones step *)

Lemma docs_of_held c w : docs_of c w = held (db_side (c_db c)) (c_name c) w.
Proof. reflexivity. Qed.

Lemma zone_names_cons (d : document) docs :
  zone_names (d :: docs) =
  match d !! "zone" with
  | Some z => z :: zone_names docs
  | None => zone_names docs
  end.
Proof. reflexivity. Qed.

Lemma zone_names_delete_id (docs : list document) :
  zone_names (delete "_id" <$> docs) = zone_names docs.
Proof.
  induction docs as [|d docs IH]; [done|].
  rewrite fmap_cons, !zone_names_cons, IH. by rewrite lookup_delete_ne.
Qed.

Lemma named_delete_id (d : document) : named (delete "_id" d) ↔ named d.
Proof. unfold named. by rewrite lookup_delete_ne. Qed.

Lemma zone_names_named (docs : list document) :
  Forall named docs → length (zone_names docs) = length docs.
Proof.
  induction 1 as [|d docs [z Hz] _ IH]; [done|].
  rewrite zone_names_cons, Hz. simpl. by rewrite IH.
Qed.

Lemma zone_names_app (docs1 docs2 : list document) :
  zone_names (docs1 ++ docs2) = zone_names docs1 ++ zone_names docs2.
Proof. apply omap_app. Qed.

Section zones_step.
Context (mc rc : connector).
Hypothesis mc_primary : db_side (m_connection mc) = Primary.
Hypothesis rc_remote : db_side (m_connection rc) = Remote.

Abbreviation zones_src := (Collection (m_connection mc) "zones").
Abbreviation zones_dst := (Collection (m_connection rc) "zones").

(** The loop that mirrors the zone documents and collects their names. *)
Lemma mirror_loop_ok zones : ∀ acc w zone_list w',
  for_acc zones acc (λ zone zone_list,
    insert zones_dst zone;;
    z ← getitem zone "zone";
    mret (zone_list ++ [z])) w = (Ok zone_list, w') →
  zone_list = acc ++ zone_names zones
  ∧ Forall named zones
  ∧ docs_of zones_dst w' = docs_of zones_dst w ++ zones
  ∧ frame zones_dst w w'.
Proof.
  induction zones as [|zone zones IH]; intros acc w zl w' H; simpl in H.
  - injection H as <- <-. split; [by rewrite app_nil_r|].
    split; [constructor|]. split; [by rewrite app_nil_r|]. by intros s name _.
  - apply bind_ok in H as (acc' & w1 & Hb & H).
    apply bind_ok in Hb as ([] & w0 & Hins & Hb).
    apply bind_ok in Hb as (z & ? & [Hz ->]%getitem_ok & [= <- <-]).
    apply insert_ok in Hins as (Hd & Hfr & _).
    apply IH in H as (-> & Hnamed & Hd' & Hfr').
    split; [|split; [|split]].
    + unfold zone_names. simpl. rewrite Hz. simpl. by rewrite <- app_assoc.
    + constructor; [by exists z|done].
    + by rewrite Hd', Hd, <- app_assoc.
    + by apply (frame_trans _ _ w0).
Qed.

(** The loop that only collects the names. *)
Lemma names_loop_ok zones : ∀ acc w zone_list w',
  for_acc zones acc (λ zone zone_list,
    z ← getitem zone "zone";
    mret (zone_list ++ [z])) w = (Ok zone_list, w') →
  zone_list = acc ++ zone_names zones ∧ Forall named zones ∧ w' = w.
Proof.
  induction zones as [|zone zones IH]; intros acc w zl w' H; simpl in H.
  - injection H as <- <-. split; [by rewrite app_nil_r|].
    split; [constructor|done].
  - apply bind_ok in H as (acc' & w1 & Hb & H).
    apply bind_ok in Hb as (z & ? & [Hz ->]%getitem_ok & [= <- <-]).
    apply IH in H as (-> & Hnamed & ->).
    split; [|split; [|done]].
    + unfold zone_names. simpl. rewrite Hz. simpl. by rewrite <- app_assoc.
    + constructor; [by exists z|done].
Qed.

Lemma update_zones_ok b w zone_list w' :
  update_zones mc rc b w = (Ok zone_list, w') →
  zone_list = zone_names (docs_of zones_src w)
  ∧ Forall named (docs_of zones_src w)
  ∧ primary w' = primary w
  ∧ (if b
     then docs_of zones_dst w' = delete "_id" <$> docs_of zones_src w
          ∧ frame zones_dst w w'
     else remote w' = remote w).
Proof.
  intros H. rewrite update_zones_parts in H. apply logged_ok in H.
  apply bind_ok in H as (zones & w1 & Hfind & H).
  apply find_ok in Hfind as (-> & Hs1 & _).
  rewrite find_everything, docs_of_record in H. simpl in H.
  change (MongoConnector.get_zone_connection mc) with zones_src in H.
  unfold zones_loop in H. destruct b.
  - apply bind_ok in H as ([] & w2 & Hrm & H).
    change (RemoteMongoConnector.get_zone_connection rc) with zones_dst in Hrm, H.
    apply remove_ok in Hrm as (Hd2 & Hfr2 & _).
    apply mirror_loop_ok in H as (-> & Hnamed & Hd & Hfr).
    assert (frame zones_dst w w') as Hframe.
    { apply (frame_trans _ _ w1).
      - apply frame_stores. intros s. by rewrite Hs1, store_record.
      - by apply (frame_trans _ _ w2). }
    rewrite zone_names_delete_id in *. split; [done|].
    split; [|split; [|split; [|done]]].
    + rewrite Forall_fmap in Hnamed. eapply Forall_impl; [exact Hnamed|].
      intros d. by apply named_delete_id.
    + by apply (frame_primary zones_dst).
    + by rewrite Hd, Hd2, remove_everything.
  - apply names_loop_ok in H as (-> & Hnamed & ->).
    rewrite zone_names_delete_id. split; [done|].
    split; [|split].
    + rewrite Forall_fmap in Hnamed. eapply Forall_impl; [exact Hnamed|].
      intros d. by apply named_delete_id.
    + etrans; [apply (Hs1 Primary)|apply (store_record Primary)].
    + etrans; [apply (Hs1 Remote)|apply (store_record Remote)].
Qed.

End zones_step.

(** X7.  The zones step, when it completes.  The list it returns holds the
    zone names of the documents of the primary Zone collection, in their
    order, one for each document, whichever mode it runs in; the primary
    store is as it was.  In mirror mode the destination Zone collection
    holds the documents of the primary one, without their identifiers, and no
    other collection has changed; in list mode the remote store is as it
    was. *)
Theorem zones_step_correct mc rc b w zone_list w' :
  db_side (m_connection mc) = Primary →
  db_side (m_connection rc) = Remote →
  update_zones mc rc b w = (Ok zone_list, w') →
  zone_list = zone_names (held Primary "zones" w)
  ∧ length zone_list = length (held Primary "zones" w)
  ∧ primary w' = primary w
  ∧ (if b
     then held Remote "zones" w' = delete "_id" <$> held Primary "zones" w
          ∧ ∀ name, name ≠ "zones" → remote w' !! name = remote w !! name
     else remote w' = remote w).
Proof.
  intros Hmc Hrc H.
  apply (update_zones_ok mc rc Hrc) in H as (-> & Hnamed & Hp & Hb).
  rewrite !docs_of_held in *. simpl in *. rewrite Hmc in *.
  split; [done|]. split; [by apply zone_names_named|]. split; [done|].
  destruct b; [|done]. destruct Hb as [Hd Hfr]. rewrite Hrc in Hd.
  split; [done|]. intros name Hname.
  apply (Hfr Remote name). unfold place. simpl. rewrite Hrc. congruence.
Qed.

Lemma zones_step_correct_witness :
  db_side (m_connection primary_connector) = Primary
  ∧ db_side (m_connection remote_connector) = Remote
  ∧ fst (update_zones primary_connector remote_connector true (sample_world []))
    = Ok [VStr "example.com"; VStr "example.org"]
  ∧ held Remote "zones"
      (snd (update_zones primary_connector remote_connector true (sample_world [])))
    = [ {[ "zone" := VStr "example.com" ]}; {[ "zone" := VStr "example.org" ]} ].
Proof.
  split; [reflexivity|]. split; [reflexivity|].
  destruct (update_zones primary_connector remote_connector true (sample_world []))
    as [r w'] eqn:Hrun.
  assert (r = Ok [VStr "example.com"; VStr "example.org"]) as ->.
  { by vm_compute in Hrun; injection Hrun as <- _. }
  destruct (zones_step_correct primary_connector remote_connector true
              (sample_world []) _ w' eq_refl eq_refl Hrun) as (_ & _ & _ & Hd & _).
  split; [reflexivity|]. cbn [snd]. rewrite Hd. by vm_compute.
Defined.

(** ** Runs in which no server fails *)

#[global] Instance completes_sequential : Sequential completes.
Proof.
  split; [by intros w Hq|].
  intros w w1 w' k H1 H2 Hq. destruct (H1 Hq) as [_ Hq1]. by apply H2.
Qed.

Lemma quiet_record e w : quiet w → quiet (record e w).
Proof. intros Hq s. by rewrite faults_record. Qed.

Lemma quiet_set_docs c docs w : quiet w → quiet (set_docs c docs w).
Proof. intros Hq s. by rewrite faults_set_docs. Qed.

Lemma quiet_prints msgs w : quiet w → quiet (prints msgs w).
Proof.
  intros Hq s. destruct (prints_world msgs w) as (_ & _ & Hp & Hr & _).
  destruct s; simpl; [rewrite Hp; apply (Hq Primary)|rewrite Hr; apply (Hq Remote)].
Qed.

Lemma completes_emit e : obeys completes (emit e).
Proof. intros w Hq. split; [done|]. by apply quiet_record. Qed.

Lemma completes_attempt c o : obeys completes (attempt c o).
Proof.
  intros w Hq. rewrite attempt_passes.
  - cbn [fst snd]. split; [done|]. intros s.
    rewrite faults_set_faults, faults_record.
    case_decide as Hs; [|apply Hq]. subst s.
    specialize (Hq (db_side (c_db c))).
    destruct (faults (db_side (c_db c)) w); [done|]. by inversion Hq.
  - intros e He. specialize (Hq (db_side (c_db c))).
    destruct (faults (db_side (c_db c)) w) as [|x l]; [done|].
    injection He as ->. by inversion Hq.
Qed.

Lemma completes_find c q p : obeys completes (find c q p).
Proof.
  apply obeys_bind; [apply _|apply completes_attempt|].
  intros _. apply obeys_gets, _.
Qed.

Lemma completes_remove c q : obeys completes (remove c q).
Proof.
  apply obeys_bind; [apply _|apply completes_attempt|].
  intros _ w Hq. split; [done|]. by apply quiet_set_docs.
Qed.

Lemma completes_insert c d : obeys completes (insert c d).
Proof.
  apply obeys_bind; [apply _|apply completes_attempt|].
  intros _ w Hq. split; [done|]. by apply quiet_set_docs.
Qed.

Lemma completes_ok {A} (m : M A) w :
  obeys completes m → quiet w → ∃ a w', m w = (Ok a, w') ∧ quiet w'.
Proof.
  intros Hm Hq. destruct (Hm w Hq) as [Hk Hq'].
  destruct (m w) as [[a|e|code] w']; try done. by exists a, w'.
Qed.

Lemma for_acc_cons_run {A S} (x : A) xs (acc : S) (body : A → S → M S) w :
  for_acc (x :: xs) acc body w =
  match body x acc w with
  | (Ok acc', w1) => for_acc xs acc' body w1
  | (Raise e, w1) => (Raise e, w1)
  | (Exit code, w1) => (Exit code, w1)
  end.
Proof. reflexivity. Qed.

Lemma collect_name (zone : document) (acc : list value) w :
  (z ← getitem zone "zone"; mret (acc ++ [z])) w =
  match zone !! "zone" with
  | Some z => (Ok (acc ++ [z]), w)
  | None => (Raise (KeyError "zone"), w)
  end.
Proof. rewrite bind_run. unfold getitem. by destruct (zone !! "zone"). Qed.

Lemma insert_and_collect_name c (zone : document) (acc : list value) w w1 :
  insert c zone w = (Ok tt, w1) →
  (insert c zone;; z ← getitem zone "zone"; mret (acc ++ [z])) w =
  match zone !! "zone" with
  | Some z => (Ok (acc ++ [z]), w1)
  | None => (Raise (KeyError "zone"), w1)
  end.
Proof. intros Hins. rewrite bind_run, Hins. apply collect_name. Qed.

Section quiet_zones.
Context (mc rc : connector).
Hypothesis mc_primary : db_side (m_connection mc) = Primary.
Hypothesis rc_remote : db_side (m_connection rc) = Remote.

Abbreviation q_src := (Collection (m_connection mc) "zones").
Abbreviation q_dst := (Collection (m_connection rc) "zones").

Lemma mirror_loop_named zones : ∀ acc w,
  quiet w → Forall named zones →
  ∃ w', for_acc zones acc (λ zone zone_list,
          insert q_dst zone;;
          z ← getitem zone "zone";
          mret (zone_list ++ [z])) w = (Ok (acc ++ zone_names zones), w')
        ∧ quiet w'.
Proof.
  induction zones as [|zone zones IH]; intros acc w Hq Hnamed.
  - exists w. by rewrite app_nil_r.
  - inversion Hnamed as [|? ? [z Hz] Hrest]; subst.
    destruct (completes_ok (insert q_dst zone) w (completes_insert _ _) Hq)
      as ([] & w1 & Hins & Hq1).
    destruct (IH (acc ++ [z]) w1 Hq1 Hrest) as (w' & Hrun & Hq').
    exists w'. split; [|done].
    rewrite zone_names_cons, Hz, for_acc_cons_run. cbn beta.
    rewrite (insert_and_collect_name _ _ _ _ _ Hins), Hz, Hrun.
    by rewrite <- app_assoc.
Qed.

Lemma names_loop_named zones : ∀ acc w,
  Forall named zones →
  for_acc zones acc (λ zone zone_list,
    z ← getitem zone "zone";
    mret (zone_list ++ [z])) w = (Ok (acc ++ zone_names zones), w).
Proof.
  induction zones as [|zone zones IH]; intros acc w Hnamed.
  - by rewrite app_nil_r.
  - inversion Hnamed as [|? ? [z Hz] Hrest]; subst.
    rewrite zone_names_cons, Hz, for_acc_cons_run. cbn beta.
    rewrite collect_name, Hz, (IH _ _ Hrest). by rewrite <- app_assoc.
Qed.

(** The loops stop at the first document that has no zone name: in mirror
    mode that document has been inserted already. *)
Lemma mirror_loop_unnamed pre d post : ∀ acc w,
  quiet w → Forall named pre → d !! "zone" = None →
  ∃ w', for_acc (pre ++ d :: post) acc (λ zone zone_list,
          insert q_dst zone;;
          z ← getitem zone "zone";
          mret (zone_list ++ [z])) w = (Raise (KeyError "zone"), w')
        ∧ docs_of q_dst w' = docs_of q_dst w ++ pre ++ [d]
        ∧ frame q_dst w w'.
Proof.
  induction pre as [|zone pre IH]; intros acc w Hq Hnamed Hd.
  - destruct (completes_ok (insert q_dst d) w (completes_insert _ _) Hq)
      as ([] & w1 & Hins & Hq1).
    exists w1. rewrite app_nil_l, for_acc_cons_run. cbn beta.
    rewrite (insert_and_collect_name _ _ _ _ _ Hins), Hd. split; [done|].
    apply insert_ok in Hins as (Hdocs & Hfr & _). done.
  - inversion Hnamed as [|? ? [z Hz] Hrest]; subst.
    destruct (completes_ok (insert q_dst zone) w (completes_insert _ _) Hq)
      as ([] & w1 & Hins & Hq1).
    destruct (IH (acc ++ [z]) w1 Hq1 Hrest Hd) as (w' & Hrun & Hdocs & Hfr).
    exists w'. rewrite <- app_comm_cons, for_acc_cons_run. cbn beta.
    rewrite (insert_and_collect_name _ _ _ _ _ Hins), Hz. split; [exact Hrun|].
    apply insert_ok in Hins as (Hdocs1 & Hfr1 & _).
    split; [by rewrite Hdocs, Hdocs1, <- app_assoc|by apply (frame_trans _ _ w1)].
Qed.

Lemma names_loop_unnamed pre d post : ∀ acc w,
  Forall named pre → d !! "zone" = None →
  for_acc (pre ++ d :: post) acc (λ zone zone_list,
    z ← getitem zone "zone";
    mret (zone_list ++ [z])) w = (Raise (KeyError "zone"), w).
Proof.
  induction pre as [|zone pre IH]; intros acc w Hnamed Hd.
  - rewrite app_nil_l, for_acc_cons_run. cbn beta. by rewrite collect_name, Hd.
  - inversion Hnamed as [|? ? [z Hz] Hrest]; subst.
    rewrite <- app_comm_cons, for_acc_cons_run. cbn beta.
    rewrite collect_name, Hz. by apply IH.
Qed.

(** The read of the zones step, when the primary server does not fail. *)
Lemma zones_read_quiet w :
  quiet w →
  ∃ w1, (logger_info "Starting Zones..";;
         find q_src ∅ (Some no_id)) w
        = (Ok (delete "_id" <$> docs_of q_src w), w1)
        ∧ quiet w1 ∧ (∀ s, store s w1 = store s w).
Proof.
  intros Hq.
  destruct (completes_ok (find q_src ∅ (Some no_id))
              (record (EvLog "Starting Zones..") w) (completes_find _ _ _)
              (quiet_record _ _ Hq)) as (zones & w1 & Hfind & Hq1).
  exists w1. rewrite bind_run. simpl. rewrite Hfind. 
  apply find_ok in Hfind as (-> & Hs & _).
  rewrite find_everything, docs_of_record. split; [done|]. split; [done|].
  intros s. by rewrite Hs, store_record.
Qed.

Lemma update_zones_read b w :
  update_zones mc rc b w =
  (zones ← (logger_info "Starting Zones..";; find q_src ∅ (Some no_id));
   zones_loop mc rc b zones) w.
Proof. rewrite update_zones_parts. reflexivity. Qed.

Lemma update_zones_quiet b w :
  quiet w → Forall named (docs_of q_src w) →
  ∃ w', update_zones mc rc b w = (Ok (zone_names (docs_of q_src w)), w')
        ∧ quiet w'.
Proof.
  intros Hq Hnamed. rewrite update_zones_read.
  destruct (zones_read_quiet w Hq) as (w1 & Hread & Hq1 & Hs1).
  rewrite bind_run, Hread. unfold zones_loop.
  assert (Forall named (delete "_id" <$> docs_of q_src w)) as Hnamed'.
  { rewrite Forall_fmap. eapply Forall_impl; [exact Hnamed|].
    intros d. by apply named_delete_id. }
  rewrite <- (zone_names_delete_id (docs_of q_src w)).
  destruct b.
  - destruct (completes_ok (remove q_dst ∅) w1 (completes_remove _ _) Hq1)
      as ([] & w2 & Hrm & Hq2).
    rewrite bind_run.
    change (RemoteMongoConnector.get_zone_connection rc) with q_dst.
    rewrite Hrm.
    destruct (mirror_loop_named _ [] w2 Hq2 Hnamed') as (w' & Hrun & Hq').
    exists w'. by rewrite Hrun.
  - exists w1. by rewrite (names_loop_named _ [] w1 Hnamed').
Qed.

Lemma update_zones_unnamed b w pre d post :
  quiet w →
  docs_of q_src w = pre ++ d :: post →
  Forall named pre → d !! "zone" = None →
  ∃ w', update_zones mc rc b w = (Raise (KeyError "zone"), w')
        ∧ primary w' = primary w
        ∧ (if b
           then docs_of q_dst w' = delete "_id" <$> (pre ++ [d])
           else remote w' = remote w).
Proof.
  intros Hq Hdocs Hnamed Hd. rewrite update_zones_read.
  destruct (zones_read_quiet w Hq) as (w1 & Hread & Hq1 & Hs1).
  rewrite bind_run, Hread, Hdocs, fmap_app, fmap_cons. unfold zones_loop.
  assert (Forall named (delete "_id" <$> pre)) as Hnamed'.
  { rewrite Forall_fmap. eapply Forall_impl; [exact Hnamed|].
    intros d0. by apply named_delete_id. }
  assert (delete "_id" d !! "zone" = None) as Hd'
    by (by rewrite lookup_delete_ne).
  destruct b.
  - destruct (completes_ok (remove q_dst ∅) w1 (completes_remove _ _) Hq1)
      as ([] & w2 & Hrm & Hq2).
    rewrite bind_run.
    change (RemoteMongoConnector.get_zone_connection rc) with q_dst.
    rewrite Hrm.
    destruct (mirror_loop_unnamed _ _ (delete "_id" <$> post) [] w2 Hq2 Hnamed' Hd')
      as (w' & Hrun & Hdocs' & Hfr).
    exists w'. split; [exact Hrun|].
    apply remove_ok in Hrm as (Hd2 & Hfr2 & _).
    split.
    + etrans; [apply (frame_primary q_dst _ _ rc_remote Hfr)|].
      etrans; [apply (frame_primary q_dst _ _ rc_remote Hfr2)|].
      apply (Hs1 Primary).
    + rewrite Hdocs', Hd2, remove_everything. simpl.
      by rewrite fmap_app.
  - exists w1. split; [by apply names_loop_unnamed|].
    split; [apply (Hs1 Primary)|apply (Hs1 Remote)].
Qed.

End quiet_zones.

(** X8.  A zone document without a zone name stops the zones step with a
    KeyError, unless a server fails first.  In list mode nothing has been
    written by then.  In mirror mode the destination Zone collection has
    been emptied and holds the documents up to and including the one
    without a name: the documents after it are missing from the mirror. *)
Theorem unnamed_zone_aborts mc rc b w pre d post :
  db_side (m_connection mc) = Primary →
  db_side (m_connection rc) = Remote →
  quiet w →
  held Primary "zones" w = pre ++ d :: post →
  Forall named pre →
  d !! "zone" = None →
  ∃ w', update_zones mc rc b w = (Raise (KeyError "zone"), w')
    ∧ primary w' = primary w
    ∧ (if b
       then held Remote "zones" w' = delete "_id" <$> (pre ++ [d])
       else remote w' = remote w).
Proof.
  intros Hmc Hrc Hq Hdocs Hnamed Hd.
  destruct (update_zones_unnamed mc rc Hrc b w pre d post Hq) as (w' & Hrun & Hp & Hb);
    try done.
  { rewrite docs_of_held. simpl. by rewrite Hmc. }
  exists w'. split; [done|]. split; [done|].
  destruct b; [|done]. rewrite docs_of_held in Hb. simpl in Hb. by rewrite Hrc in Hb.
Qed.

Lemma unnamed_zone_aborts_witness :
  db_side (m_connection primary_connector) = Primary
  ∧ db_side (m_connection remote_connector) = Remote
  ∧ quiet world_with_unnamed_zone
  ∧ held Primary "zones" world_with_unnamed_zone
    = [example_com] ++ unnamed_zone :: [example_org]
  ∧ Forall named [example_com]
  ∧ unnamed_zone !! "zone" = None
  ∧ fst (update_zones primary_connector remote_connector true
           world_with_unnamed_zone) = Raise (KeyError "zone")
  ∧ held Remote "zones"
      (snd (update_zones primary_connector remote_connector true
              world_with_unnamed_zone))
    = [ {[ "zone" := VStr "example.com" ]}; {[ "status" := VStr "unconfirmed" ]} ].
Proof.
  assert (quiet world_with_unnamed_zone) as Hq by (intros []; constructor).
  assert (Forall named [example_com]) as Hnamed.
  { repeat constructor. by exists (VStr "example.com"). }
  split; [reflexivity|]. split; [reflexivity|]. split; [exact Hq|].
  split; [reflexivity|]. split; [exact Hnamed|]. split; [reflexivity|].
  destruct (unnamed_zone_aborts primary_connector remote_connector true
              world_with_unnamed_zone [example_com] unnamed_zone [example_org]
              eq_refl eq_refl Hq eq_refl Hnamed eq_refl) as (w' & Hrun & _ & Hdst).
  rewrite Hrun. split; [reflexivity|]. cbn [snd]. rewrite Hdst. by vm_compute.
Defined.

(** ** A whole run in which no server fails *)

Lemma mirror_zones_choice (send_all : bool) (a : args) mc rc w :
  (if send_all || send_zones a
   then update_zones mc rc true
   else update_zones mc rc false) w
  = update_zones mc rc (send_all || send_zones a) w.
Proof. by destruct (send_all || send_zones a). Qed.

Lemma quiet_main argv args cfg w :
  parse_flags argv = Some args →
  config_files w !! "connector.config" = Some cfg →
  quiet w →
  Forall named (held Primary "zones" w) →
  fst (main argv w) = Ok tt ∧ quiet (snd (main argv w)).
Proof.
  intros Hargs Hcfg Hq Hnamed.
  destruct (set_up_total argv args cfg w Hargs Hcfg) as (rc0 & w1 & Hset).
  destruct (set_up_ok _ _ _ _ _ Hargs Hset) as (rc & [= ->] & Hrc).
  assert (quiet w1) as Hq1.
  { intros s. pose proof (keeps_set_up (faults s) (faults_record s) argv w) as Hk.
    unfold keeps in Hk. rewrite Hset in Hk. simpl in Hk. rewrite Hk. apply Hq. }
  assert (held Primary "zones" w1 = held Primary "zones" w) as Hheld.
  { pose proof (set_up_stores argv w) as [Hp _]. rewrite Hset in Hp. simpl in Hp.
    unfold held. simpl. by rewrite Hp. }
  rewrite main_parts, bind_run, Hset. cbn beta iota.
  unfold mirror. rewrite bind_run, mirror_zones_choice.
  destruct (update_zones_quiet primary_connector rc
              (bool_decide (length argv = 1%nat) || send_zones args) w1 Hq1)
    as (w2 & Hzones & Hq2).
  { rewrite docs_of_held. simpl. by rewrite Hheld. }
  rewrite Hzones.
  assert (obeys completes
            (after_zones (bool_decide (length argv = 1%nat)) args
               primary_connector rc
               (zone_names
                  (docs_of (Collection (m_connection primary_connector) "zones") w1))))
    as Hafter.
  { apply (obeys_after_zones completes) with
      (readable := λ _, True) (writable := λ _, True); try done.
    all: intros;
      first [ apply completes_emit | apply completes_find
            | apply completes_remove | apply completes_insert ]. }
  destruct (completes_ok _ w2 Hafter Hq2) as ([] & w' & Hrun & Hq').
  by rewrite Hrun.
Qed.

(** X13.  A run completes when nothing stands in its way: once its set-up
    has returned, with two servers that do not fail and a zone name in every
    zone document, [main] ends normally, whatever was selected. *)
Theorem undisturbed_run_completes argv args w :
  parse_flags argv = Some args →
  ending_of (fst (set_up argv w)) = Normal →
  quiet w →
  Forall named (held Primary "zones" w) →
  fst (main argv w) = Ok tt ∧ quiet (snd (main argv w)).
Proof.
  intros Hargs Hset Hq Hnamed.
  destruct (set_up_returns argv args w Hargs Hset) as (cfg & Hcfg).
  by apply (quiet_main argv args cfg).
Qed.

Lemma undisturbed_run_completes_witness :
  parse_flags ["send_remote_server.py"; "--send_zones"; "--send_config"]
  = Some (Args true false false true false)
  ∧ ending_of
      (fst (set_up ["send_remote_server.py"; "--send_zones"; "--send_config"]
              (sample_world [None; None]))) = Normal
  ∧ quiet (sample_world [None; None])
  ∧ Forall named (held Primary "zones" (sample_world [None; None]))
  ∧ fst (main ["send_remote_server.py"; "--send_zones"; "--send_config"]
           (sample_world [None; None])) = Ok tt.
Proof.
  assert (quiet (sample_world [None; None])) as Hq.
  { intros []; by repeat constructor. }
  assert (Forall named (held Primary "zones" (sample_world [None; None])))
    as Hnamed.
  { repeat constructor; by eexists. }
  split; [reflexivity|]. split; [reflexivity|]. split; [exact Hq|].
  split; [exact Hnamed|].
  exact (proj1 (undisturbed_run_completes
                  ["send_remote_server.py"; "--send_zones"; "--send_config"]
                  (Args true false false true false)
                  (sample_world [None; None]) eq_refl eq_refl Hq Hnamed)).
Defined.

(** ** What a completed run leaves in the remote store *)

Lemma effect_refl name w : effect false name w w.
Proof. by split. Qed.

Lemma effect_then b1 b2 name w w1 w2 :
  effect b1 name w w1 → effect b2 name w1 w2 → effect (b1 || b2) name w w2.
Proof.
  intros [Hp1 H1] [Hp2 H2]. split; [by rewrite Hp2|].
  unfold held in *. simpl in *.
  destruct b1, b2; simpl.
  - by rewrite H2, Hp1.
  - by rewrite H2.
  - by rewrite H2, Hp1.
  - by rewrite H2.
Qed.

Lemma effect_eq b b' name w w' : b = b' → effect b name w w' → effect b' name w w'.
Proof. by intros ->. Qed.

(** What the steps leave alone. *)
Section kept.
Context (mc rc : connector) {X : Type} (f : world → X) (ok : string → Prop).
Hypothesis f_record : ∀ e w, f (record e w) = f w.
Hypothesis f_faults : ∀ s fs w, f (set_faults s fs w) = f w.
Hypothesis f_docs : ∀ name, ok name →
  ∀ docs w, f (set_docs (Collection (m_connection rc) name) docs w) = f w.

Ltac kept_by lemma :=
  apply (lemma (keeps f) _) with (readable := λ _, True) (writable := ok);
  try done; intros;
  try first [ by apply keeps_emit | apply keeps_raise | by apply keeps_find
            | apply keeps_remove; by auto | apply keeps_insert; by auto ].

Lemma kept_update_zones b :
  (b = true → ok "zones") → obeys (keeps f) (update_zones mc rc b).
Proof. intros Hok. kept_by obeys_update_zones. Qed.

Lemma kept_step r :
  (∀ name, name ∈ written r → ok name) → obeys (keeps f) (step_of r mc rc).
Proof.
  intros Hok. destruct r; simpl.
  - kept_by obeys_update_ip_zones; apply Hok; set_solver.
  - kept_by obeys_update_ip_zones; apply Hok; set_solver.
  - kept_by obeys_update_config; apply Hok; set_solver.
  - kept_by obeys_update_aws_cidrs; apply Hok; set_solver.
  - kept_by obeys_update_azure_cidrs; apply Hok; set_solver.
  - kept_by obeys_update_akamai_cidrs; apply Hok; set_solver.
  - kept_by obeys_update_gcp_cidrs; apply Hok; set_solver.
Qed.

Lemma kept_replace_steps send_all args :
  (∀ name, name ≠ "zones" → name ≠ "all_dns" → ok name) →
  obeys (keeps f) (replace_steps send_all args mc rc).
Proof. intros Hok. kept_by obeys_replace_steps. Qed.

Lemma kept_update_all_dns zone_list :
  ok "all_dns" → obeys (keeps f) (update_all_dns mc rc zone_list).
Proof. intros Hok. kept_by obeys_update_all_dns. Qed.

Lemma kept_wrap_up : obeys (keeps f) wrap_up.
Proof. apply obeys_wrap_up; [apply _|]. intros e _ _. by apply keeps_emit. Qed.

End kept.

Section effects.
Context (mc rc : connector).
Hypothesis mc_primary : db_side (m_connection mc) = Primary.
Hypothesis rc_remote : db_side (m_connection rc) = Remote.

Lemma primary_set_docs_remote name docs w :
  primary (set_docs (Collection (m_connection rc) name) docs w) = primary w.
Proof. unfold set_docs. simpl. by rewrite rc_remote. Qed.

Lemma remote_set_docs_other name name' docs w :
  name' ≠ name →
  remote (set_docs (Collection (m_connection rc) name') docs w) !! name
  = remote w !! name.
Proof.
  intros Hne. unfold set_docs. simpl. rewrite rc_remote. simpl.
  by rewrite lookup_insert_ne.
Qed.

(** A part of the run that writes through the remote connector only, and
    not to [name], leaves [name] alone. *)
Lemma effect_kept {A} (m : M A) name w :
  obeys (keeps primary) m → obeys (keeps (λ w, remote w !! name)) m →
  effect false name w (snd (m w)).
Proof. intros Hp Hr. split; [apply Hp|apply Hr]. Qed.

Lemma kept_primary_by {A} (m : M A) :
  (∀ (f : world → db),
     (∀ e w, f (record e w) = f w) →
     (∀ s fs w, f (set_faults s fs w) = f w) →
     (∀ name, True → ∀ docs w,
        f (set_docs (Collection (m_connection rc) name) docs w) = f w) →
     obeys (keeps f) m) →
  obeys (keeps primary) m.
Proof.
  intros H. apply H; try done.
  - by intros [] ? ?.
  - intros name _ docs w. apply primary_set_docs_remote.
Qed.

Lemma kept_remote_by {A} (m : M A) name :
  (∀ (f : world → option (list document)),
     (∀ e w, f (record e w) = f w) →
     (∀ s fs w, f (set_faults s fs w) = f w) →
     (∀ name', name' ≠ name → ∀ docs w,
        f (set_docs (Collection (m_connection rc) name') docs w) = f w) →
     obeys (keeps f) m) →
  obeys (keeps (λ w, remote w !! name)) m.
Proof.
  intros H. apply H; try done.
  - by intros [] ? ?.
  - intros name' Hne docs w. by apply remote_set_docs_other.
Qed.

Lemma not_written r0 r :
  bool_decide (name_of r ∈ written r0) = false → name_of r ∉ written r0.
Proof. apply bool_decide_eq_false_1. Qed.

Lemma step_effect r0 r w w' :
  step_of r0 mc rc w = (Ok tt, w') →
  effect (bool_decide (name_of r ∈ written r0)) (name_of r) w w'.
Proof.
  intros H. case_bool_decide as Hin.
  - assert (step_of r mc rc w = (Ok tt, w')) as Hr.
    { destruct r0, r; try exact H;
        match type of Hin with
        | name_of ?a ∈ written ?b => destruct (not_written b a eq_refl Hin)
        end. }
    apply (step_of_ok mc rc mc_primary rc_remote) in Hr as (Hd & Hp & _).
    split; [done|]. rewrite !docs_of_held in Hd. simpl in Hd.
    by rewrite mc_primary, rc_remote in Hd.
  - replace w' with (snd (step_of r0 mc rc w)) by (by rewrite H).
    apply effect_kept.
    + apply kept_primary_by. intros f ? ? ?.
      by apply (kept_step mc rc f (λ _, True)).
    + apply kept_remote_by. intros f ? ? ?.
      apply (kept_step mc rc f (λ name', name' ≠ name_of r)); try done.
      intros name' Hin' ->. done.
Qed.

Lemma selected_effect (b : bool) (m : M unit) b' name w w' :
  (∀ w', m w = (Ok tt, w') → effect b' name w w') →
  (if b then m else mret tt) w = (Ok tt, w') →
  effect (b && b') name w w'.
Proof.
  intros Hm H. destruct b; simpl.
  - by apply Hm.
  - injection H as <-. apply effect_refl.
Qed.

Lemma replace_steps_effect send_all args r w w' :
  replace_steps send_all args mc rc w = (Ok tt, w') →
  effect (selects send_all args r) (name_of r) w w'.
Proof.
  intros H. unfold replace_steps in H.
  apply bind_ok in H as ([] & w1 & H1 & H).
  apply bind_ok in H as ([] & w2 & H2 & H3).
  apply (selected_effect _ _ (bool_decide (name_of r ∈ written IpZones))
           (name_of r)) in H1; [|intros w0; apply (step_effect IpZones r)].
  apply (selected_effect _ _
           (bool_decide (name_of r ∈ written AwsIps)
            || bool_decide (name_of r ∈ written AzureIps)
            || bool_decide (name_of r ∈ written AkamaiIps)
            || bool_decide (name_of r ∈ written GcpIps))
           (name_of r)) in H2.
  2:{ intros w0 H0.
      apply bind_ok in H0 as ([] & a1 & Ha1 & H0).
      apply bind_ok in H0 as ([] & a2 & Ha2 & H0).
      apply bind_ok in H0 as ([] & a3 & Ha3 & Ha4).
      apply (step_effect AwsIps r) in Ha1. apply (step_effect AzureIps r) in Ha2.
      apply (step_effect AkamaiIps r) in Ha3. apply (step_effect GcpIps r) in Ha4.
      exact (effect_then _ _ _ _ _ _
               (effect_then _ _ _ _ _ _ (effect_then _ _ _ _ _ _ Ha1 Ha2) Ha3) Ha4). }
  apply (selected_effect _ _ (bool_decide (name_of r ∈ written ConfigEntries))
           (name_of r)) in H3; [|intros w0; apply (step_effect ConfigEntries r)].
  eapply effect_eq; [|exact (effect_then _ _ _ _ _ _ (effect_then _ _ _ _ _ _ H1 H2) H3)].
  unfold selects.
  destruct r, send_all, (send_ip_zones args), (send_third_party_zones args),
    (send_config args); reflexivity.
Qed.

End effects.

Lemma main_ok_parts argv args w :
  parse_flags argv = Some args →
  fst (main argv w) = Ok tt →
  ∃ rc w1 zone_list w2 w3 w4,
    db_side (m_connection rc) = Remote
    ∧ set_up argv w = (Ok (args, primary_connector, rc), w1)
    ∧ update_zones primary_connector rc
        (bool_decide (length argv = 1%nat) || send_zones args) w1
      = (Ok zone_list, w2)
    ∧ replace_steps (bool_decide (length argv = 1%nat)) args
        primary_connector rc w2 = (Ok tt, w3)
    ∧ (if bool_decide (length argv = 1%nat) || send_dns_records args
       then update_all_dns primary_connector rc zone_list
       else mret tt) w3 = (Ok tt, w4)
    ∧ wrap_up w4 = (Ok tt, snd (main argv w)).
Proof.
  intros Hargs Hok.
  destruct (main argv w) as [r w'] eqn:Hmain. simpl in *. subst r.
  rewrite main_parts in Hmain. apply bind_ok in Hmain as (x & w1 & Hset & Hmir).
  destruct (set_up_ok _ _ _ _ _ Hargs Hset) as (rc & -> & Hrc).
  cbn beta iota in Hmir. unfold mirror in Hmir.
  apply bind_ok in Hmir as (zone_list & w2 & Hzones & Hafter).
  rewrite mirror_zones_choice in Hzones.
  rewrite after_zones_parts in Hafter.
  apply bind_ok in Hafter as ([] & w3 & Hreplace & Hafter).
  apply bind_ok in Hafter as ([] & w4 & Hdns & Hwrap).
  by exists rc, w1, zone_list, w2, w3, w4.
Qed.

Section run_effects.
Context (rc : connector).
Hypothesis rc_remote : db_side (m_connection rc) = Remote.

Lemma set_up_effect argv name w x w1 :
  set_up argv w = (Ok x, w1) → effect false name w w1.
Proof.
  intros H. destruct (set_up_stores argv w) as [Hp Hr].
  rewrite H in Hp, Hr. simpl in *. split; [done|]. by rewrite Hr.
Qed.

Lemma update_zones_effect b w zone_list w' :
  update_zones primary_connector rc b w = (Ok zone_list, w') →
  effect b "zones" w w'.
Proof.
  intros H. apply (update_zones_ok primary_connector rc rc_remote) in H
    as (_ & _ & Hp & Hb).
  split; [done|]. destruct b.
  - destruct Hb as [Hd _]. rewrite !docs_of_held in Hd. simpl in Hd.
    by rewrite rc_remote in Hd.
  - by rewrite Hb.
Qed.

Lemma update_zones_elsewhere b name w zone_list w' :
  name ≠ "zones" →
  update_zones primary_connector rc b w = (Ok zone_list, w') →
  effect false name w w'.
Proof.
  intros Hne H.
  replace w' with (snd (update_zones primary_connector rc b w)) by (by rewrite H).
  apply effect_kept.
  - apply (kept_primary_by rc rc_remote). intros f ? ? ?.
    by apply (kept_update_zones primary_connector rc f (λ _, True)).
  - apply (kept_remote_by rc rc_remote). intros f ? ? ?.
    by apply (kept_update_zones primary_connector rc f (λ name', name' ≠ name)).
Qed.

Lemma replace_steps_elsewhere send_all args name w w' :
  name = "zones" ∨ name = "all_dns" →
  replace_steps send_all args primary_connector rc w = (Ok tt, w') →
  effect false name w w'.
Proof.
  intros Hname H.
  replace w' with (snd (replace_steps send_all args primary_connector rc w))
    by (by rewrite H).
  apply effect_kept.
  - apply (kept_primary_by rc rc_remote). intros f ? ? ?.
    by apply (kept_replace_steps primary_connector rc f (λ _, True)).
  - apply (kept_remote_by rc rc_remote). intros f ? ? ?.
    apply (kept_replace_steps primary_connector rc f (λ name', name' ≠ name));
      try done. intros name' ? ? ->. by destruct Hname.
Qed.

Lemma dns_step_elsewhere (b : bool) zone_list name w w' :
  name ≠ "all_dns" →
  (if b then update_all_dns primary_connector rc zone_list else mret tt) w
  = (Ok tt, w') →
  effect false name w w'.
Proof.
  intros Hne H. destruct b; [|injection H as <-; apply effect_refl].
  replace w' with (snd (update_all_dns primary_connector rc zone_list w))
    by (by rewrite H).
  apply effect_kept.
  - apply (kept_primary_by rc rc_remote). intros f ? ? ?.
    by apply (kept_update_all_dns primary_connector rc f (λ _, True)).
  - apply (kept_remote_by rc rc_remote). intros f ? ? ?.
    by apply (kept_update_all_dns primary_connector rc f (λ name', name' ≠ name)).
Qed.

Lemma wrap_up_effect name w w' : wrap_up w = (Ok tt, w') → effect false name w w'.
Proof.
  intros H. replace w' with (snd (wrap_up w)) by (by rewrite H).
  apply effect_kept.
  - apply (kept_wrap_up primary). by intros.
  - apply (kept_wrap_up (λ w, remote w !! name)). by intros.
Qed.

End run_effects.

Lemma main_effect_zones argv args w :
  parse_flags argv = Some args →
  fst (main argv w) = Ok tt →
  effect (bool_decide (length argv = 1%nat) || send_zones args) "zones"
    w (snd (main argv w)).
Proof.
  intros Hargs Hok.
  destruct (main_ok_parts argv args w Hargs Hok)
    as (rc & w1 & zl & w2 & w3 & w4 & Hrc & H1 & H2 & H3 & H4 & H5).
  apply (set_up_effect argv "zones") in H1.
  apply (update_zones_effect rc Hrc) in H2.
  apply (replace_steps_elsewhere rc Hrc _ _ "zones") in H3; [|by left].
  apply (dns_step_elsewhere rc Hrc _ _ "zones") in H4; [|done].
  apply (wrap_up_effect "zones") in H5.
  eapply effect_eq;
    [|exact (effect_then _ _ _ _ _ _
               (effect_then _ _ _ _ _ _
                  (effect_then _ _ _ _ _ _ (effect_then _ _ _ _ _ _ H1 H2) H3) H4) H5)].
  by destruct (bool_decide (length argv = 1%nat) || send_zones args).
Qed.

Lemma main_effect_replaced argv args w r :
  parse_flags argv = Some args →
  fst (main argv w) = Ok tt →
  effect (selects (bool_decide (length argv = 1%nat)) args r) (name_of r)
    w (snd (main argv w)).
Proof.
  intros Hargs Hok.
  destruct (main_ok_parts argv args w Hargs Hok)
    as (rc & w1 & zl & w2 & w3 & w4 & Hrc & H1 & H2 & H3 & H4 & H5).
  apply (set_up_effect argv (name_of r)) in H1.
  apply (update_zones_elsewhere rc Hrc _ (name_of r)) in H2; [|by destruct r].
  apply (replace_steps_effect primary_connector rc eq_refl Hrc _ _ r) in H3.
  apply (dns_step_elsewhere rc Hrc _ _ (name_of r)) in H4; [|by destruct r].
  apply (wrap_up_effect (name_of r)) in H5.
  eapply effect_eq;
    [|exact (effect_then _ _ _ _ _ _
               (effect_then _ _ _ _ _ _
                  (effect_then _ _ _ _ _ _ (effect_then _ _ _ _ _ _ H1 H2) H3) H4) H5)].
  by destruct (selects _ _ _).
Qed.

(** X9.  What a run that reached its end has done to the eight collections
    that are replaced as a whole.  The zones and the seven others are each
    the copy of the primary collection of the same name, identifiers
    removed, when their step was selected, by its flag or by a command line
    without any flag; a collection whose step was not selected holds what it
    held before the run.  The primary store is as it was. *)
Theorem completed_run_mirrors_selection argv args w :
  parse_flags argv = Some args →
  fst (main argv w) = Ok tt →
  primary (snd (main argv w)) = primary w
  ∧ (if bool_decide (length argv = 1%nat) || send_zones args
     then held Remote "zones" (snd (main argv w))
          = delete "_id" <$> held Primary "zones" w
     else remote (snd (main argv w)) !! "zones" = remote w !! "zones")
  ∧ ∀ r, if selects (bool_decide (length argv = 1%nat)) args r
         then held Remote (name_of r) (snd (main argv w))
              = delete "_id" <$> held Primary (name_of r) w
         else remote (snd (main argv w)) !! name_of r = remote w !! name_of r.
Proof.
  intros Hargs Hok.
  destruct (main_effect_zones argv args w Hargs Hok) as [Hp Hz].
  split; [done|]. split; [done|].
  intros r. by destruct (main_effect_replaced argv args w r Hargs Hok) as [_ Hr].
Qed.

Lemma completed_run_mirrors_selection_witness :
  parse_flags ["send_remote_server.py"; "--send_config"]
  = Some (Args false false false true false)
  ∧ fst (main ["send_remote_server.py"; "--send_config"] (sample_world []))
    = Ok tt
  ∧ held Remote "config"
      (snd (main ["send_remote_server.py"; "--send_config"] (sample_world [])))
    = [ {[ "key" := VStr "value" ]} ]
  ∧ remote (snd (main ["send_remote_server.py"; "--send_config"]
                   (sample_world []))) !! "zones"
    = Some [stale_com]
  ∧ remote (snd (main ["send_remote_server.py"; "--send_config"]
                   (sample_world []))) !! "aws_ips"
    = None.
Proof.
  assert (fst (main ["send_remote_server.py"; "--send_config"] (sample_world []))
          = Ok tt) as Hok by (by vm_compute).
  destruct (completed_run_mirrors_selection
              ["send_remote_server.py"; "--send_config"]
              (Args false false false true false) (sample_world []) eq_refl Hok)
    as (_ & Hzones & Hr).
  split; [reflexivity|]. split; [exact Hok|].
  split; [exact (Hr ConfigEntries)|].
  split; [exact Hzones|exact (Hr AwsIps)].
Defined.

Lemma held_eq s name w w' :
  store s w' !! name = store s w !! name → held s name w' = held s name w.
Proof. unfold held. by intros ->. Qed.

Lemma main_effect_dns argv args w :
  parse_flags argv = Some args →
  fst (main argv w) = Ok tt →
  if bool_decide (length argv = 1%nat) || send_dns_records args
  then ∀ z, filter (in_zone z) (held Remote "all_dns" (snd (main argv w))) =
            if decide (z ∈ zone_names (held Primary "zones" w))
            then delete "_id" <$> filter (in_zone z) (held Primary "all_dns" w)
            else filter (in_zone z) (held Remote "all_dns" w)
  else remote (snd (main argv w)) !! "all_dns" = remote w !! "all_dns".
Proof.
  intros Hargs Hok.
  destruct (main_ok_parts argv args w Hargs Hok)
    as (rc & w1 & zl & w2 & w3 & w4 & Hrc & H1 & H2 & H3 & H4 & H5).
  pose proof (set_up_effect argv "all_dns" _ _ _ H1) as [Hp1 Hr1].
  pose proof (update_zones_elsewhere rc Hrc _ "all_dns" _ _ _ ltac:(done) H2)
    as [Hp2 Hr2].
  pose proof (replace_steps_elsewhere rc Hrc _ _ "all_dns" _ _ (or_intror eq_refl) H3)
    as [Hp3 Hr3].
  pose proof (wrap_up_effect "all_dns" _ _ H5) as [Hp5 Hr5].
  apply (update_zones_ok primary_connector rc Hrc) in H2 as (-> & _).
  destruct (bool_decide (length argv = 1%nat) || send_dns_records args).
  - rewrite update_all_dns_zones in H4. apply logged_ok in H4.
    apply (mirror_zones_final primary_connector rc eq_refl Hrc) in H4 as [Hp4 Hz].
    intros z. specialize (Hz z).
    rewrite !docs_of_record, !docs_of_held in Hz. simpl in Hz. rewrite Hrc in Hz.
    rewrite (held_eq Remote "all_dns" w4 _ Hr5), Hz.
    assert (held Primary "zones" w1 = held Primary "zones" w) as ->.
    { apply held_eq. simpl. by rewrite Hp1. }
    assert (held Primary "all_dns" w3 = held Primary "all_dns" w) as ->.
    { apply held_eq. simpl. by rewrite Hp3, Hp2, Hp1. }
    assert (held Remote "all_dns" w3 = held Remote "all_dns" w) as ->.
    { apply held_eq. simpl. by rewrite Hr3, Hr2, Hr1. }
    done.
  - injection H4 as <-. by rewrite Hr5, Hr3, Hr2, Hr1.
Qed.

(** X10.  What a run that reached its end has done to the DNS records of
    the remote store.  When the DNS step was selected, the records of every
    zone named by a document of the primary Zone collection are the copy of
    the primary records of that zone, identifiers removed, and the records
    of every other zone are those the remote store held before the run.
    When it was not selected the collection holds what it held. *)
Theorem completed_run_mirrors_dns argv args w :
  parse_flags argv = Some args →
  fst (main argv w) = Ok tt →
  if bool_decide (length argv = 1%nat) || send_dns_records args
  then ∀ z, filter (in_zone z) (held Remote "all_dns" (snd (main argv w))) =
            if decide (z ∈ zone_names (held Primary "zones" w))
            then delete "_id" <$> filter (in_zone z) (held Primary "all_dns" w)
            else filter (in_zone z) (held Remote "all_dns" w)
  else remote (snd (main argv w)) !! "all_dns" = remote w !! "all_dns".
Proof. apply main_effect_dns. Qed.

Lemma completed_run_mirrors_dns_witness :
  parse_flags ["send_remote_server.py"] = Some (Args false false false false false)
  ∧ fst (main ["send_remote_server.py"] (sample_world [])) = Ok tt
  ∧ filter (in_zone (VStr "example.com"))
      (held Remote "all_dns" (snd (main ["send_remote_server.py"] (sample_world []))))
    = [ {[ "zone" := VStr "example.com"; "ip" := VStr "192.0.2.1" ]};
        {[ "zone" := VStr "example.com"; "ip" := VStr "192.0.2.3" ]} ]
  ∧ filter (in_zone (VStr "stale.com"))
      (held Remote "all_dns" (snd (main ["send_remote_server.py"] (sample_world []))))
    = [ {[ "zone" := VStr "stale.com"; "ip" := VStr "198.51.100.2" ]} ].
Proof.
  assert (fst (main ["send_remote_server.py"] (sample_world [])) = Ok tt) as Hok
    by (by vm_compute).
  pose proof (completed_run_mirrors_dns ["send_remote_server.py"]
                (Args false false false false false) (sample_world []) eq_refl Hok)
    as Hdns.
  change (bool_decide (length ["send_remote_server.py"] = 1%nat)
          || send_dns_records (Args false false false false false)) with true in Hdns.
  cbn iota in Hdns.
  split; [reflexivity|]. split; [exact Hok|].
  split; [rewrite (Hdns (VStr "example.com"))|rewrite (Hdns (VStr "stale.com"))];
    by vm_compute.
Defined.

(** ** What no run does *)

Lemma main_refused argv w :
  parse_flags argv = None →
  main argv w =
  (Exit 2, record (EvLog "Starting...") (record (EvPrint ("Starting: " +:+ now w)) w)).
Proof. intros H. unfold main, parse_args. rewrite H. reflexivity. Qed.

Section kept_mirror.
Context (mc rc : connector) {X : Type} (f : world → X) (ok : string → Prop).
Hypothesis f_record : ∀ e w, f (record e w) = f w.
Hypothesis f_faults : ∀ s fs w, f (set_faults s fs w) = f w.
Hypothesis f_docs : ∀ name, ok name →
  ∀ docs w, f (set_docs (Collection (m_connection rc) name) docs w) = f w.
Hypothesis ok_mirrored : ∀ name, name ∈ mirrored_collections → ok name.

Lemma ok_written r name : name ∈ written r → ok name.
Proof.
  intros H. apply ok_mirrored. unfold mirrored_collections.
  destruct r; simpl in H;
    repeat (apply elem_of_cons in H as [->|H]; [compute_done|]);
    by apply elem_of_nil in H.
Qed.

Lemma kept_mirror send_all args : obeys (keeps f) (mirror send_all args mc rc).
Proof.
  assert (∀ r, obeys (keeps f) (step_of r mc rc)) as Hstep.
  { intros r. apply (kept_step mc rc f ok); try done. apply ok_written. }
  unfold mirror. apply obeys_bind; [apply _| |intros zone_list].
  { destruct (send_all || send_zones args);
      apply (kept_update_zones mc rc f ok); try done;
      intros _; apply ok_mirrored; compute_done. }
  unfold after_zones.
  apply obeys_bind; [apply _| |intros _].
  { destruct (send_all || send_ip_zones args); [apply (Hstep IpZones)|].
    apply obeys_ret, _. }
  apply obeys_bind; [apply _| |intros _].
  { destruct (send_all || send_third_party_zones args); [|apply obeys_ret, _].
    apply obeys_bind; [apply _|apply (Hstep AwsIps)|intros _].
    apply obeys_bind; [apply _|apply (Hstep AzureIps)|intros _].
    apply obeys_bind; [apply _|apply (Hstep AkamaiIps)|intros _].
    apply (Hstep GcpIps). }
  apply obeys_bind; [apply _| |intros _].
  { destruct (send_all || send_config args); [apply (Hstep ConfigEntries)|].
    apply obeys_ret, _. }
  apply obeys_bind; [apply _| |intros _].
  { destruct (send_all || send_dns_records args); [|apply obeys_ret, _].
    apply (kept_update_all_dns mc rc f ok); try done.
    apply ok_mirrored. compute_done. }
  by apply kept_wrap_up.
Qed.

End kept_mirror.

Lemma one_way_other e : is_attempt e = false → is_sleep e = false → one_way e.
Proof. by destruct e. Qed.

Lemma one_way_main argv w :
  primary (snd (main argv w)) = primary w
  ∧ Forall one_way (new_events w (snd (main argv w)))
  ∧ ∀ name, name ∉ mirrored_collections →
            remote (snd (main argv w)) !! name = remote w !! name.
Proof.
  destruct (parse_flags argv) as [args|] eqn:Hargs.
  - split; [|split].
    + apply (main_obeys (keeps primary) argv args w Hargs).
      * by apply keeps_set_up.
      * intros rc Hrc. apply (kept_mirror primary_connector rc primary (λ _, True));
          try done.
        -- by intros [] ? ?.
        -- intros name _ docs w0. by apply primary_set_docs_remote.
    + eapply (grows_new_events one_way w), (main_obeys _ argv args w Hargs).
      * apply grows_set_up, one_way_other.
      * intros rc Hrc.
        apply (obeys_mirror (grows one_way)) with
          (readable := λ _, True) (writable := λ _, True); try done.
        -- intros e ? ?. by apply grows_emit, one_way_other.
        -- intros A e _. apply grows_raise.
        -- intros name q p _. by apply grows_find.
        -- intros name q _. by apply grows_remove.
        -- intros name d _. by apply grows_insert.
    + intros name Hname.
      apply (main_obeys (keeps (λ w, remote w !! name)) argv args w Hargs).
      * by apply keeps_set_up.
      * intros rc Hrc.
        apply (kept_mirror primary_connector rc (λ w, remote w !! name)
                 (λ name', name' ∈ mirrored_collections)); try done.
        -- by intros [] ? ?.
        -- intros name' Hin docs w0. apply remote_set_docs_other; [done|].
           by intros ->.
  - rewrite (main_refused argv w Hargs). simpl. split; [done|]. split; [|done].
    erewrite new_events_app; [|rewrite !trace_record, <- app_assoc; reflexivity].
    by repeat constructor.
Qed.

(** X11.  The mirror is one way, in every run of [main], however it ends.
    The primary store is only read: it holds what it held, and the only
    operation the run attempts on it is [find].  The remote store is only
    written: the operations attempted on it are [remove] and [insert], never
    a read.  No run sleeps.  And a collection of the remote store that the
    script does not name holds what it held. *)
Theorem mirror_is_one_way argv w :
  primary (snd (main argv w)) = primary w
  ∧ Forall one_way (new_events w (snd (main argv w)))
  ∧ ∀ name, name ∉ mirrored_collections →
            remote (snd (main argv w)) !! name = remote w !! name.
Proof. apply one_way_main. Qed.

(** ** The constructor as a whole *)

Lemma filter_prints (P : event → bool) msgs :
  (∀ msg, P (EvPrint msg) = false) → filter P (EvPrint <$> msgs) = [].
Proof.
  intros HP. induction msgs as [|msg msgs IH]; [done|].
  rewrite fmap_cons, filter_cons, HP. simpl. exact IH.
Qed.

Lemma init_run config_file debug w :
  match config_files w !! (if bool_decide (config_file ≠ "") then config_file
                           else "connector.config") with
  | None =>
      RemoteMongoConnector.__init__ config_file debug w
      = (Exit 0, record (EvPrint "Error: Could not find the config file") w)
  | Some cfg =>
      ∃ msgs uri ca,
        RemoteMongoConnector.__init__ config_file debug w
        = (Ok (Connector
                 (if bool_decide (config_file ≠ "") then config_file
                  else "connector.config")
                 (Database Remote (from_1 (setting cfg "mongo.path"))) debug),
           record (EvMongoClient uri ca) (prints msgs w))
  end.
Proof.
  destruct (config_files w !! _) as [cfg|] eqn:Hfile.
  - destruct (init_connection_run cfg w) as (msgs & Hrun).
    eexists msgs, _, _.
    unfold RemoteMongoConnector.__init__, config_read,
      RemoteMongoConnector.default_config_file.
    rewrite bind_run. cbn [gets]. rewrite Hfile. cbn beta iota.
    rewrite bool_decide_eq_false_2 by done.
    rewrite bind_run, Hrun. reflexivity.
  - by apply missing_config_exit.
Qed.

(** X5.  The constructor of the remote connector keeps to itself, on every
    world and however it ends: it attempts no store operation, leaves the
    stores and the schedules of the servers as they were, and asks for one
    connection at most.  It reads the file it was given, or connector.config
    when it was given the empty name: when there is no such file it leaves
    the process with status 0 without asking for a connection, and a
    connector it returns keeps that file name and the debug flag, has its
    database on the remote server, and was built from a file that could be
    read, with exactly one connection asked for. *)
Theorem constructor_touches_no_store config_file debug_flag w :
  attempts
    (new_events w (snd (RemoteMongoConnector.__init__ config_file debug_flag w)))
  = 0%nat
  ∧ (length (filter is_connection
               (new_events w
                  (snd (RemoteMongoConnector.__init__ config_file debug_flag w))))
     <= 1)%nat
  ∧ primary (snd (RemoteMongoConnector.__init__ config_file debug_flag w))
    = primary w
  ∧ remote (snd (RemoteMongoConnector.__init__ config_file debug_flag w))
    = remote w
  ∧ (∀ s, faults s (snd (RemoteMongoConnector.__init__ config_file debug_flag w))
          = faults s w)
  ∧ (config_files w !! (if bool_decide (config_file ≠ "") then config_file
                        else "connector.config") = None →
     fst (RemoteMongoConnector.__init__ config_file debug_flag w) = Exit 0
     ∧ filter is_connection
         (new_events w
            (snd (RemoteMongoConnector.__init__ config_file debug_flag w)))
       = [])
  ∧ (∀ self w',
       RemoteMongoConnector.__init__ config_file debug_flag w = (Ok self, w') →
       mongo_config_file self
       = (if bool_decide (config_file ≠ "") then config_file
          else "connector.config")
       ∧ debug self = debug_flag
       ∧ db_side (m_connection self) = Remote
       ∧ is_Some (config_files w !! mongo_config_file self)
       ∧ length (filter is_connection (new_events w w')) = 1%nat).
Proof.
  pose proof (init_run config_file debug_flag w) as Hrun.
  destruct (config_files w !! _) as [cfg|] eqn:Hfile.
  - destruct Hrun as (msgs & uri & ca & ->). cbn [fst snd].
    destruct (prints_world msgs w) as (Hp & Hr & Hpf & Hrf & _).
    assert (new_events w (record (EvMongoClient uri ca) (prints msgs w))
            = (EvPrint <$> msgs) ++ [EvMongoClient uri ca]) as Hevs.
    { apply new_events_app. by rewrite trace_record, trace_prints, <- app_assoc. }
    rewrite Hevs.
    split. { unfold attempts. by rewrite filter_app, (filter_prints is_attempt). }
    split. { by rewrite filter_app, (filter_prints is_connection). }
    split; [done|]. split; [done|]. split; [by intros []|].
    split; [done|].
    intros self w' [= <- <-]. cbn [mongo_config_file debug m_connection db_side].
    split; [done|]. split; [done|]. split; [done|].
    split; [by rewrite Hfile|].
    by rewrite Hevs, filter_app, (filter_prints is_connection).
  - rewrite Hrun. cbn [fst snd].
    assert (new_events w (record (EvPrint "Error: Could not find the config file") w)
            = [EvPrint "Error: Could not find the config file"]) as ->.
    { apply new_events_app. by rewrite trace_record. }
    split; [done|]. split; [simpl; lia|]. split; [done|]. split; [done|].
    split; [by intros []|]. split; [done|]. by intros self w' [=].
Qed.

Lemma constructor_touches_no_store_witness :
  config_files (sample_world []) !! "connector.config" = Some sample_config
  ∧ config_files (without_config (sample_world [])) !! "connector.config" = None
  ∧ fst (RemoteMongoConnector.__init__ "" false (without_config (sample_world [])))
    = Exit 0
  ∧ length (filter is_connection
              (new_events (sample_world [])
                 (snd (RemoteMongoConnector.__init__ "" false (sample_world [])))))
    = 1%nat.
Proof.
  split; [reflexivity|]. split; [reflexivity|].
  split.
  - destruct (constructor_touches_no_store "" false
                (without_config (sample_world [])))
      as (_ & _ & _ & _ & _ & Hmissing & _).
    exact (proj1 (Hmissing eq_refl)).
  - destruct (constructor_touches_no_store "" false (sample_world []))
      as (_ & _ & _ & _ & _ & _ & Hreturned).
    destruct (RemoteMongoConnector.__init__ "" false (sample_world []))
      as [r w'] eqn:Hrun.
    assert (∃ self, r = Ok self) as [self ->].
    { vm_compute in Hrun. injection Hrun as <- _. by eexists. }
    cbn [snd].
    by destruct (Hreturned self w' eq_refl) as (_ & _ & _ & _ & Hone).
Defined.

(** ** The record of the job *)

Lemma mirror_steps send_all args mc rc w :
  mirror send_all args mc rc w = (steps send_all args mc rc;; wrap_up) w.
Proof.
  unfold mirror, steps. rewrite !bind_run, mirror_zones_choice.
  destruct (update_zones mc rc _ w) as [[zone_list|e|code] w1]; [|done..].
  rewrite after_zones_parts, !bind_run.
  destruct (replace_steps send_all args mc rc w1) as [[[]|e|code] w2]; [|done..].
  rewrite !bind_run.
  by destruct ((if send_all || send_dns_records args
                then update_all_dns mc rc zone_list else mret tt) w2)
    as [[[]|e|code] w3].
Qed.

(** The steps log lines and attempt store operations, and add nothing else
    to the trace. *)
Section steps_events.
Context (P : event → Prop) (mc rc : connector).
Hypothesis P_log : ∀ msg, P (EvLog msg).
Hypothesis P_store : ∀ c o, P (EvStore c o).

Ltac step_by_step :=
  repeat first
    [ apply obeys_ret; apply _ | apply obeys_gets; apply _
    | apply grows_find; apply P_store
    | apply grows_remove; apply P_store
    | apply grows_insert; apply P_store
    | apply grows_emit; apply P_log
    | apply obeys_for_each; [apply _|intros ?]
    | apply obeys_for_acc; [apply _|intros ? ?]
    | apply obeys_bind; [apply _| |intros ?] ].

Lemma grows_getitem d key : obeys (grows P) (getitem d key).
Proof.
  unfold getitem. destruct (d !! key); [apply obeys_ret, _|apply grows_raise].
Qed.

Lemma grows_steps send_all args : obeys (grows P) (steps send_all args mc rc).
Proof.
  unfold steps. apply obeys_bind; [apply _| |intros zone_list].
  { unfold update_zones, logger_info.
    destruct (send_all || send_zones args); step_by_step; apply grows_getitem. }
  apply obeys_bind; [apply _| |intros _].
  { unfold replace_steps.
    apply obeys_bind; [apply _| |intros _].
    { destruct (send_all || send_ip_zones args); [|apply obeys_ret, _].
      unfold update_ip_zones, logger_info. step_by_step. }
    apply obeys_bind; [apply _| |intros _].
    { destruct (send_all || send_third_party_zones args); [|apply obeys_ret, _].
      unfold update_aws_cidrs, update_azure_cidrs, update_akamai_cidrs,
        update_gcp_cidrs, logger_info. step_by_step. }
    destruct (send_all || send_config args); [|apply obeys_ret, _].
    unfold update_config, logger_info. step_by_step. }
  destruct (send_all || send_dns_records args); [|apply obeys_ret, _].
  unfold update_all_dns, logger_info. step_by_step.
Qed.

End steps_events.

Lemma set_up_run argv args cfg w :
  parse_flags argv = Some args →
  config_files w !! "connector.config" = Some cfg →
  ∃ rc msgs uri ca,
    db_side (m_connection rc) = Remote
    ∧ set_up argv w =
      (Ok (args, primary_connector, rc),
       record (EvJob "send_remote_server: start")
         (record (EvMongoClient uri ca)
            (prints msgs
               (record (EvLog "Starting...")
                  (record (EvPrint ("Starting: " +:+ now w)) w))))).
Proof.
  intros Hargs Hcfg.
  pose proof (init_run "" false
                (record (EvLog "Starting...")
                   (record (EvPrint ("Starting: " +:+ now w)) w))) as Hinit.
  rewrite bool_decide_eq_false_2 in Hinit by (by intros []).
  change (config_files (record _ (record _ w))) with (config_files w) in Hinit.
  rewrite Hcfg in Hinit. destruct Hinit as (msgs & uri & ca & Hinit).
  eexists _, msgs, uri, ca. split; [|].
  2:{ unfold set_up, parse_args. rewrite Hargs.
      rewrite bind_run. cbn [gets]. cbn beta iota.
      rewrite bind_run. cbn [print emit modify]. cbn beta iota.
      rewrite bind_run. cbn [logger_info emit modify]. cbn beta iota.
      rewrite bind_run. cbn [mret M_ret ret]. cbn beta iota.
      rewrite bind_run. cbn [MongoConnector.__init__ mret M_ret ret]. cbn beta iota.
      rewrite bind_run, Hinit. reflexivity. }
  reflexivity.
Qed.

Lemma wrap_up_run w :
  wrap_up w =
  (Ok tt,
   record (EvLog "Complete.")
     (record (EvPrint ("Complete: " +:+ now w))
        (record (EvJob "send_remote_server: complete") w))).
Proof. reflexivity. Qed.

Lemma filter_no_job evs :
  Forall (λ e, is_job e = false) evs →
  filter (λ e, is_job e || is_attempt e) evs = filter is_attempt evs.
Proof.
  induction 1 as [|e evs He _ IH]; [done|].
  rewrite !filter_cons, IH, He. simpl. by destruct (is_attempt e).
Qed.

Lemma filter_no_attempt (P : event → bool) evs :
  Forall (λ e, P e = false) evs → filter P evs = [].
Proof.
  induction 1 as [|e evs He _ IH]; [done|]. by rewrite filter_cons, IH, He.
Qed.

Lemma job_record argv args cfg w :
  parse_flags argv = Some args →
  config_files w !! "connector.config" = Some cfg →
  filter (λ e, is_job e || is_attempt e) (new_events w (snd (main argv w)))
  = EvJob "send_remote_server: start"
    :: filter is_attempt (new_events w (snd (main argv w)))
    ++ match fst (main argv w) with
       | Ok _ => [EvJob "send_remote_server: complete"]
       | _ => []
       end.
Proof.
  intros Hargs Hcfg.
  destruct (set_up_run argv args cfg w Hargs Hcfg)
    as (rc & msgs & uri & ca & Hrc & Hset).
  set (w1 := record (EvJob "send_remote_server: start") _) in Hset.
  assert (trace w1 = trace w ++ ([EvPrint ("Starting: " +:+ now w); EvLog "Starting..."]
                                 ++ (EvPrint <$> msgs)
                                 ++ [EvMongoClient uri ca;
                                     EvJob "send_remote_server: start"])) as Ht1.
  { unfold w1. rewrite !trace_record, trace_prints, !trace_record.
    by rewrite <- !app_assoc. }
  pose proof (grows_steps (λ e, is_job e = false) primary_connector rc
                (λ _, eq_refl) (λ _ _, eq_refl)
                (bool_decide (length argv = 1%nat)) args w1) as (evs & Ht2 & Hevs).
  assert (∀ (r : outcome unit) tl w',
            trace w' = trace w1 ++ evs ++ tl →
            Forall (λ e, is_attempt e = false) tl →
            filter (λ e, is_job e || is_attempt e) tl
            = match r with Ok _ => [EvJob "send_remote_server: complete"] | _ => [] end →
            filter (λ e, is_job e || is_attempt e) (new_events w w')
            = EvJob "send_remote_server: start"
              :: filter is_attempt (new_events w w')
              ++ match r with
                 | Ok _ => [EvJob "send_remote_server: complete"]
                 | _ => []
                 end) as Hgen.
  { intros r tl w' Ht Htl Hfl.
    erewrite (new_events_app w w'); [|rewrite Ht, Ht1, <- !app_assoc; reflexivity].
    rewrite !filter_app, !(filter_prints _ msgs) by done.
    rewrite (filter_no_job evs Hevs), Hfl, (filter_no_attempt is_attempt tl Htl).
    simpl. by rewrite app_nil_r. }
  rewrite main_parts, bind_run, Hset. cbn beta iota.
  rewrite mirror_steps, bind_run.
  destruct (steps _ args primary_connector rc w1) as [[[]|e|code] w2] eqn:Hsteps;
    cbn [snd] in Ht2.
  - cbn beta iota. rewrite wrap_up_run.
    apply (Hgen (Ok tt) [EvJob "send_remote_server: complete";
                          EvPrint ("Complete: " +:+ now w2); EvLog "Complete."]).
    + cbn [snd]. rewrite !trace_record, Ht2. by rewrite <- !app_assoc.
    + by repeat constructor.
    + done.
  - apply (Hgen (Raise e) []); [by rewrite app_nil_r|constructor|done].
  - apply (Hgen (Exit code) []); [by rewrite app_nil_r|constructor|done].
Qed.

(** X12.  The record of the job brackets the steps.  In a run that gets
    past its set-up, the start of the job is recorded before the first store
    operation; the completion of the job is recorded after the last one,
    and it is recorded exactly when the run ends normally: a run that a
    step has ended leaves the job started and not complete. *)
Theorem job_brackets_the_steps argv args cfg w :
  parse_flags argv = Some args →
  config_files w !! "connector.config" = Some cfg →
  filter (λ e, is_job e || is_attempt e) (new_events w (snd (main argv w)))
  = EvJob "send_remote_server: start"
    :: filter is_attempt (new_events w (snd (main argv w)))
    ++ match fst (main argv w) with
       | Ok _ => [EvJob "send_remote_server: complete"]
       | _ => []
       end.
Proof. apply job_record. Qed.

Lemma job_brackets_the_steps_witness :
  parse_flags ["send_remote_server.py"; "--send_config"]
  = Some (Args false false false true false)
  ∧ config_files (sample_world [None; Some AutoReconnect]) !! "connector.config"
    = Some sample_config
  ∧ filter (λ e, is_job e || is_attempt e)
      (new_events (sample_world [None; Some AutoReconnect])
         (snd (main ["send_remote_server.py"; "--send_config"]
                 (sample_world [None; Some AutoReconnect]))))
    = [ EvJob "send_remote_server: start";
        EvStore primary_zones (OpFind ∅ (Some no_id));
        EvStore (Collection (Database Primary "") "config") (OpFind ∅ (Some no_id)) ].
Proof.
  split; [reflexivity|]. split; [reflexivity|].
  rewrite (job_brackets_the_steps ["send_remote_server.py"; "--send_config"]
             (Args false false false true false) sample_config
             (sample_world [None; Some AutoReconnect]) eq_refl eq_refl).
  by vm_compute.
Defined.
